(** * Self-healing monitor (src/utils/self-healing.js): a shallow embedding

    The class [SelfHealingSystem] keeps two registries (health checks and
    automatic repairs, both JavaScript [Map]s), a sequence of performance
    samples, a table of error patterns and the time stamp of the last run
    of every repair.  This development embeds its methods as functions on
    an explicit system state and proves the properties the specification
    states about them.

    Conventions of the embedding.
    - A JavaScript [Map] is an association list in insertion order with
      pairwise distinct keys.  A plain object used as a dictionary is given
      by its own properties, in the order in which the language lists them:
      array indices first, in ascending order, then the other names in
      creation order.  Its prototype is [Object.prototype]: an assignment to
      the name [__proto__] creates no property, and a name the object does
      not own may still be found on the prototype.
    - Numbers that the program only counts, indexes or compares with integer
      literals (status codes, counters, lengths, byte sizes, millisecond
      time stamps) are integers of [Z]; numbers that come out of a division
      are IEEE 754 binary64 values ([spec_float] at precision 53), computed
      with the operations of [SpecFloat].
    - [new Date().toISOString()] is represented by the millisecond time
      stamp it renders.
    - A thrown value is an [Error] object with a message and a stack, or
      any other value, [null] and [undefined] included.  Reading a property
      of [null] or [undefined] throws a [TypeError]; its message has the
      wording of V8, and its stack is represented by its first line.
    - Methods run in a state-and-exception monad over the system state.  A
      method runs to completion: the values the source awaits are available
      when it awaits them, so no other callback runs in between.
    - The closures stored in the registries see the part of the state the
      registered checks and repairs use: the samples, the logger and the
      process (record [World]).  A closure that writes the registries of
      the system object, or whose promise never settles, is not
      represented. *)

From Stdlib Require Import ZArith List String Ascii Bool Lia Arith.
From Stdlib Require Import QArith.
From Stdlib Require Import Floats.SpecFloat.
From Stdlib Require Import Sorting.Permutation Sorting.Sorted.
Import ListNotations.

Local Open Scope string_scope.
Local Open Scope list_scope.
Local Open Scope Z_scope.

(** * The program *)

(** ** Arrays *)

Module JSArray.

(** [a.slice(start)] for an integer [start]: a negative [start] counts from
    the end, and both ends are clamped to the array. *)
Definition slice {A : Type} (start : Z) (a : list A) : list A :=
  let len := Z.of_nat (List.length a) in
  let k := if start <? 0 then Z.max (len + start) 0 else Z.min start len in
  skipn (Z.to_nat k) a.

End JSArray.

(** ** Maps and dictionary objects *)

Module JSMap.

Section Ops.
Context {V : Type}.

Definition t := list (string * V).

Definition empty : t := [].

Fixpoint get (k : string) (m : t) : option V :=
  match m with
  | [] => None
  | (k', v) :: m' => if String.eqb k k' then Some v else get k m'
  end.

Definition has (k : string) (m : t) : bool :=
  match get k m with Some _ => true | None => false end.

(** [m.set(k, v)]: an existing key keeps its place and takes the new
    value; a new key goes to the end. *)
Fixpoint set (k : string) (v : V) (m : t) : t :=
  match m with
  | [] => [(k, v)]
  | (k', v') :: m' =>
      if String.eqb k k' then (k', v) :: m' else (k', v') :: set k v m'
  end.

Definition keys (m : t) : list string := map fst m.
Definition values (m : t) : list V := map snd m.
Definition entries (m : t) : list (string * V) := m.
Definition size (m : t) : nat := List.length m.

(** Keys of a map are pairwise distinct. *)
Definition wf (m : t) : Prop := NoDup (keys m).

End Ops.

Arguments t : clear implicits.

End JSMap.

(** A plain object used as a dictionary: its own properties, in the order
    in which [Object.keys], [Object.values] and [Object.entries] list them. *)
Module JSObject.

Definition t (V : Type) := JSMap.t V.
Definition empty {V} : t V := JSMap.empty.

(** The own property [k], if there is one. *)
Definition get {V} (k : string) (o : t V) : option V := JSMap.get k o.

Definition keys {V} (o : t V) : list string := JSMap.keys o.
Definition values {V} (o : t V) : list V := JSMap.values o.
Definition entries {V} (o : t V) : list (string * V) := JSMap.entries o.

(** [{ [k]: v }]: a computed name in an object literal defines an own
    property, whatever the name. *)
Definition singleton {V} (k : string) (v : V) : t V := [(k, v)].

(** The number a string of decimal digits denotes, after [acc]. *)
Fixpoint decimal (cs : list ascii) (acc : N) : option N :=
  match cs with
  | [] => Some acc
  | c :: cs' =>
      let d := N_of_ascii c in
      if ((48 <=? d) && (d <=? 57))%N then decimal cs' (10 * acc + (d - 48))%N
      else None
  end.

(** An array index: the canonical decimal form (no sign, no leading zero)
    of an integer below [2^32 - 1]. *)
Definition array_index (k : string) : option N :=
  match list_ascii_of_string k with
  | [] => None
  | c :: cs =>
      if Ascii.eqb c "0" && negb (match cs with [] => true | _ => false end) then None
      else match decimal (c :: cs) 0 with
           | Some n => if (n <? 4294967295)%N then Some n else None
           | None => None
           end
  end.

(** A new property takes its place in the listing: an array index goes
    before the first property that is no smaller array index, any other
    name goes to the end. *)
Fixpoint add_index {V} (i : N) (k : string) (v : V) (o : t V) : t V :=
  match o with
  | [] => [(k, v)]
  | (k', v') :: o' =>
      match array_index k' with
      | Some j => if (j <? i)%N then (k', v') :: add_index i k v o'
                  else (k, v) :: o
      | None => (k, v) :: o
      end
  end.

Definition add {V} (k : string) (v : V) (o : t V) : t V :=
  match array_index k with
  | Some i => add_index i k v o
  | None => o ++ [(k, v)]
  end.

(** [o[k] = v].  An own property takes the new value where it stands.
    Otherwise the name [__proto__] reaches the setter of
    [Object.prototype], which creates no property (it changes the
    prototype if [v] is an object, and does nothing if not); any other
    name becomes a new own property. *)
Definition set {V} (k : string) (v : V) (o : t V) : t V :=
  if JSMap.has k o then JSMap.set k v o
  else if String.eqb k "__proto__" then o
  else add k v o.

(** The names of the properties of [Object.prototype]. *)
Definition prototype_names : list string :=
  ["constructor"; "__defineGetter__"; "__defineSetter__"; "hasOwnProperty";
   "__lookupGetter__"; "__lookupSetter__"; "isPrototypeOf"; "propertyIsEnumerable";
   "toString"; "valueOf"; "__proto__"; "toLocaleString"].

(** Does a plain object inherit the name [k]? *)
Definition inherited (k : string) : bool := existsb (String.eqb k) prototype_names.

(** [String(Object.prototype[k])] for an inherited name: the source text
    of a built-in function, or of the prototype itself for [__proto__]. *)
Definition inherited_text (k : string) : string :=
  if String.eqb k "__proto__" then "[object Object]"
  else ("function " ++ (if String.eqb k "constructor" then "Object" else k)
        ++ "() { [native code] }")%string.

End JSObject.

(** ** Numbers *)

Module Float64.

Definition prec : Z := 53.
Definition emax : Z := 1024.

Definition t := spec_float.

(** The double nearest to an integer (the integer itself below [2^53]). *)
Definition of_Z (z : Z) : t := binary_normalize prec emax z 0 false.

Definition add : t -> t -> t := SFadd prec emax.
Definition mul : t -> t -> t := SFmul prec emax.
Definition div : t -> t -> t := SFdiv prec emax.
Definition ltb : t -> t -> bool := SFltb.
Definition gtb (x y : t) : bool := SFltb y x.

End Float64.

(** ** Values, errors, completions *)

#[local] Set Warnings "-register-all".

Inductive Value : Type :=
| VBool (b : bool)
| VInt (z : Z)                         (* an integer-valued number *)
| VNum (x : Float64.t)                 (* any other number *)
| VStr (s : string)
| VDate (ms : Z)                       (* the ISO 8601 rendering of a time stamp *)
| VArr (items : list Value)
| VObj (props : list (string * Value))
| VUndefined
| VNull.

Record Error : Type := { message : string; stack : string }.

(** What a [throw] or a rejected promise carries. *)
Inductive Thrown : Type :=
| Thrown_error (e : Error)                (* an [Error] object *)
| Thrown_value (v : Value).               (* any other value *)

(** How the evaluation of an expression or of a function body ends. *)
Inductive Completion (A : Type) : Type :=
| Normal (a : A)
| Throw (x : Thrown).

Arguments Normal {A} a.
Arguments Throw {A} x.

Definition nullish (v : Value) : bool :=
  match v with
  | VUndefined | VNull => true
  | _ => false
  end.

(** The [TypeError] of reading the property [k] of [null] or [undefined]. *)
Definition cannot_read (k : string) (v : Value) : Error :=
  let msg := ("Cannot read properties of "
              ++ (match v with VNull => "null" | _ => "undefined" end)
              ++ " (reading '" ++ k ++ "')")%string in
  {| message := msg; stack := ("TypeError: " ++ msg)%string |}.

(** [v.k] for a value other than [null] and [undefined], and [k] one of
    [message] and [stack]: the own property of an object, and [undefined]
    for an object without it and for every primitive. *)
Definition property (k : string) (v : Value) : Value :=
  match v with
  | VObj props => match JSMap.get k props with
                  | Some x => x
                  | None => VUndefined
                  end
  | _ => VUndefined
  end.

(** [error.message] *)
Definition error_message (error : Thrown) : Completion Value :=
  match error with
  | Thrown_error e => Normal (VStr (message e))
  | Thrown_value v =>
      if nullish v then Throw (Thrown_error (cannot_read "message" v))
      else Normal (property "message" v)
  end.

(** [error.stack] *)
Definition error_stack (error : Thrown) : Completion Value :=
  match error with
  | Thrown_error e => Normal (VStr (stack e))
  | Thrown_value v =>
      if nullish v then Throw (Thrown_error (cannot_read "stack" v))
      else Normal (property "stack" v)
  end.

(** [{ error: error.message, stack: error.stack }] *)
Definition error_meta (error : Thrown) : Completion Value :=
  match error_message error with
  | Normal m =>
      match error_stack error with
      | Normal st => Normal (VObj [("error", m); ("stack", st)])
      | Throw x => Throw x
      end
  | Throw x => Throw x
  end.

(** ** The data of the monitor *)

(** An entry of [performanceMetrics], as [recordMetric] builds it. *)
Record Metric : Type := {
  endpoint : string;
  responseTime : Float64.t;
  statusCode : Z;
  timestamp : Z
}.

Definition Metric_value (m : Metric) : Value :=
  VObj [("endpoint", VStr (endpoint m));
        ("responseTime", VNum (responseTime m));
        ("statusCode", VInt (statusCode m));
        ("timestamp", VDate (timestamp m))].

(** What a health check returns: the [healthy] flag, the [component] name
    the polling loop adds, and the other properties in the order written. *)
Record Reading : Type := {
  healthy : bool;
  component : option string;
  props : list (string * Value)
}.

Definition Reading_value (r : Reading) : Value :=
  VObj (("healthy", VBool (healthy r)) :: props r ++
        match component r with
        | Some c => [("component", VStr c)]
        | None => []
        end).

(** The argument of [triggerHealing] and the result of [getHealthStatus]. *)
Definition HealthStatus : Type := JSObject.t Reading.

Inductive Level : Type := debug | info | warn | error.

(** One call of the logger: level, message and the optional metadata. *)
Record LogEntry : Type := {
  level : Level;
  text : string;
  meta : option Value
}.

(** [process.memoryUsage()], in bytes. *)
Record MemoryUsage : Type := {
  rss : Z;
  heapTotal : Z;
  heapUsed : Z;
  external : Z
}.

Definition MemoryUsage_value (u : MemoryUsage) : Value :=
  VObj [("rss", VInt (rss u)); ("heapTotal", VInt (heapTotal u));
        ("heapUsed", VInt (heapUsed u)); ("external", VInt (external u))].

(** What the closures stored in the registries can read and write: the
    sample sequence and the logger of the system object, and the process
    around it (clock, memory figures, uptime, the optional [global.gc]). *)
Record World : Type := {
  performanceMetrics : list Metric;
  logged : list LogEntry;               (* oldest first *)
  now : Z;                              (* Date.now() *)
  memoryUsage : MemoryUsage;            (* process.memoryUsage() *)
  uptime : Float64.t;                   (* process.uptime() *)
  heapStatistics : Value;               (* v8.getHeapStatistics() *)
  gc : bool;                            (* is global.gc defined *)
  gcRuns : nat                          (* calls of global.gc() so far *)
}.

Definition set_performanceMetrics (ms : list Metric) (w : World) : World :=
  {| performanceMetrics := ms; logged := logged w; now := now w;
     memoryUsage := memoryUsage w; uptime := uptime w;
     heapStatistics := heapStatistics w; gc := gc w; gcRuns := gcRuns w |}.

Definition set_now (t : Z) (w : World) : World :=
  {| performanceMetrics := performanceMetrics w; logged := logged w; now := t;
     memoryUsage := memoryUsage w; uptime := uptime w;
     heapStatistics := heapStatistics w; gc := gc w; gcRuns := gcRuns w |}.

Definition emit (e : LogEntry) (w : World) : World :=
  {| performanceMetrics := performanceMetrics w;
     logged := logged w ++ [e];
     now := now w;
     memoryUsage := memoryUsage w; uptime := uptime w;
     heapStatistics := heapStatistics w; gc := gc w; gcRuns := gcRuns w |}.

(** [this.logger.<level>(msg, data)] *)
Definition logger (l : Level) (msg : string) (data : option Value) (w : World) : World :=
  emit {| level := l; text := msg; meta := data |} w.

Definition global_gc (w : World) : World :=
  {| performanceMetrics := performanceMetrics w; logged := logged w; now := now w;
     memoryUsage := memoryUsage w; uptime := uptime w;
     heapStatistics := heapStatistics w; gc := gc w; gcRuns := S (gcRuns w) |}.

(** A registered health check. *)
Record HealthCheck : Type := {
  check_label : string;                        (* name *)
  check : World -> Completion Reading;
  interval : Z;
  critical : bool
}.

(** A registered repair.  The trigger of [stability_check] reads
    [this.healthChecks], so triggers take that registry as an argument.
    The action is asynchronous: it may change the world and then either
    return a result or throw. *)
Record AutoRepair : Type := {
  repair_label : string;                       (* name *)
  trigger : JSMap.t HealthCheck -> HealthStatus -> Completion bool;
  repair : World -> Completion Value * World;
  cooldown : Z
}.

(** An entry of [errorPatterns]. *)
Record ErrorPattern : Type := {
  count : Z;
  first_seen : Z;
  last_seen : Z;
  messages : list (string * Z)                (* { message, timestamp } *)
}.

(** The callbacks handed to [setInterval]. *)
Inductive Callback : Type :=
| PollCheck (name : string) (c : HealthCheck)   (* startMonitoring, per check *)
| CleanMetrics                                  (* startMonitoring, every 10 min *)
| OptimizeMemory.                               (* initialize, every 5 min *)

Record Timer : Type := { callback : Callback; period : Z }.

(** The system object.  [invoked] is not a field of the class: it records,
    in order, the key of every repair whose action was called, so that
    executions can be counted. *)
Record Sys : Type := {
  world : World;
  healthChecks : JSMap.t HealthCheck;
  autoRepairs : JSMap.t AutoRepair;
  errorPatterns : JSMap.t ErrorPattern;
  isMonitoring : bool;
  healingAttempts : JSMap.t Z;
  timers : list Timer;
  invoked : list string
}.

Definition set_world (w : World) (s : Sys) : Sys :=
  {| world := w; healthChecks := healthChecks s; autoRepairs := autoRepairs s;
     errorPatterns := errorPatterns s; isMonitoring := isMonitoring s;
     healingAttempts := healingAttempts s; timers := timers s;
     invoked := invoked s |}.

Definition set_healthChecks (m : JSMap.t HealthCheck) (s : Sys) : Sys :=
  {| world := world s; healthChecks := m; autoRepairs := autoRepairs s;
     errorPatterns := errorPatterns s; isMonitoring := isMonitoring s;
     healingAttempts := healingAttempts s; timers := timers s;
     invoked := invoked s |}.

Definition set_autoRepairs (m : JSMap.t AutoRepair) (s : Sys) : Sys :=
  {| world := world s; healthChecks := healthChecks s; autoRepairs := m;
     errorPatterns := errorPatterns s; isMonitoring := isMonitoring s;
     healingAttempts := healingAttempts s; timers := timers s;
     invoked := invoked s |}.

Definition set_errorPatterns (m : JSMap.t ErrorPattern) (s : Sys) : Sys :=
  {| world := world s; healthChecks := healthChecks s; autoRepairs := autoRepairs s;
     errorPatterns := m; isMonitoring := isMonitoring s;
     healingAttempts := healingAttempts s; timers := timers s;
     invoked := invoked s |}.

Definition set_isMonitoring (b : bool) (s : Sys) : Sys :=
  {| world := world s; healthChecks := healthChecks s; autoRepairs := autoRepairs s;
     errorPatterns := errorPatterns s; isMonitoring := b;
     healingAttempts := healingAttempts s; timers := timers s;
     invoked := invoked s |}.

Definition set_healingAttempts (m : JSMap.t Z) (s : Sys) : Sys :=
  {| world := world s; healthChecks := healthChecks s; autoRepairs := autoRepairs s;
     errorPatterns := errorPatterns s; isMonitoring := isMonitoring s;
     healingAttempts := m; timers := timers s;
     invoked := invoked s |}.

Definition add_timer (t : Timer) (s : Sys) : Sys :=
  {| world := world s; healthChecks := healthChecks s; autoRepairs := autoRepairs s;
     errorPatterns := errorPatterns s; isMonitoring := isMonitoring s;
     healingAttempts := healingAttempts s; timers := timers s ++ [t];
     invoked := invoked s |}.

Definition note_invoked (k : string) (s : Sys) : Sys :=
  {| world := world s; healthChecks := healthChecks s; autoRepairs := autoRepairs s;
     errorPatterns := errorPatterns s; isMonitoring := isMonitoring s;
     healingAttempts := healingAttempts s; timers := timers s;
     invoked := invoked s ++ [k] |}.

(** ** The monad of methods: state and exceptions *)

Definition M (A : Type) : Type := Sys -> Completion A * Sys.

Definition ret {A} (a : A) : M A := fun s => (Normal a, s).

Definition bind {A B} (c : M A) (k : A -> M B) : M B :=
  fun s =>
    match c s with
    | (Normal a, s') => k a s'
    | (Throw x, s') => (Throw x, s')
    end.

Definition throw {A} (x : Thrown) : M A := fun s => (Throw x, s).

(** [try { body } catch (error) { handler }] *)
Definition try_catch {A} (body : M A) (handler : Thrown -> M A) : M A :=
  fun s =>
    match body s with
    | (Normal a, s') => (Normal a, s')
    | (Throw x, s') => handler x s'
    end.

Definition gets {A} (f : Sys -> A) : M A := fun s => (Normal (f s), s).
Definition modify (f : Sys -> Sys) : M unit := fun s => (Normal tt, f s).

(** Evaluate a completion computed elsewhere. *)
Definition complete {A} (c : Completion A) : M A := fun s => (c, s).

(** Run a closure of the registries on the world of the system. *)
Definition in_world {A} (f : World -> Completion A * World) : M A :=
  fun s => let (c, w) := f (world s) in (c, set_world w s).

Declare Scope js_scope.
Delimit Scope js_scope with js.
Notation "x <- c ;; k" := (bind c (fun x => k))
  (at level 61, c at next level, right associativity) : js_scope.
Notation "c ;; k" := (bind c (fun _ => k))
  (at level 61, right associativity) : js_scope.
Local Open Scope js_scope.

(** [for (const x of xs) { body x }] *)
Fixpoint for_of {A} (xs : list A) (body : A -> M unit) : M unit :=
  match xs with
  | [] => ret tt
  | x :: xs' => body x ;; for_of xs' body
  end.

Definition log (l : Level) (msg : string) (data : option Value) : M unit :=
  modify (fun s => set_world (logger l msg data (world s)) s).

Definition Date_now : M Z := gets (fun s => now (world s)).

(** ** [setupHealthChecks] and [setupV8Monitoring] *)

(** [(memUsage.heapUsed / memUsage.heapTotal) * 100] *)
Definition heapUsedPercent (u : MemoryUsage) : Float64.t :=
  Float64.mul (Float64.div (Float64.of_Z (heapUsed u)) (Float64.of_Z (heapTotal u)))
              (Float64.of_Z 100).

Definition server_check : HealthCheck :=
  {| check_label := "Server Health";
     check := fun w =>
       Normal {| healthy := true;
                 component := None;
                 props := [("uptime", VNum (uptime w));
                           ("memory", MemoryUsage_value (memoryUsage w));
                           ("timestamp", VDate (now w))] |};
     interval := 30000;
     critical := true |}.

Definition memory_check : HealthCheck :=
  {| check_label := "Memory Usage";
     check := fun w =>
       let memUsage := memoryUsage w in
       let memoryUsagePercent := heapUsedPercent memUsage in
       Normal {| healthy := Float64.ltb memoryUsagePercent (Float64.of_Z 85);
                 component := None;
                 props := [("usage_percent", VNum memoryUsagePercent);
                           ("heap_used", VInt (heapUsed memUsage));
                           ("heap_total", VInt (heapTotal memUsage));
                           ("warning_threshold", VInt 85);
                           ("critical_threshold", VInt 95);
                           ("timestamp", VDate (now w))] |};
     interval := 15000;
     critical := true |}.

Definition response_time_check : HealthCheck :=
  {| check_label := "Response Time";
     check := fun w =>
       let recentMetrics := JSArray.slice (-10) (performanceMetrics w) in
       if (List.length recentMetrics =? 0)%nat then
         Normal {| healthy := true; component := None;
                   props := [("average_response_time", VInt 0);
                             ("timestamp", VDate (now w))] |}
       else
         let avgResponseTime :=
           Float64.div
             (fold_left (fun sum metric => Float64.add sum (responseTime metric))
                        recentMetrics (Float64.of_Z 0))
             (Float64.of_Z (Z.of_nat (List.length recentMetrics))) in
         Normal {| healthy := Float64.ltb avgResponseTime (Float64.of_Z 2000);
                   component := None;
                   props := [("average_response_time", VNum avgResponseTime);
                             ("threshold", VInt 2000);
                             ("recent_requests", VInt (Z.of_nat (List.length recentMetrics)));
                             ("timestamp", VDate (now w))] |};
     interval := 45000;
     critical := false |}.

Definition error_rate_check : HealthCheck :=
  {| check_label := "Error Rate";
     check := fun w =>
       let recentMetrics := JSArray.slice (-50) (performanceMetrics w) in
       if (List.length recentMetrics =? 0)%nat then
         Normal {| healthy := true; component := None;
                   props := [("error_rate", VInt 0);
                             ("timestamp", VDate (now w))] |}
       else
         let errorCount :=
           Z.of_nat (List.length (filter (fun metric => 400 <=? statusCode metric)
                                         recentMetrics)) in
         let errorRate :=
           Float64.mul
             (Float64.div (Float64.of_Z errorCount)
                          (Float64.of_Z (Z.of_nat (List.length recentMetrics))))
             (Float64.of_Z 100) in
         Normal {| healthy := Float64.ltb errorRate (Float64.of_Z 10);
                   component := None;
                   props := [("error_rate", VNum errorRate);
                             ("error_count", VInt errorCount);
                             ("total_requests", VInt (Z.of_nat (List.length recentMetrics)));
                             ("threshold", VInt 10);
                             ("timestamp", VDate (now w))] |};
     interval := 60000;
     critical := true |}.

Definition v8_performance_check : HealthCheck :=
  {| check_label := "V8 Performance";
     check := fun w =>
       let memUsage := memoryUsage w in
       let heapUsedPercent := heapUsedPercent memUsage in
       let v8Stats := heapStatistics w in
       Normal {| healthy := Float64.ltb heapUsedPercent (Float64.of_Z 90);
                 component := None;
                 props := [("heap_used_percent", VNum heapUsedPercent);
                           ("heap_statistics", v8Stats);
                           ("gc_available", VBool (gc w));
                           ("optimization_level", VStr "v8_enhanced");
                           ("timestamp", VDate (now w))] |};
     interval := 30000;
     critical := true |}.

(** [this.healthChecks.set(name, definition)] *)
Definition healthChecks_set (name : string) (definition : HealthCheck) : M unit :=
  modify (fun s => set_healthChecks (JSMap.set name definition (healthChecks s)) s).

Definition setupHealthChecks : M unit :=
  healthChecks_set "server" server_check ;;
  healthChecks_set "memory" memory_check ;;
  healthChecks_set "response_time" response_time_check ;;
  healthChecks_set "error_rate" error_rate_check.

Definition setupV8Monitoring : M unit :=
  healthChecks_set "v8_performance" v8_performance_check ;;
  log info "🚀 V8+ performance monitoring enabled" None.

(** ** [setupAutoRepairs] *)

(** [healthStatus.k && !healthStatus.k.healthy] *)
Definition unhealthy_at (k : string) (healthStatus : HealthStatus) : bool :=
  match JSObject.get k healthStatus with
  | Some r => negb (healthy r)
  | None => false
  end.

Definition memory_cleanup : AutoRepair :=
  {| repair_label := "Memory Cleanup";
     trigger := fun _ healthStatus => Normal (unhealthy_at "memory" healthStatus);
     repair := fun w =>
       let w := logger warn "🔧 Triggering memory cleanup due to high usage" None w in
       let w := if gc w
                then logger info "✅ Garbage collection completed" None (global_gc w)
                else w in
       let w := if (1000 <? List.length (performanceMetrics w))%nat
                then logger info "✅ Performance metrics cleaned up" None
                       (set_performanceMetrics
                          (JSArray.slice (-500) (performanceMetrics w)) w)
                else w in
       (Normal (VObj [("success", VBool true); ("action", VStr "memory_cleanup")]), w);
     cooldown := 300000 |}.

Definition response_optimization : AutoRepair :=
  {| repair_label := "Response Time Optimization";
     trigger := fun _ healthStatus => Normal (unhealthy_at "response_time" healthStatus);
     repair := fun w =>
       let w := logger warn "🔧 Optimizing response times due to slow performance" None w in
       let w := set_performanceMetrics (JSArray.slice (-100) (performanceMetrics w)) w in
       let w := logger warn
                  "⚠️ Response time degradation detected - monitoring for patterns" None w in
       (Normal (VObj [("success", VBool true); ("action", VStr "response_optimization")]), w);
     cooldown := 600000 |}.

(** What [errorsByEndpoint] holds under a name: a number, or the string
    that comes of adding 1 to something that is not a number. *)
Inductive Tally : Type :=
| Count (n : Z)
| Text (s : string).

Definition Tally_value (c : Tally) : Value :=
  match c with
  | Count n => VInt n
  | Text s => VStr s
  end.

(** [errorsByEndpoint[e] = (errorsByEndpoint[e] || 0) + 1].  The read finds
    an own property or, for a name of [Object.prototype], the inherited
    member, which is truthy and not a number: [+ 1] then appends "1" to its
    text.  0 and the empty string are falsy. *)
Definition count_endpoint (errorsByEndpoint : JSObject.t Tally) (e : Metric)
  : JSObject.t Tally :=
  let k := endpoint e in
  let next :=
    match JSObject.get k errorsByEndpoint with
    | Some (Count c) => Count ((if c =? 0 then 0 else c) + 1)
    | Some (Text s) => if String.eqb s "" then Count 1 else Text (s ++ "1")%string
    | None => if JSObject.inherited k
              then Text (JSObject.inherited_text k ++ "1")%string
              else Count 1
    end in
  JSObject.set k next errorsByEndpoint.

(** [this.logger.error('🚨 High error rate detected', { endpoint, error_count: count, ... })] *)
Definition high_error_entry (endpoint : string) (count : Z) : LogEntry :=
  {| level := error;
     text := "🚨 High error rate detected";
     meta := Some (VObj [("endpoint", VStr endpoint);
                         ("error_count", VInt count);
                         ("recommendation", VStr "Consider endpoint review")]) |}.

(** [if (count >= 3) this.logger.error(...)], the body of the loop over
    the entries of [errorsByEndpoint].  A string is compared through the
    number it denotes; the strings [count_endpoint] makes denote none
    (they start with "function" or "[object"), so the comparison fails. *)
Definition report_high (w : World) (entry : string * Tally) : World :=
  let '(endpoint, count) := entry in
  match count with
  | Count c => if 3 <=? c then emit (high_error_entry endpoint c) w else w
  | Text _ => w
  end.

Definition error_mitigation : AutoRepair :=
  {| repair_label := "Error Pattern Mitigation";
     trigger := fun _ healthStatus => Normal (unhealthy_at "error_rate" healthStatus);
     repair := fun w =>
       let w := logger warn "🔧 Analyzing error patterns for mitigation" None w in
       let recentErrors :=
         JSArray.slice (-20)
           (filter (fun metric => 400 <=? statusCode metric) (performanceMetrics w)) in
       let errorsByEndpoint := fold_left count_endpoint recentErrors JSObject.empty in
       let w := fold_left report_high (JSObject.entries errorsByEndpoint) w in
       (Normal (VObj [("success", VBool true); ("action", VStr "error_analysis");
                      ("patterns",
                       VObj (map (fun '(k, c) => (k, Tally_value c))
                                 (JSObject.entries errorsByEndpoint)))]), w);
     cooldown := 900000 |}.

(** [status && status.healthy === false &&
     this.healthChecks.get(status.component)?.critical] *)
Definition critical_issue (checks : JSMap.t HealthCheck) (status : Reading) : bool :=
  negb (healthy status) &&
  match component status with
  | Some c => match JSMap.get c checks with
              | Some hc => critical hc
              | None => false
              end
  | None => false
  end.

Definition stability_trigger (checks : JSMap.t HealthCheck) (healthStatus : HealthStatus)
  : Completion bool :=
  let criticalIssues := filter (critical_issue checks) (JSObject.values healthStatus) in
  Normal (2 <=? List.length criticalIssues)%nat.

Definition stability_check : AutoRepair :=
  {| repair_label := "System Stability Check";
     trigger := stability_trigger;
     repair := fun w =>
       let w := logger error
                  "🚨 Multiple critical issues detected - system stability at risk" None w in
       let stabilityReport :=
         VObj [("timestamp", VDate (now w));
               ("uptime", VNum (uptime w));
               ("memory_usage", MemoryUsage_value (memoryUsage w));
               ("recent_errors",
                VArr (map Metric_value
                        (JSArray.slice (-10)
                           (filter (fun m => 500 <=? statusCode m)
                                   (performanceMetrics w)))));
               ("recommendation",
                VStr "System restart may be required if issues persist")] in
       let w := logger error "📊 Stability Report" (Some stabilityReport) w in
       (Normal (VObj [("success", VBool true); ("action", VStr "stability_assessment");
                      ("report", stabilityReport)]), w);
     cooldown := 1800000 |}.

(** [this.autoRepairs.set(name, definition)] *)
Definition autoRepairs_set (name : string) (definition : AutoRepair) : M unit :=
  modify (fun s => set_autoRepairs (JSMap.set name definition (autoRepairs s)) s).

Definition setupAutoRepairs : M unit :=
  autoRepairs_set "memory_cleanup" memory_cleanup ;;
  autoRepairs_set "response_optimization" response_optimization ;;
  autoRepairs_set "error_mitigation" error_mitigation ;;
  autoRepairs_set "stability_check" stability_check.

(** ** Regular expressions of [extractErrorPattern]

    Strings are sequences of code units below 256, one [ascii] each.  The
    matcher is the backtracking one of the language: alternatives are tried
    in order, [+] is greedy, and the first success is the match. *)

Module RegExp.

Inductive t : Type :=
| Empty                                   (* matches the empty string *)
| Chr (c : ascii)                         (* one given character *)
| Class (p : ascii -> bool)               (* one character of a class *)
| Plus (p : ascii -> bool)                (* [class+], greedy *)
| Times (n : nat) (p : ascii -> bool)     (* [class{n}] *)
| Seq (r1 r2 : t)
| WordBoundary.                           (* [\b] *)

Definition seq_of (rs : list t) : t := fold_right Seq Empty rs.

Definition code (c : ascii) : nat := nat_of_ascii c.
Definition between (lo hi : nat) (c : ascii) : bool :=
  ((lo <=? code c) && (code c <=? hi))%nat.

(** [\d] *)
Definition digit (c : ascii) : bool := between 48 57 c.
(** [\w] *)
Definition word (c : ascii) : bool :=
  between 97 122 c || between 65 90 c || digit c || (code c =? 95)%nat.
(** [\s], on code units below 256: tab, line feed, vertical tab, form
    feed, carriage return, space, no-break space *)
Definition space (c : ascii) : bool :=
  between 9 13 c || (code c =? 32)%nat || (code c =? 160)%nat.
(** [[^\s]] *)
Definition non_space (c : ascii) : bool := negb (space c).
(** [[a-f0-9]] under the [i] flag *)
Definition hex (c : ascii) : bool :=
  between 97 102 c || between 65 70 c || digit c.
(** [[\w.-]] *)
Definition word_dot_dash (c : ascii) : bool :=
  word c || (code c =? 46)%nat || (code c =? 45)%nat.

Definition is_word (c : option ascii) : bool :=
  match c with Some c => word c | None => false end.

(** A continuation receives the last character consumed so far and the
    rest of the input, and answers with what is left after the whole
    match, if there is one. *)
Definition cont : Type := option ascii -> list ascii -> option (list ascii).

Fixpoint star (p : ascii -> bool) (prev : option ascii) (input : list ascii) (k : cont)
  : option (list ascii) :=
  match input with
  | c :: rest =>
      if p c then
        match star p (Some c) rest k with
        | Some r => Some r
        | None => k prev input
        end
      else k prev input
  | [] => k prev input
  end.

Fixpoint times (n : nat) (p : ascii -> bool) (prev : option ascii) (input : list ascii)
  (k : cont) : option (list ascii) :=
  match n with
  | O => k prev input
  | S n' =>
      match input with
      | c :: rest => if p c then times n' p (Some c) rest k else None
      | [] => None
      end
  end.

Fixpoint run (r : t) (prev : option ascii) (input : list ascii) (k : cont)
  : option (list ascii) :=
  match r with
  | Empty => k prev input
  | Chr c =>
      match input with
      | x :: rest => if Ascii.eqb x c then k (Some x) rest else None
      | [] => None
      end
  | Class p =>
      match input with
      | x :: rest => if p x then k (Some x) rest else None
      | [] => None
      end
  | Plus p =>
      match input with
      | x :: rest => if p x then star p (Some x) rest k else None
      | [] => None
      end
  | Times n p => times n p prev input k
  | Seq r1 r2 => run r1 prev input (fun prev' input' => run r2 prev' input' k)
  | WordBoundary =>
      if xorb (is_word prev) (is_word (hd_error input)) then k prev input else None
  end.

(** The match starting exactly here: what is left of the input after it. *)
Definition match_here (r : t) (prev : option ascii) (input : list ascii)
  : option (list ascii) :=
  run r prev input (fun _ rest => Some rest).

(** [input.replace(/r/g, by)].  [skip] counts the characters of the
    current match still to be dropped; an empty match inserts [by] and
    moves on by one character. *)
Fixpoint replace_from (r : t) (by_ : list ascii) (prev : option ascii)
  (input : list ascii) (skip : nat) : list ascii :=
  match input with
  | [] =>
      match skip, match_here r prev [] with
      | O, Some _ => by_
      | _, _ => []
      end
  | c :: rest =>
      match skip with
      | S skip' => replace_from r by_ (Some c) rest skip'
      | O =>
          match match_here r prev input with
          | Some remaining =>
              match (List.length input - List.length remaining)%nat with
              | O => by_ ++ c :: replace_from r by_ (Some c) rest 0
              | S n => by_ ++ replace_from r by_ (Some c) rest n
              end
          | None => c :: replace_from r by_ (Some c) rest 0
          end
      end
  end.

Definition replace_all (r : t) (by_ : string) (input : string) : string :=
  string_of_list_ascii
    (replace_from r (list_ascii_of_string by_) None (list_ascii_of_string input) 0).

End RegExp.

(** [/\d+/g] *)
Definition re_number : RegExp.t := RegExp.Plus RegExp.digit.

(** [/\/[^\s]+/g] *)
Definition re_path : RegExp.t :=
  RegExp.seq_of [RegExp.Chr "/"; RegExp.Plus RegExp.non_space].

(** [/[a-f0-9]{8}-[a-f0-9]{4}-[a-f0-9]{4}-[a-f0-9]{4}-[a-f0-9]{12}/gi] *)
Definition re_uuid : RegExp.t :=
  RegExp.seq_of
    [RegExp.Times 8 RegExp.hex; RegExp.Chr "-";
     RegExp.Times 4 RegExp.hex; RegExp.Chr "-";
     RegExp.Times 4 RegExp.hex; RegExp.Chr "-";
     RegExp.Times 4 RegExp.hex; RegExp.Chr "-";
     RegExp.Times 12 RegExp.hex].

(** [/\b\w+@[\w.-]+\.\w+\b/g] *)
Definition re_email : RegExp.t :=
  RegExp.seq_of
    [RegExp.WordBoundary; RegExp.Plus RegExp.word; RegExp.Chr "@";
     RegExp.Plus RegExp.word_dot_dash; RegExp.Chr "."; RegExp.Plus RegExp.word;
     RegExp.WordBoundary].

Definition extractErrorPattern (errorMessage : string) : string :=
  String.substring 0 200
    (RegExp.replace_all re_email "EMAIL"
       (RegExp.replace_all re_uuid "UUID"
          (RegExp.replace_all re_path "PATH"
             (RegExp.replace_all re_number "NUMBER" errorMessage)))).

(** ** Methods of [SelfHealingSystem] *)

(** [new SelfHealingSystem(app, logger)] in a given process. *)
Definition construct (w : World) : Sys :=
  {| world := set_performanceMetrics [] w;
     healthChecks := JSMap.empty;
     autoRepairs := JSMap.empty;
     errorPatterns := JSMap.empty;
     isMonitoring := false;
     healingAttempts := JSMap.empty;
     timers := [];
     invoked := [] |}.

(** [lastAttempt && Date.now() - lastAttempt < cooldown]: an absent entry
    and the number 0 are both falsy. *)
Definition in_cooldown (lastAttempt : option Z) (t cooldown : Z) : bool :=
  match lastAttempt with
  | Some t0 => negb (t0 =? 0) && (t - t0 <? cooldown)
  | None => false
  end.

(** [await repair.repair()] *)
Definition run_repair (repairName : string) (r : AutoRepair) : M Value :=
  modify (note_invoked repairName) ;;
  in_world (repair r).

(** The body of the loop of [triggerHealing] for one entry of
    [autoRepairs]; [continue] is the end of the body. *)
Definition heal_one (healthStatus : HealthStatus) (entry : string * AutoRepair) : M unit :=
  let (repairName, repair) := entry in
  try_catch
    (checks <- gets healthChecks ;;
     fires <- complete (trigger repair checks healthStatus) ;;
     if negb fires then ret tt
     else
       lastAttempt <- gets (fun s => JSMap.get repairName (healingAttempts s)) ;;
       t <- Date_now ;;
       if in_cooldown lastAttempt t (cooldown repair) then
         log debug ("⏳ Repair " ++ repairName ++ " in cooldown period")%string None
       else
         log info ("🔧 Triggering repair: " ++ repair_label repair)%string None ;;
         result <- run_repair repairName repair ;;
         t' <- Date_now ;;
         modify (fun s => set_healingAttempts
                            (JSMap.set repairName t' (healingAttempts s)) s) ;;
         log info ("✅ Repair completed: " ++ repair_label repair)%string (Some result))
    (fun caught =>
       data <- complete (error_meta caught) ;;
       log error ("❌ Repair failed: " ++ repair_label repair)%string (Some data)).

Definition triggerHealing (healthStatus : HealthStatus) : M unit :=
  repairs <- gets autoRepairs ;;
  for_of (JSMap.entries repairs) (heal_one healthStatus).

(** [result.component = name] *)
Definition with_component (name : string) (r : Reading) : Reading :=
  {| healthy := healthy r; component := Some name; props := props r |}.

(** The callback [startMonitoring] hands to [setInterval] for one check. *)
Definition poll (name : string) (c : HealthCheck) : M unit :=
  try_catch
    (w <- gets world ;;
     result <- complete (check c w) ;;
     let result := with_component name result in
     if negb (healthy result) then
       log warn ("⚠️ Health check failed: " ++ check_label c)%string
           (Some (Reading_value result)) ;;
       triggerHealing (JSObject.singleton name result)
     else
       log debug ("✅ Health check passed: " ++ check_label c)%string None)
    (fun caught =>
       data <- complete (error_meta caught) ;;
       log error ("❌ Health check error: " ++ check_label c)%string (Some data)).

Definition shouldOptimizeMemory (w : World) : bool :=
  Float64.gtb (heapUsedPercent (memoryUsage w)) (Float64.of_Z 75).

(** One firing of a timer. *)
Definition fire (c : Callback) : M unit :=
  match c with
  | PollCheck name hc => poll name hc
  | CleanMetrics =>
      w <- gets world ;;
      if (2000 <? List.length (performanceMetrics w))%nat then
        modify (fun s => set_world
                  (set_performanceMetrics
                     (JSArray.slice (-1000) (performanceMetrics (world s))) (world s)) s) ;;
        log info "🧹 Performance metrics auto-cleaned" None
      else ret tt
  | OptimizeMemory =>
      w <- gets world ;;
      if shouldOptimizeMemory w then
        modify (fun s => set_world (global_gc (world s)) s) ;;
        log debug "🧹 V8 memory optimization completed" None
      else ret tt
  end.

Definition setInterval (c : Callback) (ms : Z) : M unit :=
  modify (add_timer {| callback := c; period := ms |}).

Definition startMonitoring : M unit :=
  monitoring <- gets isMonitoring ;;
  if monitoring then ret tt
  else
    modify (set_isMonitoring true) ;;
    checks <- gets healthChecks ;;
    for_of (JSMap.entries checks)
           (fun '(name, c) => setInterval (PollCheck name c) (interval c)) ;;
    setInterval CleanMetrics 600000 ;;
    log info "🔍 Continuous monitoring started" None.

(** [analyzeError]: the entry of the pattern is created if absent and then
    updated in place. *)
Definition analyzeError (errorMessage : string) : M unit :=
  let errorKey := extractErrorPattern errorMessage in
  known <- gets (fun s => JSMap.has errorKey (errorPatterns s)) ;;
  t <- Date_now ;;
  (if negb known then
     modify (fun s => set_errorPatterns
               (JSMap.set errorKey
                  {| count := 0; first_seen := t; last_seen := t; messages := [] |}
                  (errorPatterns s)) s)
   else ret tt) ;;
  found <- gets (fun s => JSMap.get errorKey (errorPatterns s)) ;;
  match found with
  | None => ret tt
  | Some pattern =>
      let pushed := messages pattern ++ [(errorMessage, t)] in
      let pattern :=
        {| count := count pattern + 1;
           first_seen := first_seen pattern;
           last_seen := t;
           messages := if (10 <? List.length pushed)%nat
                       then JSArray.slice (-10) pushed else pushed |} in
      modify (fun s => set_errorPatterns
                (JSMap.set errorKey pattern (errorPatterns s)) s) ;;
      if 5 <=? count pattern then
        log warn "🔄 Recurring error pattern detected"
            (Some (VObj [("pattern", VStr errorKey);
                         ("count", VInt (count pattern));
                         ("first_seen", VDate (first_seen pattern));
                         ("recommendation", VStr "Investigation recommended")]))
      else ret tt
  end.

(** [setupErrorDetection] installs its three hooks on [console] and
    [process]; the state of the system object does not change. *)
Definition setupErrorDetection : M unit := ret tt.

Definition initialize : M unit :=
  log info "🔧 Initializing Self-Healing System V10·PERFECTION V8+ ENHANCED" None ;;
  w <- gets world ;;
  (if gc w then
     log info "🚀 V8 garbage collection available - enabling periodic optimization" None ;;
     setInterval OptimizeMemory 300000
   else ret tt) ;;
  setupHealthChecks ;;
  setupAutoRepairs ;;
  startMonitoring ;;
  setupErrorDetection ;;
  setupV8Monitoring ;;
  log info "✅ Self-Healing System V8+ initialized and active" None.

Definition recordMetric (endpoint : string) (responseTime : Float64.t) (statusCode : Z)
  : M unit :=
  t <- Date_now ;;
  modify (fun s => set_world
            (set_performanceMetrics
               (performanceMetrics (world s) ++
                [{| endpoint := endpoint; responseTime := responseTime;
                    statusCode := statusCode; timestamp := t |}])
               (world s)) s).

(** The reading [getHealthStatus] stores for a check that threw:
    [{ healthy: false, error: error.message, timestamp }]. *)
Definition failed_reading (msg : Value) (t : Z) : Reading :=
  {| healthy := false; component := None;
     props := [("error", msg); ("timestamp", VDate t)] |}.

Fixpoint getHealthStatus_loop (checks : list (string * HealthCheck))
  (healthStatus : HealthStatus) : M HealthStatus :=
  match checks with
  | [] => ret healthStatus
  | (name, c) :: checks' =>
      reading <- try_catch
                   (w <- gets world ;; complete (check c w))
                   (fun caught =>
                      msg <- complete (error_message caught) ;;
                      t <- Date_now ;;
                      ret (failed_reading msg t)) ;;
      getHealthStatus_loop checks' (JSObject.set name reading healthStatus)
  end.

Definition getHealthStatus : M HealthStatus :=
  checks <- gets healthChecks ;;
  getHealthStatus_loop (JSMap.entries checks) JSObject.empty.

(** [a.sort(compare)]: the sort is stable, and [compare x y <= 0] keeps [x]
    before [y]. *)
Section Sort.
Context {A : Type} (compare : A -> A -> Z).

Fixpoint insert_sorted (x : A) (l : list A) : list A :=
  match l with
  | [] => [x]
  | y :: l' => if compare x y <=? 0 then x :: l else y :: insert_sorted x l'
  end.

Definition sort (l : list A) : list A := fold_right insert_sorted [] l.

End Sort.

Record PatternSummary : Type := {
  pattern : string;
  pattern_count : Z;                          (* count *)
  pattern_first_seen : Z;                     (* first_seen *)
  pattern_last_seen : Z;                      (* last_seen *)
  recent_messages : list (string * Z)
}.

Definition getErrorPatterns : M (list PatternSummary) :=
  table <- gets errorPatterns ;;
  let patterns :=
    map (fun '(key, data) =>
           {| pattern := key;
              pattern_count := count data;
              pattern_first_seen := first_seen data;
              pattern_last_seen := last_seen data;
              recent_messages := JSArray.slice (-3) (messages data) |})
        (JSMap.entries table) in
  ret (sort (fun a b => pattern_count b - pattern_count a) patterns).

Record HistoryEntry : Type := {
  repair_name : string;
  repair_description : string;
  last_attempt : Z;
  cooldown_remaining : Z
}.

(** [repair?.name || repairName]: the empty string is falsy. *)
Definition description_of (repair : option AutoRepair) (repairName : string) : string :=
  match repair with
  | Some r => if String.eqb (repair_label r) "" then repairName else repair_label r
  | None => repairName
  end.

(** [repair?.cooldown || 0] *)
Definition cooldown_of (repair : option AutoRepair) : Z :=
  match repair with
  | Some r => cooldown r
  | None => 0
  end.

Definition getHealingHistory : M (list HistoryEntry) :=
  attempts <- gets healingAttempts ;;
  repairs <- gets autoRepairs ;;
  t <- Date_now ;;
  let history :=
    map (fun '(repairName, stamp) =>
           let repair := JSMap.get repairName repairs in
           {| repair_name := repairName;
              repair_description := description_of repair repairName;
              last_attempt := stamp;
              cooldown_remaining := Z.max 0 ((stamp + cooldown_of repair) - t) |})
        (JSMap.entries attempts) in
  ret (sort (fun a b => last_attempt b - last_attempt a) history).

(** * Vocabulary of the properties

    The notions the properties are stated with, and the sample processes
    and systems on which they are tried. *)

(** ** Time and executions *)

(** The environment moves the clock. *)
Definition at_time (t : Z) (s : Sys) : Sys := set_world (set_now t (world s)) s.

(** Number of times the action registered under [k] has been called. *)
Definition executions (k : string) (s : Sys) : nat :=
  count_occ string_dec (invoked s) k.

(** The state after the timers have fired with the given callbacks, one
    after the other. *)
Definition fire_all (callbacks : list Callback) (s : Sys) : Sys :=
  fold_left (fun s c => snd (fire c s)) callbacks s.

(** The clock does not run backwards while an action runs. *)
Definition clock_monotone (r : AutoRepair) : Prop :=
  forall w, now w <= now (snd (repair r w)).

(** The registry [setupAutoRepairs] builds. *)
Definition registered_repairs : JSMap.t AutoRepair :=
  [("memory_cleanup", memory_cleanup);
   ("response_optimization", response_optimization);
   ("error_mitigation", error_mitigation);
   ("stability_check", stability_check)].

(** ** One pass of [triggerHealing] *)

Definition log_to (l : Level) (msg : string) (data : option Value) (s : Sys) : Sys :=
  set_world (logger l msg data (world s)) s.

(** The world in which the action of a repair starts: the one of the
    system, after the line that announces the repair. *)
Definition announced (r : AutoRepair) (s : Sys) : World :=
  logger info ("🔧 Triggering repair: " ++ repair_label r)%string None (world s).

(** What the handlers log for an [Error] object. *)
Definition Error_value (e : Error) : Value :=
  VObj [("error", VStr (message e)); ("stack", VStr (stack e))].

(** The ways the loop body of [triggerHealing] can go for the repair [r]
    registered under [k], from state [s] to state [s'].  In the two steps
    called aborted the handler itself throws, and the loop ends there. *)
Inductive HealStep (healthStatus : HealthStatus) (k : string) (r : AutoRepair)
  (s : Sys) : Sys -> Prop :=
| heal_idle :
    trigger r (healthChecks s) healthStatus = Normal false ->
    HealStep healthStatus k r s s
| heal_trigger_threw x data :
    trigger r (healthChecks s) healthStatus = Throw x ->
    error_meta x = Normal data ->
    HealStep healthStatus k r s
      (log_to error ("❌ Repair failed: " ++ repair_label r)%string (Some data) s)
| heal_trigger_aborted x x' :
    trigger r (healthChecks s) healthStatus = Throw x ->
    error_meta x = Throw x' ->
    HealStep healthStatus k r s s
| heal_cooling :
    trigger r (healthChecks s) healthStatus = Normal true ->
    in_cooldown (JSMap.get k (healingAttempts s)) (now (world s)) (cooldown r) = true ->
    HealStep healthStatus k r s
      (log_to debug ("⏳ Repair " ++ k ++ " in cooldown period")%string None s)
| heal_done result w' :
    trigger r (healthChecks s) healthStatus = Normal true ->
    in_cooldown (JSMap.get k (healingAttempts s)) (now (world s)) (cooldown r) = false ->
    repair r (announced r s) = (Normal result, w') ->
    HealStep healthStatus k r s
      (log_to info ("✅ Repair completed: " ++ repair_label r)%string (Some result)
         (set_healingAttempts (JSMap.set k (now w') (healingAttempts s))
            (set_world w' (note_invoked k s))))
| heal_failed x data w' :
    trigger r (healthChecks s) healthStatus = Normal true ->
    in_cooldown (JSMap.get k (healingAttempts s)) (now (world s)) (cooldown r) = false ->
    repair r (announced r s) = (Throw x, w') ->
    error_meta x = Normal data ->
    HealStep healthStatus k r s
      (log_to error ("❌ Repair failed: " ++ repair_label r)%string (Some data)
         (set_world w' (note_invoked k s)))
| heal_aborted x x' w' :
    trigger r (healthChecks s) healthStatus = Normal true ->
    in_cooldown (JSMap.get k (healingAttempts s)) (now (world s)) (cooldown r) = false ->
    repair r (announced r s) = (Throw x, w') ->
    error_meta x = Throw x' ->
    HealStep healthStatus k r s (set_world w' (note_invoked k s)).

(** How the loop body ends: normally, or with the [TypeError] of its
    handler when the trigger or the action threw [null] or [undefined]. *)
Definition heal_outcome (healthStatus : HealthStatus) (k : string) (r : AutoRepair)
  (s : Sys) (c : Completion unit) : Prop :=
  c = Normal tt \/
  exists v, nullish v = true /\
            c = Throw (Thrown_error (cannot_read "message" v)) /\
            (trigger r (healthChecks s) healthStatus = Throw (Thrown_value v) \/
             exists w', repair r (announced r s) = (Throw (Thrown_value v), w')).

(** The state in which a pass over some entries of the registry stops and
    how it ends there: normally after the last entry, or with what a
    handler threw. *)
Definition pass (healthStatus : HealthStatus) (entries : list (string * AutoRepair))
  : M unit :=
  for_of entries (heal_one healthStatus).

(** Neither the trigger nor the action of the repair throws [null] or
    [undefined]. *)
Definition never_throws_nullish (r : AutoRepair) : Prop :=
  (forall checks healthStatus v,
      trigger r checks healthStatus = Throw (Thrown_value v) -> nullish v = false) /\
  (forall w v, fst (repair r w) = Throw (Thrown_value v) -> nullish v = false).

(** The check does not throw [null] or [undefined] in the world [w]. *)
Definition check_contained (c : HealthCheck) (w : World) : Prop :=
  forall v, check c w = Throw (Thrown_value v) -> nullish v = false.

(** The state after the loop over some entries of the registry (the state
    in which it stops, if a handler throws). *)
Definition heal_all (healthStatus : HealthStatus) (entries : list (string * AutoRepair))
  (s : Sys) : Sys :=
  snd (for_of entries (heal_one healthStatus) s).

(** A firing of a polling timer, from the state it ends in: the check
    returned a healthy reading; or an unhealthy one, and the pass of
    [triggerHealing] returned or threw; or the check threw. *)
Inductive PollStep (name : string) (c : HealthCheck) (s : Sys)
  : Completion unit -> Sys -> Prop :=
| poll_healthy reading :
    check c (world s) = Normal reading -> healthy reading = true ->
    PollStep name c s (Normal tt)
      (log_to debug ("✅ Health check passed: " ++ check_label c)%string None s)
| poll_healed reading s' :
    check c (world s) = Normal reading -> healthy reading = false ->
    triggerHealing (JSObject.singleton name (with_component name reading))
      (log_to warn ("⚠️ Health check failed: " ++ check_label c)%string
              (Some (Reading_value (with_component name reading))) s)
    = (Normal tt, s') ->
    PollStep name c s (Normal tt) s'
| poll_healing_threw reading e s' :
    check c (world s) = Normal reading -> healthy reading = false ->
    triggerHealing (JSObject.singleton name (with_component name reading))
      (log_to warn ("⚠️ Health check failed: " ++ check_label c)%string
              (Some (Reading_value (with_component name reading))) s)
    = (Throw (Thrown_error e), s') ->
    PollStep name c s (Normal tt)
      (log_to error ("❌ Health check error: " ++ check_label c)%string
              (Some (Error_value e)) s')
| poll_check_threw x data :
    check c (world s) = Throw x -> error_meta x = Normal data ->
    PollStep name c s (Normal tt)
      (log_to error ("❌ Health check error: " ++ check_label c)%string (Some data) s)
| poll_aborted v :
    check c (world s) = Throw (Thrown_value v) -> nullish v = true ->
    PollStep name c s (Throw (Thrown_error (cannot_read "message" v))) s.

(** What successive passes over a registry share when the repair [r], under
    [k], is to run: a registry with distinct keys that holds [r] under [k];
    a snapshot on which [r] triggers; an action of [r] that returns
    normally; a clock that no action turns back; no repair that throws
    [null] or [undefined]. *)
Record Due (healthStatus : HealthStatus) (k : string) (r : AutoRepair)
  (s : Sys) : Prop := {
  due_wf : JSMap.wf (autoRepairs s);
  due_registered : JSMap.get k (autoRepairs s) = Some r;
  due_triggers : trigger r (healthChecks s) healthStatus = Normal true;
  due_succeeds : forall w, exists result, fst (repair r w) = Normal result;
  due_clock : forall k' r', In (k', r') (autoRepairs s) -> clock_monotone r';
  due_contained : forall k' r', In (k', r') (autoRepairs s) -> never_throws_nullish r'
}.

(** ** Error samples and error patterns *)

(** The last [n] elements of a list (all of them if there are fewer). *)
Definition last_n {A : Type} (n : nat) (l : list A) : list A :=
  rev (firstn n (rev l)).

(** The last 20 error samples (status >= 400) of a process. *)
Definition recentErrors (w : World) : list Metric :=
  last_n 20 (filter (fun metric => 400 <=? statusCode metric) (performanceMetrics w)).

(** How often an endpoint occurs among given samples. *)
Definition occurrences (e : string) (l : list Metric) : Z :=
  Z.of_nat (count_occ string_dec (map endpoint l) e).




(** What [analyzeError] does to the entry of a pattern at time [t]. *)
Definition observe (errorMessage : string) (t : Z) (old : option ErrorPattern)
  : ErrorPattern :=
  let p := match old with
           | Some p => p
           | None => {| count := 0; first_seen := t; last_seen := t; messages := [] |}
           end in
  let pushed := messages p ++ [(errorMessage, t)] in
  {| count := count p + 1;
     first_seen := first_seen p;
     last_seen := t;
     messages := if (10 <? List.length pushed)%nat
                 then JSArray.slice (-10) pushed else pushed |}.

(** The entry [getHealthStatus] stores for a check: its reading, or the
    failure record if it threw something with a message to read. *)
Definition entry_of (c : HealthCheck) (w : World) : Completion Reading :=
  match check c w with
  | Normal r => Normal r
  | Throw x =>
      match error_message x with
      | Normal msg => Normal (failed_reading msg (now w))
      | Throw x' => Throw x'
      end
  end.

(** The entry of a check that does not throw [null] or [undefined]. *)
Definition the_entry (c : HealthCheck) (w : World) : Reading :=
  match entry_of c w with
  | Normal r => r
  | Throw _ => failed_reading VUndefined (now w)
  end.

(** The object that holds given readings, assigned in order. *)
Definition collect (readings : list (string * Reading)) (acc : HealthStatus)
  : HealthStatus :=
  fold_left (fun o nr => JSObject.set (fst nr) (snd nr) o) readings acc.

(** ** Binary64 *)

(** Nothing has been shifted out of a mantissa so far. *)
Definition lossless (mrs : shr_record) : Prop :=
  shr_r mrs = false /\ shr_s mrs = false.

(** The double nearest to 0.85 is [m85 * 2^(-53)], just below 0.85. *)
Definition m85 : Z := 7656119366529843.

(** The mantissas of the doubles 100 and 85, both at exponent -46. *)
Definition m100 : positive := 7036874417766400.
Definition m85f : positive := 5981343255101440.

(** ** Sample processes and systems *)

Definition sample (e : string) (code : Z) : Metric :=
  {| endpoint := e; responseTime := Float64.of_Z 12; statusCode := code; timestamp := 0 |}.

(** A process with a heap of [total] bytes of which [used] are in use. *)
Definition with_heap (used total : Z) : World :=
  {| performanceMetrics := [];
     logged := [];
     now := 1700000000000;
     memoryUsage := {| rss := total; heapTotal := total; heapUsed := used;
                       external := 0 |};
     uptime := Float64.of_Z 3600;
     heapStatistics := VObj [];
     gc := false;
     gcRuns := 0 |}.

(** A process whose heap is half full, without [global.gc]. *)
Definition quiet_world : World := with_heap 10000000 20000000.

(** A process whose heap is 90 % full, with [global.gc]. *)
Definition hot_world : World :=
  {| performanceMetrics := [];
     logged := [];
     now := 1700000000000;
     memoryUsage := {| rss := 90000000; heapTotal := 50000000;
                       heapUsed := 45000000; external := 1000000 |};
     uptime := Float64.of_Z 3600;
     heapStatistics := VObj [];
     gc := true;
     gcRuns := 0 |}.

(** The system after [initialize], in the second process. *)
Definition hot_system : Sys := snd (initialize (construct hot_world)).

(** ... and after the polling timer of the memory check has fired once. *)
Definition after_memory_cleanup : Sys :=
  snd (fire (PollCheck "memory" memory_check) hot_system).

(** The [healthy] flag the memory check returns for given sizes. *)
Definition memory_healthy (used total : Z) : option bool :=
  match check memory_check (with_heap used total) with
  | Normal reading => Some (healthy reading)
  | Throw _ => None
  end.

(** Seven samples, five of them errors: three on "/api/x" and two on
    "/api/y". *)
Definition five_errors : World :=
  set_performanceMetrics
    [sample "/api/x" 500; sample "/api/ok" 200; sample "/api/y" 404;
     sample "/api/x" 503; sample "/api/y" 400; sample "/api/ok" 204;
     sample "/api/x" 500]
    quiet_world.

(** Twenty-five error samples and two successes.  The five oldest errors
    lie before the last 20; among the last 20, "/api/x" occurs 3 times,
    "/api/y" twice and "/api/w" 4 times. *)
Definition many_errors : World :=
  set_performanceMetrics
    [sample "/api/old" 500; sample "/api/old" 500; sample "/api/old" 500;
     sample "/api/y" 404; sample "/api/x" 500;
     sample "/api/ok" 200;
     sample "/api/x" 500; sample "/api/y" 404; sample "/api/w" 500;
     sample "/api/a" 500; sample "/api/a" 502; sample "/api/w" 500;
     sample "/api/b" 400; sample "/api/b" 401; sample "/api/x" 503;
     sample "/api/c" 500; sample "/api/c" 500; sample "/api/w" 500;
     sample "/api/ok" 204;
     sample "/api/d" 500; sample "/api/d" 500; sample "/api/y" 400;
     sample "/api/e" 500; sample "/api/e" 500; sample "/api/w" 429;
     sample "/api/x" 500; sample "/api/z" 500]
    quiet_world.

(** Eight error samples: three on "/api/x", two on "/api/y" and three on an
    endpoint named "constructor". *)
Definition inherited_errors : World :=
  set_performanceMetrics
    [sample "/api/x" 500; sample "constructor" 500; sample "/api/y" 404;
     sample "/api/x" 503; sample "constructor" 500; sample "/api/y" 400;
     sample "constructor" 500; sample "/api/x" 500]
    quiet_world.

(** A check whose function throws, and a registry that holds it. *)
Definition broken_check : HealthCheck :=
  {| check_label := "Broken";
     check := fun _ => Throw (Thrown_error {| message := "probe failed"; stack := "" |});
     interval := 1000;
     critical := false |}.

Definition with_broken_check : Sys :=
  snd ((setupHealthChecks ;; healthChecks_set "broken" broken_check ;; setupV8Monitoring)
         (construct quiet_world)).

(** A check whose promise is rejected with [null], and a registry that
    holds it. *)
Definition rejecting_check : HealthCheck :=
  {| check_label := "Rejecting";
     check := fun _ => Throw (Thrown_value VNull);
     interval := 1000;
     critical := false |}.

Definition with_rejecting_check : Sys :=
  snd ((setupHealthChecks ;; healthChecks_set "rejecting" rejecting_check)
         (construct quiet_world)).

(** A check whose promise is rejected without a reason ([Promise.reject()]),
    and a registry that holds it. *)
Definition unexplained_check : HealthCheck :=
  {| check_label := "Unexplained";
     check := fun _ => Throw (Thrown_value VUndefined);
     interval := 1000;
     critical := false |}.

Definition with_unexplained_check : Sys :=
  snd ((healthChecks_set "unexplained" unexplained_check ;; setupHealthChecks)
         (construct quiet_world)).


Definition with_numbered_checks : Sys :=
  snd ((healthChecks_set "10" memory_check ;;
        healthChecks_set "server" server_check ;;
        healthChecks_set "9" memory_check)
         (construct quiet_world)).

(** A repair that fires on every snapshot and whose action always throws. *)
Definition failing_repair : AutoRepair :=
  {| repair_label := "Flaky";
     trigger := fun _ _ => Normal true;
     repair := fun w => (Throw (Thrown_error {| message := "cannot repair"; stack := "" |}), w);
     cooldown := 60000 |}.

(** The system with [failing_repair] registered between two of its own. *)
Definition flaky_system : Sys :=
  snd ((autoRepairs_set "memory_cleanup" memory_cleanup ;;
        autoRepairs_set "flaky" failing_repair ;;
        autoRepairs_set "response_optimization" response_optimization)
         (construct hot_world)).

(** The snapshot the polling loop builds for an unhealthy memory check. *)
Definition memory_unhealthy : HealthStatus :=
  JSObject.singleton "memory"
    {| healthy := false; component := Some "memory"; props := [] |}.

(** A snapshot on which two checks are unhealthy. *)
Definition all_unhealthy : HealthStatus :=
  JSObject.set "response_time"
    {| healthy := false; component := Some "response_time"; props := [] |}
    memory_unhealthy.

(** ** The exported entry point and the timers *)

Definition registered_health_checks : JSMap.t HealthCheck :=
  [("server", server_check); ("memory", memory_check);
   ("response_time", response_time_check); ("error_rate", error_rate_check);
   ("v8_performance", v8_performance_check)].

(** [module.exports.initialize(app, logger)]: the system it returns. *)
Definition exports_initialize (w : World) : Completion Sys :=
  match initialize (construct w) with
  | (Normal _, healingSystem) => Normal healingSystem
  | (Throw x, _) => Throw x
  end.

(** The timer [startMonitoring] starts for a registered check. *)
Definition polling_timer (nc : string * HealthCheck) : Timer :=
  {| callback := PollCheck (fst nc) (snd nc); period := interval (snd nc) |}.

(** The system with some timers more. *)
Definition add_timers (ts : list Timer) (s : Sys) : Sys :=
  {| world := world s; healthChecks := healthChecks s; autoRepairs := autoRepairs s;
     errorPatterns := errorPatterns s; isMonitoring := isMonitoring s;
     healingAttempts := healingAttempts s; timers := timers s ++ ts;
     invoked := invoked s |}.

(** ** Error messages and their patterns *)

(** The system after a sequence of error messages has been analyzed, each
    at its time. *)
Definition analyze_all (events : list (string * Z)) (s : Sys) : Sys :=
  fold_left (fun s e => snd (analyzeError (fst e) (at_time (snd e) s))) events s.

(** The events whose message has the pattern [key]. *)
Definition matching (key : string) (events : list (string * Z)) : list (string * Z) :=
  filter (fun e => String.eqb (extractErrorPattern (fst e)) key) events.

(** The line [analyzeError] logs for a recurring pattern. *)
Definition recurring_entry (key : string) (n first : Z) : LogEntry :=
  {| level := warn;
     text := "🔄 Recurring error pattern detected";
     meta := Some (VObj [("pattern", VStr key);
                         ("count", VInt n);
                         ("first_seen", VDate first);
                         ("recommendation", VStr "Investigation recommended")]) |}.

(** What the table holds under a key after a run from an empty table. *)
Definition summarizes (p : ErrorPattern) (ms : list (string * Z)) : Prop :=
  count p = Z.of_nat (List.length ms) /\
  Some (first_seen p) = option_map snd (hd_error ms) /\
  Some (last_seen p) = option_map snd (hd_error (rev ms)) /\
  messages p = JSArray.slice (-10) ms.

(** The summary [getErrorPatterns] builds for an entry of the table. *)
Definition summary_of (entry : string * ErrorPattern) : PatternSummary :=
  {| pattern := fst entry;
     pattern_count := count (snd entry);
     pattern_first_seen := first_seen (snd entry);
     pattern_last_seen := last_seen (snd entry);
     recent_messages := JSArray.slice (-3) (messages (snd entry)) |}.

(** The comparison [(a, b) => key(b) - key(a)]: greater keys first. *)
Definition descending {A : Type} (key : A -> Z) (a b : A) : Z := key b - key a.

(** A message with every maximal run of digits replaced by [by_].
    [in_number] tells whether the character before was a digit. *)
Fixpoint mask_numbers (by_ : list ascii) (in_number : bool) (input : list ascii)
  : list ascii :=
  match input with
  | [] => []
  | c :: rest =>
      if RegExp.digit c then
        (if in_number then [] else by_) ++ mask_numbers by_ true rest
      else c :: mask_numbers by_ false rest
  end.

(** The input without its leading digits, and their number. *)
Fixpoint drop_digits (input : list ascii) : list ascii :=
  match input with
  | c :: rest => if RegExp.digit c then drop_digits rest else input
  | [] => []
  end.

Fixpoint leading_digits (input : list ascii) : nat :=
  match input with
  | c :: rest => if RegExp.digit c then S (leading_digits rest) else O
  | [] => O
  end.

(** Two messages that differ only in the digits of their numbers. *)
Inductive same_but_numbers : list ascii -> list ascii -> Prop :=
| sbn_end : same_but_numbers [] []
| sbn_char c l1 l2 :
    RegExp.digit c = false ->
    same_but_numbers l1 l2 ->
    same_but_numbers (c :: l1) (c :: l2)
| sbn_number d1 d2 l1 l2 :
    d1 <> [] -> d2 <> [] ->
    Forall (fun c => RegExp.digit c = true) d1 ->
    Forall (fun c => RegExp.digit c = true) d2 ->
    same_but_numbers l1 l2 ->
    same_but_numbers (d1 ++ l1) (d2 ++ l2).

(** The characters of a message. *)
Definition chars (s : string) : list ascii := list_ascii_of_string s.

(** A character that none of the four expressions needs: no digit, and
    none of [/], [-] and [@]. *)
Definition plain (c : ascii) : bool :=
  negb (RegExp.digit c) && negb (Ascii.eqb c "/") && negb (Ascii.eqb c "-")
  && negb (Ascii.eqb c "@").

Definition all_plain (input : list ascii) : Prop :=
  Forall (fun c => plain c = true) input.

(** ** Samples and rates *)

(** [(errorCount / total) * 100 < 10], as the error rate check computes it. *)
Definition error_rate_below_10 (errorCount total : Z) : bool :=
  Float64.ltb
    (Float64.mul (Float64.div (Float64.of_Z errorCount) (Float64.of_Z total))
                 (Float64.of_Z 100))
    (Float64.of_Z 10).

(** The comparison agrees with the exact one for all counts up to [bound]. *)
Definition error_rate_exact_upto (bound : nat) : bool :=
  forallb (fun total =>
             forallb (fun errorCount =>
                        Bool.eqb (error_rate_below_10 (Z.of_nat errorCount) (Z.of_nat total))
                                 (10 * Z.of_nat errorCount <? Z.of_nat total))
                     (seq 0 (S total)))
          (seq 1 bound).

(** The samples the error rate check looks at, and the errors among them. *)
Definition recentSamples (w : World) : list Metric :=
  JSArray.slice (-50) (performanceMetrics w).

Definition is_error (metric : Metric) : bool := 400 <=? statusCode metric.

(** The system after the requests have been recorded, in order. *)
Definition record_all (requests : list (string * Float64.t * Z)) (s : Sys) : Sys :=
  fold_left (fun s '(endpoint, responseTime, statusCode) =>
               snd (recordMetric endpoint responseTime statusCode s))
            requests s.

(** 2000 is [m2000 * 2^(-42)]. *)
Definition m2000 : positive := 8796093022208000.

(** The sum of a list of integers. *)
Definition sum_of (times : list Z) : Z := fold_right Z.add 0 times.

(** ** Binary64, continued *)

(** The double 0.75 is [m75 * 2^(-53)], and 75 is [m75f * 2^(-46)]. *)
Definition m75 : Z := 6755399441055744.
Definition m75f : positive := 5277655813324800.

(** What is cut off a mantissa [m] of [53 + n] digits, with what was cut
    off before ([l]), is more than half a unit of the last place kept. *)
Definition above_half (n m : Z) (l : location) : Prop :=
  (n = 0 /\ l = loc_Inexact Gt) \/ (n = 1 /\ Z.odd m = true /\ l <> loc_Exact).

(** The double nearest to 0.9 is [(m90 + 1) * 2^(-53)], just above 0.9;
    90 is [m90f * 2^(-46)]. *)
Definition m90 : Z := 8106479329266892.
Definition m90f : positive := 6333186975989760.

(** ** More sample systems *)

(** A repair that fires on every snapshot and whose action is rejected with
    [null], and a system that holds it between two of its own. *)
Definition rejecting_repair : AutoRepair :=
  {| repair_label := "Rejecting";
     trigger := fun _ _ => Normal true;
     repair := fun w => (Throw (Thrown_value VNull), w);
     cooldown := 60000 |}.

Definition rejecting_system : Sys :=
  snd ((autoRepairs_set "memory_cleanup" memory_cleanup ;;
        autoRepairs_set "rejecting" rejecting_repair ;;
        autoRepairs_set "response_optimization" response_optimization)
         (construct hot_world)).

(** The same system, with a trigger that reads the memory check in place of
    the first. *)
Definition rejecting_polled : Sys :=
  snd ((autoRepairs_set "memory_cleanup" memory_cleanup ;;
        autoRepairs_set "rejecting"
          {| repair_label := "Rejecting";
             trigger := trigger memory_cleanup;
             repair := repair rejecting_repair;
             cooldown := 60000 |})
         (construct hot_world)).

(** A repair whose trigger throws on every snapshot. *)
Definition broken_trigger : AutoRepair :=
  {| repair_label := "Broken trigger";
     trigger := fun _ _ =>
       Throw (Thrown_error {| message := "cannot read snapshot"; stack := "" |});
     repair := fun w => (Normal (VObj []), w);
     cooldown := 60000 |}.

Definition broken_trigger_system : Sys :=
  snd ((autoRepairs_set "memory_cleanup" memory_cleanup ;;
        autoRepairs_set "broken" broken_trigger ;;
        autoRepairs_set "response_optimization" response_optimization)
         (construct hot_world)).

(** Samples for the response time check. *)
Definition timed (e : string) (ms : Z) : Metric :=
  {| endpoint := e; responseTime := Float64.of_Z ms; statusCode := 200; timestamp := 0 |}.

Definition slow_world : World :=
  set_performanceMetrics
    [timed "/api/a" 9000; timed "/api/a" 1900; timed "/api/b" 2100; timed "/api/a" 2000]
    quiet_world.

(** * Properties *)

(** Runs the monad of methods as far as the state is known. *)
Ltac run_monad :=
  cbv beta iota zeta delta
    [try_catch bind gets complete Date_now modify ret throw log run_repair in_world
     fst snd].

(** ** Arrays, maps and sorting *)

Module JSArrayFacts.

Import JSArray.

Lemma slice_length {A : Type} (start : Z) (a : list A) :
  Z.of_nat (List.length (slice start a)) =
  Z.of_nat (List.length a)
  - (if start <? 0 then Z.max (Z.of_nat (List.length a) + start) 0
     else Z.min start (Z.of_nat (List.length a))).
Proof.
  unfold slice. rewrite length_skipn.
  destruct (start <? 0) eqn:E; [apply Z.ltb_lt in E | apply Z.ltb_ge in E]; lia.
Qed.

Lemma slice_last_length {A : Type} (n : nat) (a : list A) :
  (0 < n <= List.length a)%nat -> List.length (slice (- Z.of_nat n) a) = n.
Proof.
  intros H. apply Nat2Z.inj. rewrite slice_length.
  destruct (- Z.of_nat n <? 0) eqn:E; [apply Z.ltb_lt in E | apply Z.ltb_ge in E]; lia.
Qed.

Lemma slice_last_short {A : Type} (n : nat) (a : list A) :
  (List.length a <= n)%nat -> slice (- Z.of_nat n) a = a.
Proof.
  intros H. unfold slice.
  destruct (- Z.of_nat n <? 0) eqn:E; [apply Z.ltb_lt in E | apply Z.ltb_ge in E].
  - replace (Z.to_nat _) with 0%nat by lia. reflexivity.
  - replace (Z.to_nat _) with 0%nat by lia. reflexivity.
Qed.

(** The slice is a suffix of the array: what is cut off is a prefix. *)
Lemma slice_suffix {A : Type} (start : Z) (a : list A) :
  exists dropped, a = dropped ++ slice start a.
Proof.
  unfold slice. eexists. symmetry. apply firstn_skipn.
Qed.

Lemma slice_incl {A : Type} (start : Z) (a : list A) x :
  In x (slice start a) -> In x a.
Proof.
  destruct (slice_suffix start a) as [d E]. intros H.
  rewrite E. apply in_or_app. now right.
Qed.

End JSArrayFacts.

Module JSMapFacts.

Import JSMap.

Section Facts.

Context {V : Type}.
Implicit Types (m : JSMap.t V) (v : V) (k : string).

Lemma get_set_same k v m : get k (set k v m) = Some v.
Proof.
  induction m as [|[k' v'] m IH]; simpl.
  - now rewrite String.eqb_refl.
  - destruct (String.eqb k k') eqn:E; simpl; rewrite E; auto.
Qed.

Lemma get_set_other k k' v m : k' <> k -> get k' (set k v m) = get k' m.
Proof.
  intros N. induction m as [|[k0 v0] m IH]; simpl.
  - destruct (String.eqb k' k) eqn:E; auto.
    apply String.eqb_eq in E. contradiction.
  - destruct (String.eqb k k0) eqn:E; simpl.
    + apply String.eqb_eq in E. subst k0.
      destruct (String.eqb k' k) eqn:E'; auto.
      apply String.eqb_eq in E'. contradiction.
    + now rewrite IH.
Qed.

Lemma get_None_keys k m : get k m = None <-> ~ In k (keys m).
Proof.
  induction m as [|[k' v'] m IH]; simpl.
  - tauto.
  - destruct (String.eqb k k') eqn:E.
    + apply String.eqb_eq in E. subst. split; [discriminate | tauto].
    + apply String.eqb_neq in E. rewrite IH. split; intros H.
      * intros [A|A]; [congruence | tauto].
      * tauto.
Qed.

Lemma get_Some_keys k v m : get k m = Some v -> In k (keys m).
Proof.
  intros H. destruct (in_dec string_dec k (keys m)) as [I|I]; auto.
  apply get_None_keys in I. congruence.
Qed.

Lemma get_Some_In k v m : get k m = Some v -> In (k, v) m.
Proof.
  induction m as [|[k' v'] m IH]; simpl; [discriminate|].
  destruct (String.eqb k k') eqn:E.
  - apply String.eqb_eq in E. intros [= ->]. subst. now left.
  - intros H. right. auto.
Qed.

Lemma In_get k v m : wf m -> In (k, v) m -> get k m = Some v.
Proof.
  unfold wf. induction m as [|[k' v'] m IH]; simpl; [tauto|].
  intros W [H|H].
  - injection H as -> ->. now rewrite String.eqb_refl.
  - inversion W as [|? ? N W']; subst.
    destruct (String.eqb k k') eqn:E.
    + apply String.eqb_eq in E. subst. exfalso. apply N.
      change (In (fst (k', v)) (map fst m)). now apply in_map.
    + auto.
Qed.

Lemma keys_set_present k v m : In k (keys m) -> keys (set k v m) = keys m.
Proof.
  induction m as [|[k' v'] m IH]; simpl; [tauto|].
  intros H. destruct (String.eqb k k') eqn:E; simpl.
  - reflexivity.
  - apply String.eqb_neq in E. f_equal. apply IH.
    destruct H; [congruence | assumption].
Qed.




Lemma size_set_present k v m : In k (keys m) -> size (set k v m) = size m.
Proof.
  intros H. unfold size.
  rewrite <- (length_map fst (set k v m)), <- (length_map fst m).
  change (map fst (set k v m)) with (keys (set k v m)).
  now rewrite keys_set_present.
Qed.

End Facts.

End JSMapFacts.

(** Assignments to a plain object. *)
Module JSObjectFacts.

Import JSObject.

Section Facts.

Context {V : Type}.
Implicit Types (o : JSObject.t V) (v : V) (k : string).


(** A new property is put somewhere among the old ones. *)
Lemma add_index_split i k v o :
  exists l1 l2, o = l1 ++ l2 /\ add_index i k v o = l1 ++ (k, v) :: l2.
Proof.
  induction o as [|[k' v'] o IH]; simpl.
  - exists [], []. auto.
  - destruct (array_index k') as [j|].
    + destruct (j <? i)%N.
      * destruct IH as (l1 & l2 & E & A).
        exists ((k', v') :: l1), l2. simpl. split; congruence.
      * exists [], ((k', v') :: o). auto.
    + exists [], ((k', v') :: o). auto.
Qed.

Lemma add_split k v o :
  exists l1 l2, o = l1 ++ l2 /\ add k v o = l1 ++ (k, v) :: l2.
Proof.
  unfold add. destruct (array_index k) as [i|].
  - apply add_index_split.
  - exists o, []. rewrite app_nil_r. auto.
Qed.

(** The three ways of an assignment. *)
Lemma set_cases k v o :
  (get k o <> None /\ set k v o = JSMap.set k v o) \/
  (get k o = None /\ k = "__proto__" /\ set k v o = o) \/
  (get k o = None /\ k <> "__proto__" /\
   exists l1 l2, o = l1 ++ l2 /\ set k v o = l1 ++ (k, v) :: l2).
Proof.
  unfold set, JSMap.has, get.
  destruct (JSMap.get k o) as [x|] eqn:G.
  - left. split; [discriminate | reflexivity].
  - right. destruct (String.eqb k "__proto__") eqn:E.
    + apply String.eqb_eq in E. left. auto.
    + apply String.eqb_neq in E. right. split; [reflexivity|]. split; [exact E|].
      apply add_split.
Qed.





(** An assignment adds at most the value assigned. *)
Lemma values_set k v o x :
  In x (values (set k v o)) -> x = v \/ In x (values o).
Proof.
  destruct (set_cases k v o) as [[G E]|[(G & P & E)|(G & P & l1 & l2 & Eo & E)]];
    rewrite E.
  - unfold values, JSMap.values. clear. induction o as [|[k' v'] o IH]; simpl.
    + intros [<-|[]]. now left.
    + destruct (String.eqb k k'); simpl.
      * intros [<-|I]; auto.
      * intros [<-|I]; auto. destruct (IH I); auto.
  - now right.
  - rewrite Eo. unfold values, JSMap.values. rewrite !map_app. simpl.
    rewrite !in_app_iff. simpl. intros [I|[<-|I]]; auto.
Qed.


End Facts.

End JSObjectFacts.

Section SortFacts.

Context {A : Type} (compare : A -> A -> Z).

Lemma insert_sorted_length x l : List.length (insert_sorted compare x l) = S (List.length l).
Proof.
  induction l as [|y l IH]; simpl; auto.
  destruct (compare x y <=? 0); simpl; auto.
Qed.

Lemma sort_length l : List.length (sort compare l) = List.length l.
Proof.
  induction l as [|x l IH]; simpl; auto.
  now rewrite insert_sorted_length, IH.
Qed.

End SortFacts.

(** ** Normal forms of error messages *)

Example extractErrorPattern_path :
  extractErrorPattern "failed at /tmp/abc123 for user 42" = "failed at PATH for user NUMBER".
Proof. vm_compute. reflexivity. Qed.

Example extractErrorPattern_email :
  extractErrorPattern "mail to bob.smith@example.co.uk, bounced 3 times!"
  = "mail to bob.EMAIL, bounced NUMBER times!".
Proof. vm_compute. reflexivity. Qed.

Example extractErrorPattern_uuid :
  extractErrorPattern "job abcdefab-cdef-abcd-efab-cdefabcdefab lost"
  = "job UUID lost".
Proof. vm_compute. reflexivity. Qed.

(** ** The [memory_cleanup] repair *)

(** C7. Whenever more than 1000 samples are stored (1200, say), the action of
    [memory_cleanup] returns normally and leaves exactly the last 500 of
    them: the new sequence has length 500, hence at most 500, and is the
    old one without its first [length - 500] entries. *)
Theorem memory_cleanup_keeps_last_500 (w : World) :
  (1000 < List.length (performanceMetrics w))%nat ->
  exists result w',
    repair memory_cleanup w = (Normal result, w') /\
    performanceMetrics w' =
      skipn (List.length (performanceMetrics w) - 500) (performanceMetrics w) /\
    List.length (performanceMetrics w') = 500%nat /\
    (List.length (performanceMetrics w') <= 500)%nat /\
    exists dropped, performanceMetrics w = dropped ++ performanceMetrics w'.
Proof.
  intros Hlen. simpl.
  assert (E : (1000 <? List.length (performanceMetrics w))%nat = true)
    by now apply Nat.ltb_lt.
  destruct (gc w); simpl; rewrite E; simpl;
    (do 2 eexists; split; [reflexivity|]; simpl;
     assert (S : JSArray.slice (-500) (performanceMetrics w) =
                 skipn (List.length (performanceMetrics w) - 500) (performanceMetrics w))
       by (unfold JSArray.slice; simpl; f_equal; lia);
     rewrite S; rewrite length_skipn;
     repeat split; try lia;
     exists (firstn (List.length (performanceMetrics w) - 500) (performanceMetrics w));
     symmetry; apply firstn_skipn).
Qed.

Lemma memory_cleanup_keeps_last_500_at_1200 :
  let w := set_performanceMetrics (repeat (sample "/api/x" 200) 1200) quiet_world in
  (1000 < List.length (performanceMetrics w))%nat /\
  exists result w',
    repair memory_cleanup w = (Normal result, w') /\
    performanceMetrics w' =
      skipn (List.length (performanceMetrics w) - 500) (performanceMetrics w) /\
    List.length (performanceMetrics w') = 500%nat /\
    (List.length (performanceMetrics w') <= 500)%nat /\
    exists dropped, performanceMetrics w = dropped ++ performanceMetrics w'.
Proof.
  intros w.
  assert (H : (1000 < List.length (performanceMetrics w))%nat).
  { apply Nat.ltb_lt. vm_compute. reflexivity. }
  split; [exact H | exact (memory_cleanup_keeps_last_500 w H)].
Defined.

(** ** The [error_mitigation] repair *)










Lemma occurrences_nonneg e l : 0 <= occurrences e l.
Proof. unfold occurrences. lia. Qed.









(** Of the 25 error samples of [many_errors] the action counts the last 20:
    "/api/old", with its three errors before them, is not reported, and
    "/api/x" is reported with 3 errors, not with the 4 it has in all. *)
Example error_mitigation_many_errors_log :
  map meta (logged (snd (repair error_mitigation many_errors)))
  = [None;
     meta (high_error_entry "/api/x" 3);
     meta (high_error_entry "/api/w" 4)].
Proof. vm_compute. reflexivity. Qed.

Example error_mitigation_five_errors_log :
  map text (logged (snd (repair error_mitigation five_errors)))
  = ["🔧 Analyzing error patterns for mitigation"; "🚨 High error rate detected"].
Proof. vm_compute. reflexivity. Qed.


Example inherited_errors_patterns :
  JSObject.entries
    (fold_left count_endpoint (recentErrors inherited_errors) JSObject.empty)
  = [("/api/x", Count 3);
     ("constructor", Text "function Object() { [native code] }111");
     ("/api/y", Count 2)].
Proof. vm_compute. reflexivity. Qed.

(** ** Error patterns *)

Lemma JSMap_set_set {V} k (v v' : V) m :
  JSMap.set k v' (JSMap.set k v m) = JSMap.set k v' m.
Proof.
  induction m as [|[k0 v0] m IH]; simpl.
  - now rewrite String.eqb_refl.
  - destruct (String.eqb k k0) eqn:E; simpl; rewrite E; [reflexivity | now rewrite IH].
Qed.

(** [analyzeError] never throws, and rewrites exactly the entry of the
    normalized message. *)
Lemma analyzeError_errorPatterns (errorMessage : string) (s : Sys) :
  exists s',
    analyzeError errorMessage s = (Normal tt, s') /\
    errorPatterns s' =
      JSMap.set (extractErrorPattern errorMessage)
        (observe errorMessage (now (world s))
           (JSMap.get (extractErrorPattern errorMessage) (errorPatterns s)))
        (errorPatterns s) /\
    now (world s') = now (world s).
Proof.
  unfold analyzeError.
  generalize (extractErrorPattern errorMessage) as key. intros key.
  unfold bind, gets, Date_now, modify, ret, log, JSMap.has. simpl.
  destruct (JSMap.get key (errorPatterns s)) as [p|] eqn:G; simpl.
  - rewrite G. simpl.
    destruct (5 <=? count p + 1); eexists; (split; [reflexivity|]); simpl; auto.
  - rewrite JSMapFacts.get_set_same. simpl.
    destruct (5 <=? 0 + 1) eqn:E; [discriminate E|].
    eexists. split; [reflexivity|]. simpl. split; [|reflexivity].
    now rewrite JSMap_set_set.
Qed.

(** Two messages with the same normal form, recorded on an empty table,
    make one entry with count 2. *)
Lemma analyzeError_twice (m1 m2 : string) (s : Sys) :
  extractErrorPattern m1 = extractErrorPattern m2 ->
  errorPatterns s = JSMap.empty ->
  exists s' p,
    (analyzeError m1 ;; analyzeError m2) s = (Normal tt, s') /\
    errorPatterns s' = [(extractErrorPattern m1, p)] /\
    count p = 2.
Proof.
  intros Hk He.
  destruct (analyzeError_errorPatterns m1 s) as (s1 & R1 & P1 & T1).
  destruct (analyzeError_errorPatterns m2 s1) as (s2 & R2 & P2 & T2).
  exists s2. eexists. split; [|split].
  - unfold bind. rewrite R1. exact R2.
  - rewrite P2, P1, He, <- Hk.
    rewrite JSMapFacts.get_set_same, JSMap_set_set. reflexivity.
  - reflexivity.
Qed.

(** C6. The two messages have the same pattern key, and recording both with
    [analyzeError] on an empty table leaves exactly one error pattern, under
    that key, with count 2. *)
Theorem same_pattern_counted_twice (s : Sys) :
  errorPatterns s = JSMap.empty ->
  extractErrorPattern "failed at /tmp/abc123 for user 42"
  = extractErrorPattern "failed at /tmp/xyz789 for user 99" /\
  exists s' p,
    (analyzeError "failed at /tmp/abc123 for user 42" ;;
     analyzeError "failed at /tmp/xyz789 for user 99") s = (Normal tt, s') /\
    errorPatterns s' = [("failed at PATH for user NUMBER", p)] /\
    JSMap.size (errorPatterns s') = 1%nat /\
    count p = 2.
Proof.
  intros He.
  assert (K1 : extractErrorPattern "failed at /tmp/abc123 for user 42"
               = "failed at PATH for user NUMBER") by (vm_compute; reflexivity).
  assert (K2 : extractErrorPattern "failed at /tmp/xyz789 for user 99"
               = "failed at PATH for user NUMBER") by (vm_compute; reflexivity).
  split; [congruence|].
  destruct (analyzeError_twice "failed at /tmp/abc123 for user 42"
              "failed at /tmp/xyz789 for user 99" s) as (s' & p & R & P & C);
    [congruence | assumption |].
  exists s', p. rewrite K1 in P. rewrite P. auto.
Qed.

Lemma same_pattern_counted_twice_fresh_system :
  errorPatterns (construct quiet_world) = JSMap.empty /\
  extractErrorPattern "failed at /tmp/abc123 for user 42"
  = extractErrorPattern "failed at /tmp/xyz789 for user 99" /\
  exists s' p,
    (analyzeError "failed at /tmp/abc123 for user 42" ;;
     analyzeError "failed at /tmp/xyz789 for user 99") (construct quiet_world)
    = (Normal tt, s') /\
    errorPatterns s' = [("failed at PATH for user NUMBER", p)] /\
    JSMap.size (errorPatterns s') = 1%nat /\
    count p = 2.
Proof.
  split; [reflexivity|].
  apply (same_pattern_counted_twice (construct quiet_world)). reflexivity.
Defined.

(** ** Registration of health checks *)

(** The registry after [setupHealthChecks] and [setupV8Monitoring]. *)
Example registered_checks :
  JSMap.keys (healthChecks (snd ((setupHealthChecks ;; setupV8Monitoring)
                                   (construct quiet_world))))
  = ["server"; "memory"; "response_time"; "error_rate"; "v8_performance"].
Proof. reflexivity. Qed.

(** C2, as the code has it. Registering a health check under a name that is
    already registered does not fail: the call returns normally, the
    registry then holds the new definition under that name, and the names,
    their order and the definitions under all other names are unchanged. *)
Theorem healthChecks_set_replaces (s : Sys) (name : string) (definition old : HealthCheck) :
  JSMap.get name (healthChecks s) = Some old ->
  exists s',
    healthChecks_set name definition s = (Normal tt, s') /\
    JSMap.get name (healthChecks s') = Some definition /\
    JSMap.keys (healthChecks s') = JSMap.keys (healthChecks s) /\
    (forall other, other <> name ->
       JSMap.get other (healthChecks s') = JSMap.get other (healthChecks s)).
Proof.
  intros Hold. eexists. split; [reflexivity|]. simpl. split; [|split].
  - apply JSMapFacts.get_set_same.
  - apply JSMapFacts.keys_set_present. eapply JSMapFacts.get_Some_keys, Hold.
  - intros other Hne. now apply JSMapFacts.get_set_other.
Qed.

Lemma healthChecks_set_replaces_memory :
  let s := snd (setupHealthChecks (construct quiet_world)) in
  JSMap.get "memory" (healthChecks s) = Some memory_check /\
  exists s',
    healthChecks_set "memory" v8_performance_check s = (Normal tt, s') /\
    JSMap.get "memory" (healthChecks s') = Some v8_performance_check /\
    JSMap.keys (healthChecks s') = JSMap.keys (healthChecks s) /\
    (forall other, other <> "memory" ->
       JSMap.get other (healthChecks s') = JSMap.get other (healthChecks s)).
Proof.
  intros s. split; [reflexivity|].
  apply (healthChecks_set_replaces s "memory" v8_performance_check memory_check).
  reflexivity.
Defined.

(** C2, as stated, fails: after [setupHealthChecks], a second registration
    under "memory" returns normally (no error is raised) and the registry no
    longer holds the original definition. *)
Lemma second_registration_overwrites :
  let s := snd (setupHealthChecks (construct quiet_world)) in
  JSMap.get "memory" (healthChecks s) = Some memory_check /\
  fst (healthChecks_set "memory" v8_performance_check s) = Normal tt /\
  JSMap.get "memory"
    (healthChecks (snd (healthChecks_set "memory" v8_performance_check s)))
  = Some v8_performance_check /\
  JSMap.get "memory"
    (healthChecks (snd (healthChecks_set "memory" v8_performance_check s)))
  <> Some memory_check.
Proof.
  intros s. repeat split.
  intros H. simpl in H. discriminate H.
Qed.

(** ** [getHealthStatus] *)


(** A check that does not throw [null] or [undefined] gets an entry. *)
Lemma entry_of_contained (c : HealthCheck) (w : World) :
  check_contained c w -> entry_of c w = Normal (the_entry c w).
Proof.
  unfold check_contained, the_entry, entry_of. intros H.
  destruct (check c w) as [r|[e|v]]; try reflexivity.
  specialize (H v eq_refl). simpl. now rewrite H.
Qed.

Lemma getHealthStatus_loop_run (checks : list (string * HealthCheck)) :
  forall (acc : HealthStatus) (s : Sys),
    (forall name c, In (name, c) checks -> check_contained c (world s)) ->
    getHealthStatus_loop checks acc s =
    (Normal (collect (map (fun nc => (fst nc, the_entry (snd nc) (world s))) checks) acc),
     s).
Proof.
  induction checks as [|[name c] checks IH]; intros acc s Safe; simpl.
  - reflexivity.
  - pose proof (entry_of_contained c (world s) (Safe name c (or_introl eq_refl))) as E.
    unfold bind at 1. unfold try_catch, bind, gets, complete, Date_now, ret.
    unfold entry_of in E.
    destruct (check c (world s)) as [r|x] eqn:R; simpl.
    + injection E as <-. apply IH. intros n c' I. apply (Safe n). now right.
    + destruct (error_message x) as [msg|x']; [|discriminate E].
      injection E as <-. simpl. apply IH. intros n c' I. apply (Safe n). now right.
Qed.

(** A check that throws [null] or [undefined] ends the loop: the handler
    throws when it reads the message. *)
Lemma getHealthStatus_loop_stops name c checks acc s v :
  check c (world s) = Throw (Thrown_value v) -> nullish v = true ->
  getHealthStatus_loop ((name, c) :: checks) acc s
  = (Throw (Thrown_error (cannot_read "message" v)), s).
Proof.
  intros R N. simpl. unfold bind at 1. unfold try_catch, bind, gets, complete.
  rewrite R. simpl. rewrite N. reflexivity.
Qed.

Section Collect.

Implicit Types (readings : list (string * Reading)) (acc : HealthStatus).





Lemma collect_values readings : forall acc x,
  In x (JSObject.values (collect readings acc)) ->
  In x (JSObject.values acc) \/ In x (map snd readings).
Proof.
  induction readings as [|[n r] readings IH]; intros acc x I; simpl in *; [now left|].
  apply IH in I. destruct I as [I|I]; [|auto].
  apply JSObjectFacts.values_set in I. destruct I as [->|I]; auto.
Qed.


End Collect.

Lemma get_map_entries {V W} (f : V -> W) name (m : JSMap.t V) :
  JSMap.get name (map (fun nc => (fst nc, f (snd nc))) m) =
  option_map f (JSMap.get name m).
Proof.
  induction m as [|[k v] m IH]; simpl; [reflexivity|].
  destruct (String.eqb name k); [reflexivity | exact IH].
Qed.



Example getHealthStatus_with_broken_check :
  match fst (getHealthStatus with_broken_check) with
  | Normal healthStatus =>
      map (fun kr => (fst kr, healthy (snd kr))) healthStatus
  | Throw _ => []
  end
  = [("server", true); ("memory", true); ("response_time", true);
     ("error_rate", true); ("broken", false); ("v8_performance", true)].
Proof. vm_compute. reflexivity. Qed.


(** Names that are array indices are listed first, in ascending order. *)
Example getHealthStatus_lists_indices_first :
  JSMap.keys (healthChecks with_numbered_checks) = ["10"; "server"; "9"] /\
  match fst (getHealthStatus with_numbered_checks) with
  | Normal healthStatus => JSObject.keys healthStatus
  | Throw _ => []
  end = ["9"; "10"; "server"].
Proof. split; [reflexivity | vm_compute; reflexivity]. Qed.

(** ** One pass of [triggerHealing] *)

Lemma error_meta_error (e : Error) : error_meta (Thrown_error e) = Normal (Error_value e).
Proof. reflexivity. Qed.

(** The handlers read the message of what they caught, and that fails for
    [null] and [undefined] only. *)
Lemma error_meta_cases (x : Thrown) :
  (exists data, error_meta x = Normal data) \/
  (exists v, x = Thrown_value v /\ nullish v = true /\
             error_meta x = Throw (Thrown_error (cannot_read "message" v))).
Proof.
  destruct x as [e|v]; [left; eexists; reflexivity|].
  unfold error_meta, error_message, error_stack.
  destruct (nullish v) eqn:N.
  - right. exists v. auto.
  - left. eexists. reflexivity.
Qed.

Lemma error_meta_not_nullish (v : Value) :
  nullish v = false -> exists data, error_meta (Thrown_value v) = Normal data.
Proof.
  intros N. unfold error_meta, error_message, error_stack. rewrite N.
  eexists. reflexivity.
Qed.

(** The loop body goes one of the seven ways. *)
Lemma heal_one_step healthStatus k r s :
  exists c s', heal_one healthStatus (k, r) s = (c, s') /\
               HealStep healthStatus k r s s' /\
               heal_outcome healthStatus k r s c.
Proof.
  unfold heal_one, heal_outcome. run_monad.
  destruct (trigger r (healthChecks s) healthStatus) as [[|]|x] eqn:T; run_monad.
  - cbn [negb].
    destruct (in_cooldown (JSMap.get k (healingAttempts s)) (now (world s)) (cooldown r))
      eqn:C; run_monad.
    + do 2 eexists. split; [reflexivity|]. split; [now apply heal_cooling | now left].
    + cbn [world set_world note_invoked].
      pose proof (heal_done healthStatus k r s) as D.
      pose proof (heal_failed healthStatus k r s) as F.
      pose proof (heal_aborted healthStatus k r s) as A.
      unfold announced in D, F, A |- *.
      destruct (repair r (logger info ("🔧 Triggering repair: " ++ repair_label r)%string
                                 None (world s))) as [[result|x] w'] eqn:R; run_monad.
      * do 2 eexists. split; [reflexivity|]. split; [now apply (D result w') | now left].
      * destruct (error_meta_cases x) as [[data E]|(v & -> & N & E)]; rewrite E.
        -- do 2 eexists. split; [reflexivity|].
           split; [exact (F _ _ _ T C eq_refl E) | now left].
        -- do 2 eexists. split; [reflexivity|].
           split; [exact (A _ _ _ T C eq_refl E)|].
           right. exists v. split; [exact N|]. split; [reflexivity|]. right. now exists w'.
  - do 2 eexists. split; [reflexivity|]. split; [now apply heal_idle | now left].
  - destruct (error_meta_cases x) as [[data E]|(v & -> & N & E)]; rewrite E.
    + do 2 eexists. split; [reflexivity|].
      split; [eapply heal_trigger_threw; eauto | now left].
    + do 2 eexists. split; [reflexivity|].
      split; [eapply heal_trigger_aborted; eauto|].
      right. exists v. auto.
Qed.

Lemma heal_all_single healthStatus kr s :
  heal_all healthStatus [kr] s = snd (heal_one healthStatus kr s).
Proof.
  unfold heal_all. cbn [for_of]. unfold bind.
  destruct (heal_one healthStatus kr s) as [[[]|x] s']; reflexivity.
Qed.

Lemma heal_all_one healthStatus k r s :
  HealStep healthStatus k r s (heal_all healthStatus [(k, r)] s).
Proof.
  destruct (heal_one_step healthStatus k r s) as (c & s' & E & H & _).
  rewrite heal_all_single, E. exact H.
Qed.

(** After an entry the loop goes on, or it has ended there. *)
Lemma heal_all_cons_or healthStatus kr entries s :
  heal_all healthStatus (kr :: entries) s =
  heal_all healthStatus entries (heal_all healthStatus [kr] s) \/
  heal_all healthStatus (kr :: entries) s = heal_all healthStatus [kr] s.
Proof.
  rewrite heal_all_single. unfold heal_all. cbn [for_of]. unfold bind.
  destruct (heal_one healthStatus kr s) as [[[]|x] s']; [left | right]; reflexivity.
Qed.

Lemma heal_all_cons healthStatus kr entries s :
  fst (heal_one healthStatus kr s) = Normal tt ->
  heal_all healthStatus (kr :: entries) s =
  heal_all healthStatus entries (heal_all healthStatus [kr] s).
Proof.
  intros N. rewrite heal_all_single. unfold heal_all. cbn [for_of]. unfold bind.
  destruct (heal_one healthStatus kr s) as [[[]|x] s']; [reflexivity | discriminate N].
Qed.

(** What every step keeps is kept by the loop, wherever it ends. *)
Lemma heal_all_invariant (P : Sys -> Sys -> Prop) healthStatus entries :
  (forall s, P s s) ->
  (forall s1 s2 s3, P s1 s2 -> P s2 s3 -> P s1 s3) ->
  (forall k r s s', In (k, r) entries -> HealStep healthStatus k r s s' -> P s s') ->
  forall s, P s (heal_all healthStatus entries s).
Proof.
  intros Refl Trans. induction entries as [|[k r] entries IH]; intros Step s.
  - apply Refl.
  - assert (One : P s (heal_all healthStatus [(k, r)] s)).
    { apply (Step k r); [now left | apply heal_all_one]. }
    destruct (heal_all_cons_or healthStatus (k, r) entries s) as [E|E]; rewrite E.
    + eapply Trans; [exact One|]. apply IH. intros k' r' s1 s2 I. apply Step. now right.
    + exact One.
Qed.

(** A repair that throws neither [null] nor [undefined] ends its step
    normally. *)
Lemma heal_one_contained healthStatus k r s :
  never_throws_nullish r -> fst (heal_one healthStatus (k, r) s) = Normal tt.
Proof.
  intros [Ht Hr].
  destruct (heal_one_step healthStatus k r s) as (c & s' & E & _ & [->|(v & N & _ & Why)]);
    rewrite E; [reflexivity|].
  exfalso. destruct Why as [T|[w' R]].
  - apply Ht in T. congruence.
  - specialize (Hr (announced r s) v). rewrite R in Hr. specialize (Hr eq_refl). congruence.
Qed.

(** A repair that does not trigger ends its step normally. *)
Lemma heal_one_idle healthStatus k r s :
  trigger r (healthChecks s) healthStatus = Normal false ->
  heal_one healthStatus (k, r) s = (Normal tt, s).
Proof.
  intros T. unfold heal_one. run_monad. rewrite T. reflexivity.
Qed.

Lemma pass_state healthStatus entries s :
  snd (pass healthStatus entries s) = heal_all healthStatus entries s.
Proof. reflexivity. Qed.

Lemma pass_cons healthStatus kr entries s s1 :
  heal_one healthStatus kr s = (Normal tt, s1) ->
  pass healthStatus (kr :: entries) s = pass healthStatus entries s1.
Proof. intros E. unfold pass. cbn [for_of]. unfold bind. now rewrite E. Qed.

Lemma pass_app healthStatus l1 l2 : forall s s1,
  pass healthStatus l1 s = (Normal tt, s1) ->
  pass healthStatus (l1 ++ l2) s = pass healthStatus l2 s1.
Proof.
  induction l1 as [|kr l1 IH]; intros s s1 E.
  - injection E as <-. reflexivity.
  - unfold pass in *. cbn [for_of app] in *. unfold bind in *.
    destruct (heal_one healthStatus kr s) as [[[]|x] s']; [|discriminate E].
    now apply IH.
Qed.

(** A pass over repairs none of which throws [null] or [undefined] returns
    normally. *)
Lemma pass_normal healthStatus entries : forall s,
  (forall k r, In (k, r) entries -> never_throws_nullish r) ->
  pass healthStatus entries s = (Normal tt, heal_all healthStatus entries s).
Proof.
  induction entries as [|[k r] entries IH]; intros s Safe.
  - reflexivity.
  - pose proof (heal_one_contained healthStatus k r s (Safe k r (or_introl eq_refl))) as N.
    rewrite heal_all_cons by exact N. rewrite heal_all_single.
    destruct (heal_one healthStatus (k, r) s) as [c s1] eqn:E. simpl in N. subst c.
    rewrite (pass_cons _ _ _ _ _ E). apply IH. intros k' r' I. apply (Safe k'). now right.
Qed.

Lemma heal_all_app healthStatus l1 l2 s :
  (forall k r, In (k, r) l1 -> never_throws_nullish r) ->
  heal_all healthStatus (l1 ++ l2) s =
  heal_all healthStatus l2 (heal_all healthStatus l1 s).
Proof.
  intros Safe. rewrite <- !pass_state.
  now rewrite (pass_app healthStatus l1 l2 s _ (pass_normal healthStatus l1 s Safe)).
Qed.

(** What a pass throws is the [TypeError] of its handler, and it throws it
    because a trigger or an action threw [null] or [undefined]. *)
Lemma pass_outcome healthStatus entries : forall s,
  fst (pass healthStatus entries s) = Normal tt \/
  exists k r s1 v,
    In (k, r) entries /\ nullish v = true /\
    fst (pass healthStatus entries s) = Throw (Thrown_error (cannot_read "message" v)) /\
    (trigger r (healthChecks s1) healthStatus = Throw (Thrown_value v) \/
     exists w', repair r (announced r s1) = (Throw (Thrown_value v), w')).
Proof.
  induction entries as [|[k r] entries IH]; intros s.
  - now left.
  - destruct (heal_one_step healthStatus k r s) as (c & s' & E & _ & [->|(v & N & -> & Why)]).
    + rewrite (pass_cons _ _ _ _ _ E).
      destruct (IH s') as [Ok|(k' & r' & s1 & v & I & N & T & Why)]; [now left|].
      right. exists k', r', s1, v. split; [now right | auto].
    + right. exists k, r, s, v. split; [now left|]. split; [exact N|].
      split; [|exact Why].
      unfold pass. cbn [for_of]. unfold bind. now rewrite E.
Qed.

Lemma triggerHealing_pass healthStatus s :
  triggerHealing healthStatus s = pass healthStatus (JSMap.entries (autoRepairs s)) s.
Proof. reflexivity. Qed.

Lemma triggerHealing_normal healthStatus s :
  (forall k r, In (k, r) (autoRepairs s) -> never_throws_nullish r) ->
  triggerHealing healthStatus s =
  (Normal tt, heal_all healthStatus (JSMap.entries (autoRepairs s)) s).
Proof. intros Safe. rewrite triggerHealing_pass. now apply pass_normal. Qed.

(** The registered repairs throw nothing at all. *)
Lemma registered_contained k r :
  In (k, r) registered_repairs -> never_throws_nullish r.
Proof.
  unfold registered_repairs.
  intros [H|[H|[H|[H|[]]]]]; injection H as _ <-; split; intros; discriminate.
Qed.

(** What a step leaves alone. *)
Lemma HealStep_registries healthStatus k r s s' :
  HealStep healthStatus k r s s' ->
  healthChecks s' = healthChecks s /\ autoRepairs s' = autoRepairs s.
Proof. intros H. destruct H; auto. Qed.

Lemma HealStep_other_attempt healthStatus k r s s' k' :
  HealStep healthStatus k r s s' -> k' <> k ->
  JSMap.get k' (healingAttempts s') = JSMap.get k' (healingAttempts s).
Proof.
  intros H N. destruct H; simpl; auto. now apply JSMapFacts.get_set_other.
Qed.

Lemma executions_note k k' s :
  executions k (note_invoked k' s) =
  (executions k s + if string_dec k' k then 1 else 0)%nat.
Proof.
  unfold executions. simpl. rewrite count_occ_app. simpl.
  destruct (string_dec k' k); reflexivity.
Qed.

Lemma HealStep_other_executions healthStatus k r s s' k' :
  HealStep healthStatus k r s s' -> k' <> k ->
  executions k' s' = executions k' s.
Proof.
  intros H N. destruct H; auto;
    change (executions k' (note_invoked k s) = executions k' s);
    rewrite executions_note; destruct (string_dec k k'); congruence || lia.
Qed.

Lemma heal_all_registries healthStatus entries s :
  healthChecks (heal_all healthStatus entries s) = healthChecks s /\
  autoRepairs (heal_all healthStatus entries s) = autoRepairs s.
Proof.
  apply (heal_all_invariant
           (fun s s' => healthChecks s' = healthChecks s /\ autoRepairs s' = autoRepairs s)).
  - auto.
  - intros s1 s2 s3 [A B] [C D]. split; congruence.
  - intros k r s1 s2 _. apply HealStep_registries.
Qed.

(** A repair whose trigger answers false is not executed by the pass. *)
Lemma heal_all_not_triggered healthStatus k entries s :
  (forall r, In (k, r) entries ->
             forall checks, trigger r checks healthStatus = Normal false) ->
  executions k (heal_all healthStatus entries s) = executions k s.
Proof.
  intros Hquiet.
  apply (heal_all_invariant (fun s s' => executions k s' = executions k s)).
  - reflexivity.
  - intros s1 s2 s3 A B. congruence.
  - intros k' r' s1 s2 I Step.
    destruct (string_dec k k') as [->|N].
    + assert (Q : trigger r' (healthChecks s1) healthStatus = Normal false)
        by (now apply Hquiet).
      inversion Step; try congruence.
    + eapply HealStep_other_executions; eauto.
Qed.

(** ** The polling loop and [stability_check] *)

(** On the snapshot the polling loop builds, one reading under one name, at
    most one reading passes the filter of the trigger. *)
Lemma stability_trigger_single_reading checks name reading :
  stability_trigger checks (JSObject.singleton name reading) = Normal false.
Proof.
  unfold stability_trigger, JSObject.singleton, JSObject.values.
  simpl. destruct (critical_issue checks reading); reflexivity.
Qed.

Lemma poll_step (name : string) (c : HealthCheck) (s : Sys) :
  exists completion s', poll name c s = (completion, s') /\ PollStep name c s completion s'.
Proof.
  unfold poll. run_monad.
  destruct (check c (world s)) as [reading|x] eqn:R; run_monad.
  - cbn [healthy with_component].
    destruct (healthy reading) eqn:H; cbn [negb]; run_monad.
    + do 2 eexists. split; [reflexivity|]. now apply (poll_healthy _ _ _ reading).
    + pose proof (poll_healed name c s reading) as P1.
      pose proof (poll_healing_threw name c s reading) as P2.
      unfold log_to in P1, P2.
      match goal with
      | |- context [triggerHealing ?hs ?s1] =>
          pose proof (pass_outcome hs (JSMap.entries (autoRepairs s1)) s1) as O;
          rewrite <- triggerHealing_pass in O;
          destruct (triggerHealing hs s1) as [[[]|x] s2] eqn:T
      end.
      * do 2 eexists. split; [reflexivity|]. exact (P1 _ R H eq_refl).
      * destruct O as [O|(k & r & s3 & v & _ & _ & O & _)]; [discriminate O|].
        cbn [fst] in O. injection O as ->. rewrite error_meta_error. run_monad.
        do 2 eexists. split; [reflexivity|]. exact (P2 _ _ R H eq_refl).
  - destruct (error_meta_cases x) as [[data E]|(v & -> & N & E)]; rewrite E.
    + do 2 eexists. split; [reflexivity|]. now apply (poll_check_threw _ _ _ x data).
    + do 2 eexists. split; [reflexivity|]. now apply poll_aborted.
Qed.

(** The firing throws only if the check threw [null] or [undefined]. *)
Lemma PollStep_contained name c s completion s' :
  PollStep name c s completion s' -> check_contained c (world s) -> completion = Normal tt.
Proof.
  intros H Safe. destruct H; try reflexivity.
  specialize (Safe v H). congruence.
Qed.

(** One firing of a polling timer leaves the registries alone and does not
    execute the repair under "stability_check", if that is [stability_check]. *)
Lemma poll_skips_stability_check (s : Sys) (name : string) (c : HealthCheck) :
  JSMap.wf (autoRepairs s) ->
  JSMap.get "stability_check" (autoRepairs s) = Some stability_check ->
  forall completion s',
    poll name c s = (completion, s') ->
    autoRepairs s' = autoRepairs s /\
    executions "stability_check" s' = executions "stability_check" s.
Proof.
  intros W G completion s' Run.
  destruct (poll_step name c s) as (c0 & s0 & Run0 & Step).
  rewrite Run in Run0. injection Run0 as <- <-.
  assert (Pass : forall hs msg data s1,
             snd (triggerHealing hs (log_to warn msg data s)) = s1 ->
             hs = JSObject.singleton name (with_component name
                    match check c (world s) with Normal r => r | Throw _ =>
                      {| healthy := true; component := None; props := [] |} end) ->
             autoRepairs s1 = autoRepairs s /\
             executions "stability_check" s1 = executions "stability_check" s).
  { intros hs msg data s1 <- ->. rewrite triggerHealing_pass, pass_state. split.
    - rewrite (proj2 (heal_all_registries _ _ _)). reflexivity.
    - rewrite heal_all_not_triggered; [reflexivity|].
      intros r I checks. cbn [autoRepairs log_to set_world] in I.
      apply (JSMapFacts.In_get _ _ _ W) in I.
      assert (r = stability_check) by congruence. subst r.
      apply stability_trigger_single_reading. }
  destruct Step as [reading R H | reading s1 R H T | reading e s1 R H T
                   | x data R E | v R N]; try (split; reflexivity).
  - apply (Pass _ _ _ s1 (f_equal snd T)). now rewrite R.
  - destruct (Pass _ _ _ s1 (f_equal snd T)) as [A B]; [now rewrite R|].
    split; [exact A | exact B].
Qed.

(** C4. The polling loop calls [triggerHealing] with a snapshot that holds
    the reading of one check only.  On every such snapshot the trigger of
    [stability_check] answers false, so no firing of a polling timer, for
    any check and in any state of the system, executes the action of
    [stability_check].  (The firing returns normally, unless the check
    function itself throws [null] or [undefined].) *)
Theorem stability_check_never_polled (s : Sys) (name : string) (c : HealthCheck) :
  JSMap.wf (autoRepairs s) ->
  JSMap.get "stability_check" (autoRepairs s) = Some stability_check ->
  (forall reading,
      trigger stability_check (healthChecks s) (JSObject.singleton name reading)
      = Normal false) /\
  exists completion s',
    fire (PollCheck name c) s = (completion, s') /\
    executions "stability_check" s' = executions "stability_check" s /\
    (check_contained c (world s) -> completion = Normal tt).
Proof.
  intros W G. split.
  - intros reading. apply stability_trigger_single_reading.
  - destruct (poll_step name c s) as (completion & s' & Run & Step).
    exists completion, s'. split; [exact Run|]. split.
    + exact (proj2 (poll_skips_stability_check s name c W G completion s' Run)).
    + now apply (PollStep_contained name c s completion s').
Qed.

(** The registries after [initialize]. *)
Lemma initialize_registries (w : World) :
  autoRepairs (snd (initialize (construct w))) = registered_repairs /\
  healthChecks (snd (initialize (construct w)))
  = [("server", server_check); ("memory", memory_check);
     ("response_time", response_time_check); ("error_rate", error_rate_check);
     ("v8_performance", v8_performance_check)].
Proof.
  unfold initialize. run_monad. cbn [world construct set_world logger emit gc
    set_performanceMetrics].
  destruct (gc w); split; reflexivity.
Qed.

Lemma registered_repairs_wf : JSMap.wf registered_repairs.
Proof. unfold JSMap.wf. simpl. repeat constructor; simpl; intuition discriminate. Qed.

(** Whatever timers fire after [initialize], and however often, the action
    of [stability_check] is never executed. *)
Lemma stability_check_never_runs (w : World) (callbacks : list Callback) :
  executions "stability_check" (fire_all callbacks (snd (initialize (construct w)))) = 0%nat.
Proof.
  assert (Start : autoRepairs (snd (initialize (construct w))) = registered_repairs /\
                  executions "stability_check" (snd (initialize (construct w))) = 0%nat).
  { split; [apply initialize_registries|].
    unfold initialize. run_monad. cbn [world construct set_world logger emit gc
      set_performanceMetrics].
    destruct (gc w); reflexivity. }
  revert Start. generalize (snd (initialize (construct w))) as s.
  induction callbacks as [|c callbacks IH]; intros s [Reg X]; [exact X|].
  simpl. apply IH. destruct c as [name hc| |].
  - assert (W : JSMap.wf (autoRepairs s)) by (rewrite Reg; exact registered_repairs_wf).
    assert (G : JSMap.get "stability_check" (autoRepairs s) = Some stability_check)
      by (rewrite Reg; reflexivity).
    cbn [fire]. destruct (poll name hc s) as [completion s'] eqn:Run.
    destruct (poll_skips_stability_check s name hc W G completion s' Run) as [Reg' X'].
    cbn [snd]. split; congruence.
  - unfold fire. run_monad.
    destruct (2000 <? List.length (performanceMetrics (world s)))%nat; run_monad;
      split; assumption.
  - unfold fire. run_monad.
    destruct (shouldOptimizeMemory (world s)); run_monad; split; assumption.
Qed.

Example hot_system_timers :
  map callback (timers hot_system)
  = [OptimizeMemory;
     PollCheck "server" server_check; PollCheck "memory" memory_check;
     PollCheck "response_time" response_time_check;
     PollCheck "error_rate" error_rate_check;
     CleanMetrics].
Proof. reflexivity. Qed.

Example hot_system_poll_memory :
  invoked (snd (fire (PollCheck "memory" memory_check) hot_system)) = ["memory_cleanup"].
Proof. vm_compute. reflexivity. Qed.

Lemma hot_system_wf : JSMap.wf (autoRepairs hot_system).
Proof. unfold JSMap.wf. simpl. repeat constructor; simpl; intuition discriminate. Qed.

Lemma stability_check_never_polled_hot_system :
  JSMap.wf (autoRepairs hot_system) /\
  JSMap.get "stability_check" (autoRepairs hot_system) = Some stability_check /\
  (forall reading,
      trigger stability_check (healthChecks hot_system)
              (JSObject.singleton "memory" reading)
      = Normal false) /\
  exists completion s',
    fire (PollCheck "memory" memory_check) hot_system = (completion, s') /\
    executions "stability_check" s' = executions "stability_check" hot_system /\
    (check_contained memory_check (world hot_system) -> completion = Normal tt).
Proof.
  split; [exact hot_system_wf|]. split; [reflexivity|].
  exact (stability_check_never_polled hot_system "memory" memory_check
           hot_system_wf eq_refl).
Defined.

(** ** [getHealingHistory] *)

Lemma setupAutoRepairs_registry (s : Sys) :
  autoRepairs s = JSMap.empty ->
  autoRepairs (snd (setupAutoRepairs s)) = registered_repairs.
Proof. intros E. unfold setupAutoRepairs. run_monad. simpl. now rewrite E. Qed.



(** The actions of the registered repairs return normally and leave the
    clock alone. *)
Lemma now_report_high es : forall w, now (fold_left report_high es w) = now w.
Proof.
  induction es as [|[e [c|txt]] es IH]; intros w; simpl; [reflexivity| |apply IH].
  rewrite IH. destruct (3 <=? c); reflexivity.
Qed.





Example healing_history_five_minutes :
  match fst (getHealingHistory (at_time 1700000000000 after_memory_cleanup)),
        fst (getHealingHistory (at_time 1700000100000 after_memory_cleanup)),
        fst (getHealingHistory (at_time 1700000300000 after_memory_cleanup)) with
  | Normal [h0], Normal [h1], Normal [h2] =>
      (repair_description h0,
       cooldown_remaining h0, cooldown_remaining h1, cooldown_remaining h2)
  | _, _, _ => ("", 0, 0, 0)
  end = ("Memory Cleanup", 300000, 200000, 0).
Proof. vm_compute. reflexivity. Qed.

(** ** Failing repairs and the cooldown *)

(** Steps for other keys leave the entry and the executions of [k] alone. *)
Lemma heal_all_other healthStatus k entries s :
  ~ In k (JSMap.keys entries) ->
  JSMap.get k (healingAttempts (heal_all healthStatus entries s))
  = JSMap.get k (healingAttempts s) /\
  executions k (heal_all healthStatus entries s) = executions k s.
Proof.
  intros Hk.
  apply (heal_all_invariant
           (fun s s' => JSMap.get k (healingAttempts s') = JSMap.get k (healingAttempts s) /\
                        executions k s' = executions k s)).
  - auto.
  - intros s1 s2 s3 [A B] [C D]. split; congruence.
  - intros k' r' s1 s2 I Step.
    assert (N : k <> k').
    { intros ->. apply Hk. change k' with (fst (k', r')). now apply in_map. }
    split.
    + eapply HealStep_other_attempt; eauto.
    + eapply HealStep_other_executions; eauto.
Qed.

Lemma HealStep_clock healthStatus k r s s' :
  HealStep healthStatus k r s s' -> clock_monotone r ->
  now (world s) <= now (world s').
Proof.
  intros H Mono. destruct H; cbn; try lia.
  - specialize (Mono (announced r s)). rewrite H1 in Mono. exact Mono.
  - specialize (Mono (announced r s)). rewrite H1 in Mono. exact Mono.
  - specialize (Mono (announced r s)). rewrite H1 in Mono. exact Mono.
Qed.

Lemma heal_all_clock healthStatus entries s :
  (forall k r, In (k, r) entries -> clock_monotone r) ->
  now (world s) <= now (world (heal_all healthStatus entries s)).
Proof.
  intros Mono.
  apply (heal_all_invariant (fun s s' => now (world s) <= now (world s'))).
  - intros s1. lia.
  - intros s1 s2 s3 A B. lia.
  - intros k r s1 s2 I Step. eapply HealStep_clock; eauto.
Qed.

(** In a registry with distinct keys, the entry of [k] splits the loop. *)
Lemma registry_split (m : JSMap.t AutoRepair) k r :
  JSMap.wf m -> JSMap.get k m = Some r ->
  exists before after,
    JSMap.entries m = before ++ (k, r) :: after /\
    ~ In k (JSMap.keys before) /\ ~ In k (JSMap.keys after).
Proof.
  intros W G. apply JSMapFacts.get_Some_In in G.
  destruct (in_split _ _ G) as (before & after & E).
  exists before, after. split; [exact E|].
  unfold JSMap.wf, JSMap.keys in *. rewrite E in W.
  rewrite map_app in W. simpl in W.
  split.
  - intros I. apply NoDup_remove_2 in W. apply W. apply in_or_app. now left.
  - intros I. apply NoDup_remove_2 in W. apply W. apply in_or_app. now right.
Qed.

(** A pass seen from the repair registered under [k]: the steps before it,
    its own step, the steps after it. *)
Lemma pass_split healthStatus (s : Sys) k r :
  JSMap.wf (autoRepairs s) ->
  JSMap.get k (autoRepairs s) = Some r ->
  (forall k' r', In (k', r') (autoRepairs s) -> clock_monotone r') ->
  (forall k' r', In (k', r') (autoRepairs s) -> never_throws_nullish r') ->
  exists s1 s2 s',
    triggerHealing healthStatus s = (Normal tt, s') /\
    HealStep healthStatus k r s1 s2 /\
    healthChecks s1 = healthChecks s /\
    healthChecks s' = healthChecks s /\
    autoRepairs s' = autoRepairs s /\
    JSMap.get k (healingAttempts s1) = JSMap.get k (healingAttempts s) /\
    executions k s1 = executions k s /\
    JSMap.get k (healingAttempts s') = JSMap.get k (healingAttempts s2) /\
    executions k s' = executions k s2 /\
    now (world s) <= now (world s1) /\
    now (world s2) <= now (world s').
Proof.
  intros W G Mono Safe.
  destruct (registry_split _ k r W G) as (before & after & E & Nb & Na).
  assert (Sb : forall k' r', In (k', r') before -> never_throws_nullish r').
  { intros k' r' I. apply (Safe k'). unfold JSMap.entries in E. rewrite E.
    apply in_or_app. now left. }
  assert (Sa : forall k' r', In (k', r') after -> never_throws_nullish r').
  { intros k' r' I. apply (Safe k'). unfold JSMap.entries in E. rewrite E.
    apply in_or_app. right. now right. }
  assert (Sk : never_throws_nullish r).
  { apply (Safe k). now apply JSMapFacts.get_Some_In. }
  rewrite triggerHealing_normal by exact Safe. rewrite E.
  rewrite heal_all_app by exact Sb.
  rewrite heal_all_cons by now apply heal_one_contained.
  set (s1 := heal_all healthStatus before s).
  set (s2 := heal_all healthStatus [(k, r)] s1).
  exists s1, s2, (heal_all healthStatus after s2).
  assert (Mb : forall k' r', In (k', r') before -> clock_monotone r').
  { intros k' r' I. apply (Mono k'). unfold JSMap.entries in E. rewrite E.
    apply in_or_app. now left. }
  assert (Ma : forall k' r', In (k', r') after -> clock_monotone r').
  { intros k' r' I. apply (Mono k'). unfold JSMap.entries in E. rewrite E.
    apply in_or_app. right. now right. }
  pose proof (heal_all_one healthStatus k r s1) as Step. fold s2 in Step.
  destruct (heal_all_other healthStatus k before s Nb) as [B1 B2].
  destruct (heal_all_other healthStatus k after s2 Na) as [A1 A2].
  destruct (heal_all_registries healthStatus before s) as [R1 R2].
  destruct (heal_all_registries healthStatus after s2) as [R3 R4].
  destruct (HealStep_registries _ _ _ _ _ Step) as [R5 R6].
  fold s1 in B1, B2, R1, R2.
  repeat split; try assumption; try congruence.
  - apply heal_all_clock. exact Mb.
  - apply heal_all_clock. exact Ma.
Qed.

(** The step of a repair whose action throws something the handler can
    read, and of one whose trigger does. *)
Lemma heal_one_failed healthStatus k r s x data w' :
  trigger r (healthChecks s) healthStatus = Normal true ->
  in_cooldown (JSMap.get k (healingAttempts s)) (now (world s)) (cooldown r) = false ->
  repair r (announced r s) = (Throw x, w') ->
  error_meta x = Normal data ->
  heal_one healthStatus (k, r) s =
  (Normal tt,
   log_to error ("❌ Repair failed: " ++ repair_label r)%string (Some data)
     (set_world w' (note_invoked k s))).
Proof.
  intros T C R E. unfold heal_one. run_monad. rewrite T. cbn [negb]. run_monad.
  rewrite C. run_monad. cbn [world set_world note_invoked].
  unfold announced in R. rewrite R. run_monad. rewrite E. reflexivity.
Qed.

Lemma heal_one_trigger_threw healthStatus k r s x data :
  trigger r (healthChecks s) healthStatus = Throw x ->
  error_meta x = Normal data ->
  heal_one healthStatus (k, r) s =
  (Normal tt,
   log_to error ("❌ Repair failed: " ++ repair_label r)%string (Some data) s).
Proof.
  intros T E. unfold heal_one. run_monad. rewrite T. run_monad. rewrite E. reflexivity.
Qed.

(** C1, as the code has it. Let a registered repair be reached in a pass of
    [triggerHealing] with its trigger true on the snapshot and its cooldown
    over (or no run recorded), and let its action throw something other
    than [null] and [undefined], so that the handler can read its message
    and its stack ([data] is what it logs).  Then the exception is caught
    and logged, and the pass goes on with the remaining repairs (and
    returns normally, if none of them throws [null] or [undefined]); the
    failed run records no time stamp: the entry of the repair in
    [healingAttempts] is after the step, and at the end of the pass, what
    it was before. *)
Theorem failed_repair_is_caught (healthStatus : HealthStatus) (s s1 : Sys)
  (before after : list (string * AutoRepair)) (k : string) (r : AutoRepair)
  (x : Thrown) (data : Value) (w' : World) :
  let s2 := log_to error ("❌ Repair failed: " ++ repair_label r)%string
                   (Some data) (set_world w' (note_invoked k s1)) in
  JSMap.wf (autoRepairs s) ->
  JSMap.entries (autoRepairs s) = before ++ (k, r) :: after ->
  pass healthStatus before s = (Normal tt, s1) ->
  trigger r (healthChecks s1) healthStatus = Normal true ->
  (JSMap.get k (healingAttempts s1) = None \/
   exists t0, JSMap.get k (healingAttempts s1) = Some t0 /\
              cooldown r <= now (world s1) - t0) ->
  repair r (announced r s1) = (Throw x, w') ->
  error_meta x = Normal data ->
  triggerHealing healthStatus s = pass healthStatus after s2 /\
  ((forall k' r', In (k', r') after -> never_throws_nullish r') ->
   fst (triggerHealing healthStatus s) = Normal tt) /\
  healingAttempts s2 = healingAttempts s1 /\
  JSMap.get k (healingAttempts (snd (triggerHealing healthStatus s)))
  = JSMap.get k (healingAttempts s).
Proof.
  intros s2 W E Reach T C R M.
  assert (Cool : in_cooldown (JSMap.get k (healingAttempts s1)) (now (world s1))
                             (cooldown r) = false).
  { destruct C as [-> | (t0 & -> & Hle)]; [reflexivity|].
    unfold in_cooldown. apply andb_false_iff. right. apply Z.ltb_ge. exact Hle. }
  assert (Run : triggerHealing healthStatus s = pass healthStatus after s2).
  { rewrite triggerHealing_pass, E.
    rewrite (pass_app _ _ _ _ _ Reach).
    apply pass_cons. exact (heal_one_failed _ _ _ _ _ _ _ T Cool R M). }
  assert (Nk : ~ In k (JSMap.keys before) /\ ~ In k (JSMap.keys after)).
  { unfold JSMap.wf, JSMap.keys, JSMap.entries in *. rewrite E in W.
    rewrite map_app in W. simpl in W. split; intros I;
      apply NoDup_remove_2 in W; apply W; apply in_or_app; tauto. }
  split; [exact Run|]. split; [|split].
  - intros Safe. rewrite Run, pass_normal by exact Safe. reflexivity.
  - reflexivity.
  - rewrite Run, pass_state.
    destruct (heal_all_other healthStatus k after s2 (proj2 Nk)) as [A _].
    destruct (heal_all_other healthStatus k before s (proj1 Nk)) as [B _].
    rewrite A. cbn [s2 log_to healingAttempts set_world note_invoked].
    rewrite <- B. rewrite <- pass_state, Reach. reflexivity.
Qed.

Example flaky_pass :
  let s' := snd (triggerHealing all_unhealthy flaky_system) in
  invoked s' = ["memory_cleanup"; "flaky"; "response_optimization"] /\
  JSMap.keys (healingAttempts s') = ["memory_cleanup"; "response_optimization"].
Proof. vm_compute. split; reflexivity. Qed.

Lemma failed_repair_is_caught_flaky_system :
  let before := [("memory_cleanup", memory_cleanup)] in
  let after := [("response_optimization", response_optimization)] in
  let s1 := heal_all all_unhealthy before flaky_system in
  let w' := announced failing_repair s1 in
  let e := {| message := "cannot repair"; stack := "" |} in
  let s2 := log_to error ("❌ Repair failed: " ++ repair_label failing_repair)%string
                   (Some (Error_value e)) (set_world w' (note_invoked "flaky" s1)) in
  triggerHealing all_unhealthy flaky_system = pass all_unhealthy after s2 /\
  ((forall k' r', In (k', r') after -> never_throws_nullish r') ->
   fst (triggerHealing all_unhealthy flaky_system) = Normal tt) /\
  healingAttempts s2 = healingAttempts s1 /\
  JSMap.get "flaky" (healingAttempts (snd (triggerHealing all_unhealthy flaky_system)))
  = JSMap.get "flaky" (healingAttempts flaky_system).
Proof.
  intros before after s1 w' e s2.
  apply (failed_repair_is_caught all_unhealthy flaky_system s1 before after "flaky"
           failing_repair (Thrown_error e) (Error_value e) w').
  - unfold JSMap.wf. simpl. repeat constructor; simpl; intuition discriminate.
  - reflexivity.
  - apply pass_normal. intros k r [I|[]]. injection I as _ <-.
    split; intros; discriminate.
  - reflexivity.
  - left. vm_compute. reflexivity.
  - reflexivity.
  - reflexivity.
Defined.

(** C1, as stated, fails: in a pass in which [failing_repair] is due (its
    trigger is true and it has never run) and its action throws, no time
    stamp is recorded for it.  And when the action of a repair that is due
    is rejected with [null], as that of [rejecting_repair] is, the handler
    throws in its turn: the pass ends there, and the repair after it,
    which is due as well, is not reached. *)
Lemma failed_repair_records_no_attempt :
  (trigger failing_repair (healthChecks flaky_system) all_unhealthy = Normal true /\
   JSMap.get "flaky" (healingAttempts flaky_system) = None /\
   (forall w, exists e, repair failing_repair w = (Throw e, w)) /\
   In "flaky" (invoked (snd (triggerHealing all_unhealthy flaky_system))) /\
   ~ exists t,
       JSMap.get "flaky" (healingAttempts (snd (triggerHealing all_unhealthy flaky_system)))
       = Some t) /\
  (trigger rejecting_repair (healthChecks rejecting_system) all_unhealthy = Normal true /\
   JSMap.get "rejecting" (healingAttempts rejecting_system) = None /\
   (forall w, repair rejecting_repair w = (Throw (Thrown_value VNull), w)) /\
   fst (triggerHealing all_unhealthy rejecting_system)
   = Throw (Thrown_error (cannot_read "message" VNull)) /\
   In "rejecting" (invoked (snd (triggerHealing all_unhealthy rejecting_system))) /\
   trigger response_optimization (healthChecks rejecting_system) all_unhealthy
   = Normal true /\
   JSMap.get "response_optimization" (healingAttempts rejecting_system) = None /\
   ~ In "response_optimization"
        (invoked (snd (triggerHealing all_unhealthy rejecting_system)))).
Proof.
  split.
  - split; [reflexivity|]. split; [reflexivity|].
    split; [intros w; eexists; reflexivity|].
    split; [vm_compute; tauto|].
    intros [t H]. vm_compute in H. discriminate H.
  - split; [reflexivity|]. split; [reflexivity|].
    split; [reflexivity|]. split; [vm_compute; reflexivity|].
    split; [vm_compute; tauto|]. split; [reflexivity|]. split; [reflexivity|].
    vm_compute. intuition discriminate.
Qed.

Section Cooldown.

Variable healthStatus : HealthStatus.
Variables (k : string) (r : AutoRepair).

Lemma Due_same s s' :
  Due healthStatus k r s -> healthChecks s' = healthChecks s -> autoRepairs s' = autoRepairs s ->
  Due healthStatus k r s'.
Proof.
  intros [W G T Succ C Safe] Hc Hr. constructor; rewrite ?Hc, ?Hr; assumption.
Qed.

(** A pass in which the repair is not held back by its cooldown executes
    its action once and records the time at which the action ended. *)
Lemma pass_runs (s : Sys) :
  Due healthStatus k r s ->
  (JSMap.get k (healingAttempts s) = None \/
   exists t0, JSMap.get k (healingAttempts s) = Some t0 /\
              cooldown r <= now (world s) - t0) ->
  exists s' t',
    triggerHealing healthStatus s = (Normal tt, s') /\
    Due healthStatus k r s' /\
    JSMap.get k (healingAttempts s') = Some t' /\
    now (world s) <= t' /\
    executions k s' = S (executions k s).
Proof.
  intros D Free. pose proof D as [W G T Succ C Safe].
  destruct (pass_split healthStatus s k r W G C Safe)
    as (s1 & s2 & s' & Run & Step & Hc1 & Hc' & Hr' & A1 & X1 & A2 & X2 & L1 & L2).
  assert (Cool : in_cooldown (JSMap.get k (healingAttempts s1)) (now (world s1))
                             (cooldown r) = false).
  { rewrite A1. destruct Free as [-> | (t0 & -> & Hle)]; [reflexivity|].
    unfold in_cooldown. apply andb_false_iff. right. apply Z.ltb_ge. lia. }
  rewrite <- Hc1 in T.
  inversion Step as [ | | | | result w0 Ht Hcd Hr Heq | x data w0 Ht Hcd Hr Hm Heq
                     | x x' w0 Ht Hcd Hr Hm Heq];
    try congruence.
  - exists s', (now w0). split; [exact Run|]. split; [|split; [|split]].
    + eapply Due_same; eauto.
    + rewrite A2, <- Heq. cbn. apply JSMapFacts.get_set_same.
    + pose proof (C k r (JSMapFacts.get_Some_In _ _ _ G) (announced r s1)) as M.
      rewrite Hr in M. cbn in M. lia.
    + rewrite X2, <- Heq, <- X1.
      change (executions k (note_invoked k s1) = S (executions k s1)).
      rewrite executions_note. destruct (string_dec k k); [lia | congruence].
  - destruct (Succ (announced r s1)) as [result Hres]. rewrite Hr in Hres.
    discriminate Hres.
  - destruct (Succ (announced r s1)) as [result Hres]. rewrite Hr in Hres.
    discriminate Hres.
Qed.

(** A pass that ends within the cooldown of a recorded run leaves the
    repair alone. *)
Lemma pass_skips (s : Sys) (t0 : Z) :
  Due healthStatus k r s ->
  JSMap.get k (healingAttempts s) = Some t0 ->
  t0 <> 0 ->
  exists s',
    triggerHealing healthStatus s = (Normal tt, s') /\
    Due healthStatus k r s' /\
    (now (world s') - t0 < cooldown r ->
     JSMap.get k (healingAttempts s') = Some t0 /\
     executions k s' = executions k s).
Proof.
  intros D Rec Nz. pose proof D as [W G T Succ C Safe].
  destruct (pass_split healthStatus s k r W G C Safe)
    as (s1 & s2 & s' & Run & Step & Hc1 & Hc' & Hr' & A1 & X1 & A2 & X2 & L1 & L2).
  exists s'. split; [exact Run|]. split; [eapply Due_same; eauto|].
  intros Within.
  pose proof (HealStep_clock _ _ _ _ _ Step (C k r (JSMapFacts.get_Some_In _ _ _ G))) as L.
  assert (Cool : in_cooldown (JSMap.get k (healingAttempts s1)) (now (world s1))
                             (cooldown r) = true).
  { rewrite A1, Rec. unfold in_cooldown. apply andb_true_iff. split.
    - apply negb_true_iff. now apply Z.eqb_neq.
    - apply Z.ltb_lt. lia. }
  rewrite <- Hc1 in T.
  inversion Step as [ | | | Ht Hcd Heq | result w0 Ht Hcd Hr Heq
                     | x data w0 Ht Hcd Hr Hm Heq | x x' w0 Ht Hcd Hr Hm Heq];
    try congruence.
  split.
  - rewrite A2, <- Heq. cbn. rewrite A1. exact Rec.
  - rewrite X2, <- Heq, <- X1. reflexivity.
Qed.

Lemma Due_at_time t s : Due healthStatus k r s -> Due healthStatus k r (at_time t s).
Proof. intros D. eapply Due_same; eauto. Qed.

End Cooldown.

(** C3, as the code has it. Take a registered repair with positive cooldown
    that has never run and whose action returns normally, a snapshot on
    which it triggers, a clock that is past the epoch and that no action
    turns back, and a registry in which no trigger and no action throws
    [null] or [undefined] (that would end the pass where it happens).
    The first pass executes the action and records a time stamp
    [t1].  If a second pass ends less than the cooldown after [t1], the
    action has been executed exactly once after both passes; a third pass
    that starts when the cooldown has elapsed since [t1] executes it again. *)
Theorem cooldown_limits_repairs (healthStatus : HealthStatus) (s0 : Sys)
  (k : string) (r : AutoRepair) :
  JSMap.wf (autoRepairs s0) ->
  JSMap.get k (autoRepairs s0) = Some r ->
  0 < cooldown r ->
  JSMap.get k (healingAttempts s0) = None ->
  trigger r (healthChecks s0) healthStatus = Normal true ->
  (forall w, exists result, fst (repair r w) = Normal result) ->
  (forall k' r', In (k', r') (autoRepairs s0) -> clock_monotone r') ->
  (forall k' r', In (k', r') (autoRepairs s0) -> never_throws_nullish r') ->
  0 < now (world s0) ->
  exists s1 t1,
    triggerHealing healthStatus s0 = (Normal tt, s1) /\
    JSMap.get k (healingAttempts s1) = Some t1 /\
    executions k s1 = S (executions k s0) /\
    forall second, exists s2,
      triggerHealing healthStatus (at_time second s1) = (Normal tt, s2) /\
      (now (world s2) - t1 < cooldown r ->
       executions k s2 = S (executions k s0) /\
       forall third, cooldown r <= third - t1 ->
         exists s3,
           triggerHealing healthStatus (at_time third s2) = (Normal tt, s3) /\
           executions k s3 = S (S (executions k s0))).
Proof.
  intros W G Pos Never T Succ Mono Safe Epoch.
  assert (D0 : Due healthStatus k r s0) by (constructor; assumption).
  destruct (pass_runs healthStatus k r s0 D0 (or_introl Never))
    as (s1 & t1 & Run1 & D1 & Rec1 & Late1 & X1).
  exists s1, t1. split; [exact Run1|]. split; [exact Rec1|]. split; [exact X1|].
  intros second.
  destruct (pass_skips healthStatus k r (at_time second s1) t1
              (Due_at_time _ _ _ second s1 D1) Rec1 ltac:(lia))
    as (s2 & Run2 & D2 & Skip).
  exists s2. split; [exact Run2|]. intros Within.
  destruct (Skip Within) as [Rec2 X2]. split; [rewrite X2; exact X1|].
  intros third Elapsed.
  destruct (pass_runs healthStatus k r (at_time third s2)
              (Due_at_time _ _ _ third s2 D2))
    as (s3 & t3 & Run3 & _ & _ & _ & X3).
  { right. exists t1. split; [exact Rec2 | cbn; lia]. }
  exists s3. split; [exact Run3|]. rewrite X3.
  change (executions k (at_time third s2)) with (executions k s2).
  rewrite X2. change (executions k (at_time second s1)) with (executions k s1).
  now rewrite X1.
Qed.

Lemma registered_clock_monotone k r :
  In (k, r) registered_repairs -> clock_monotone r.
Proof.
  unfold registered_repairs. cbn.
  intros [H|[H|[H|[H|[]]]]]; injection H as _ <-; intros w.
  - cbn -[Nat.ltb]. destruct (gc w); cbn -[Nat.ltb];
      destruct (1000 <? List.length (performanceMetrics w))%nat; cbn; lia.
  - cbn. lia.
  - cbn [repair error_mitigation snd]. rewrite now_report_high. cbn. lia.
  - cbn. lia.
Qed.

Lemma cooldown_limits_repairs_memory_cleanup :
  exists s1 t1,
    triggerHealing memory_unhealthy hot_system = (Normal tt, s1) /\
    JSMap.get "memory_cleanup" (healingAttempts s1) = Some t1 /\
    executions "memory_cleanup" s1 = S (executions "memory_cleanup" hot_system) /\
    forall second, exists s2,
      triggerHealing memory_unhealthy (at_time second s1) = (Normal tt, s2) /\
      (now (world s2) - t1 < cooldown memory_cleanup ->
       executions "memory_cleanup" s2 = S (executions "memory_cleanup" hot_system) /\
       forall third, cooldown memory_cleanup <= third - t1 ->
         exists s3,
           triggerHealing memory_unhealthy (at_time third s2) = (Normal tt, s3) /\
           executions "memory_cleanup" s3
           = S (S (executions "memory_cleanup" hot_system))).
Proof.
  apply (cooldown_limits_repairs memory_unhealthy hot_system "memory_cleanup"
           memory_cleanup).
  - exact hot_system_wf.
  - reflexivity.
  - reflexivity.
  - reflexivity.
  - reflexivity.
  - intros w. eexists. reflexivity.
  - intros k' r' I. apply (registered_clock_monotone k' r'). exact I.
  - intros k' r' I. apply (registered_contained k' r'). exact I.
  - reflexivity.
Defined.

Example three_passes_memory_cleanup :
  let s1 := snd (triggerHealing memory_unhealthy hot_system) in
  let s2 := snd (triggerHealing memory_unhealthy (at_time 1700000299999 s1)) in
  let s3 := snd (triggerHealing memory_unhealthy (at_time 1700000300000 s2)) in
  (invoked s1, invoked s2, invoked s3)
  = (["memory_cleanup"], ["memory_cleanup"], ["memory_cleanup"; "memory_cleanup"]).
Proof. vm_compute. reflexivity. Qed.

(** C3, as stated, fails for a repair whose action throws: [failing_repair]
    has a positive cooldown and has never run, the snapshot triggers it, the
    second pass comes one second after the first, and its action is executed
    in both passes.  It also fails for a repair that stands after one that
    is rejected with [null]: in [rejecting_system] both passes end at
    [rejecting_repair], and [response_optimization], with its positive
    cooldown, never run and triggered by the snapshot, is not executed at
    all. *)
Lemma failing_repair_runs_in_every_pass :
  (let s1 := snd (triggerHealing all_unhealthy flaky_system) in
   let s2 := snd (triggerHealing all_unhealthy (at_time (now (world s1) + 1000) s1)) in
   0 < cooldown failing_repair /\
   JSMap.get "flaky" (healingAttempts flaky_system) = None /\
   trigger failing_repair (healthChecks flaky_system) all_unhealthy = Normal true /\
   now (world s2) - now (world s1) < cooldown failing_repair /\
   executions "flaky" flaky_system = 0%nat /\
   executions "flaky" s2 = 2%nat /\
   executions "flaky" s2 <> 1%nat) /\
  (let s1 := snd (triggerHealing all_unhealthy rejecting_system) in
   let s2 := snd (triggerHealing all_unhealthy (at_time (now (world s1) + 1000) s1)) in
   0 < cooldown response_optimization /\
   JSMap.get "response_optimization" (healingAttempts rejecting_system) = None /\
   trigger response_optimization (healthChecks rejecting_system) all_unhealthy
   = Normal true /\
   now (world s2) - now (world s1) < cooldown response_optimization /\
   executions "response_optimization" rejecting_system = 0%nat /\
   executions "response_optimization" s2 = 0%nat /\
   executions "response_optimization" s2 <> 1%nat).
Proof.
  split; vm_compute; repeat split; congruence.
Qed.

(** ** Binary64 arithmetic

    The memory check divides two byte counts and multiplies by 100 in
    binary64.  The lemmas below follow [SpecFloat] through both roundings:
    first the shift and the rounding of [binary_round_aux], then the
    conversion of an integer, the quotient of two integers and the product
    by 100, each compared with the doubles next to 0.85 and to 85. *)

Section Digits.

(** [digits2_pos p] is the number of binary digits of [p]. *)
Lemma digits2_pos_bounds (p : positive) :
  2 ^ (Zpos (digits2_pos p) - 1) <= Zpos p < 2 ^ Zpos (digits2_pos p).
Proof.
  induction p as [p IH|p IH|]; simpl digits2_pos.
  - rewrite Pos2Z.inj_succ, Pos2Z.inj_xI.
    replace (Z.succ (Zpos (digits2_pos p)) - 1) with (Z.succ (Zpos (digits2_pos p) - 1)) by lia.
    rewrite !Z.pow_succ_r by lia. lia.
  - rewrite Pos2Z.inj_succ. change (Zpos p~0) with (2 * Zpos p).
    replace (Z.succ (Zpos (digits2_pos p)) - 1) with (Z.succ (Zpos (digits2_pos p) - 1)) by lia.
    rewrite !Z.pow_succ_r by lia. lia.
  - simpl. lia.
Qed.

Lemma Zdigits2_bounds (m : Z) :
  0 < m -> 2 ^ (Zdigits2 m - 1) <= m < 2 ^ Zdigits2 m.
Proof.
  destruct m as [|p|p]; try lia. intros _. apply digits2_pos_bounds.
Qed.

(** The number of digits is determined by the two powers of two around. *)
Lemma Zdigits2_unique (m d : Z) :
  0 < d -> 2 ^ (d - 1) <= m < 2 ^ d -> Zdigits2 m = d.
Proof.
  intros Hd [Lo Hi].
  assert (Pm : 0 < m) by (pose proof (Z.pow_pos_nonneg 2 (d - 1)); lia).
  pose proof (Zdigits2_bounds m Pm) as [Lo' Hi'].
  assert (Pd : 0 < Zdigits2 m) by (destruct m; simpl; lia).
  destruct (Z.lt_trichotomy (Zdigits2 m) d) as [L|[E|G]]; [|exact E|].
  - exfalso. assert (2 ^ Zdigits2 m <= 2 ^ (d - 1)) by (apply Z.pow_le_mono_r; lia). lia.
  - exfalso. assert (2 ^ d <= 2 ^ (Zdigits2 m - 1)) by (apply Z.pow_le_mono_r; lia). lia.
Qed.

End Digits.

Section Shift.

(** [iter_pos] is iteration. *)
Lemma iter_pos_nat {A} (f : A -> A) (n : positive) (x : A) :
  iter_pos f n x = Nat.iter (Pos.to_nat n) f x.
Proof.
  revert x. induction n as [n IH|n IH|]; intros x; simpl iter_pos.
  - rewrite !IH, Pos2Nat.inj_xI.
    replace (S (2 * Pos.to_nat n)) with (Pos.to_nat n + (Pos.to_nat n + 1))%nat by lia.
    rewrite !Nat.iter_add. reflexivity.
  - rewrite !IH, Pos2Nat.inj_xO.
    replace (2 * Pos.to_nat n)%nat with (Pos.to_nat n + Pos.to_nat n)%nat by lia.
    rewrite Nat.iter_add. reflexivity.
  - reflexivity.
Qed.

Lemma shr_1_spec (mrs : shr_record) :
  0 <= shr_m mrs ->
  shr_m (shr_1 mrs) = shr_m mrs / 2 /\
  (lossless mrs -> shr_m mrs mod 2 = 0 -> lossless (shr_1 mrs)).
Proof.
  destruct mrs as [m r s]. simpl shr_m. intros Hm.
  destruct m as [|[p|p|]|p]; try lia; unfold lossless; simpl.
  - split; [reflexivity|]. intros [-> ->] _. auto.
  - split.
    + change (Zpos p~1) with (2 * Zpos p + 1).
      apply Z.div_unique with (r := 1); lia.
    + intros _ H. exfalso. change (Zpos p~1) with (2 * Zpos p + 1) in H.
      replace (2 * Zpos p + 1) with (1 + Zpos p * 2) in H by lia.
      rewrite Z.mod_add in H by lia. discriminate H.
  - split.
    + change (Zpos p~0) with (2 * Zpos p).
      apply Z.div_unique with (r := 0); lia.
    + intros [-> ->] _. auto.
  - split; [reflexivity|]. intros _ H. discriminate H.
Qed.

Lemma shr_1_nonneg mrs : 0 <= shr_m mrs -> 0 <= shr_m (shr_1 mrs).
Proof.
  intros H. rewrite (proj1 (shr_1_spec mrs H)). apply Z.div_pos; lia.
Qed.

(** [n] steps divide the mantissa by [2^n], and lose nothing if it is a
    multiple of [2^n] and nothing was lost before. *)
Lemma shr_iter_spec (n : nat) (mrs : shr_record) :
  0 <= shr_m mrs ->
  shr_m (Nat.iter n shr_1 mrs) = shr_m mrs / 2 ^ Z.of_nat n /\
  (lossless mrs -> shr_m mrs mod 2 ^ Z.of_nat n = 0 -> lossless (Nat.iter n shr_1 mrs)).
Proof.
  intros Hm. induction n as [|n [IHm IHe]].
  - simpl. rewrite Z.div_1_r. auto.
  - rewrite Nat2Z.inj_succ, Z.pow_succ_r by lia. simpl Nat.iter.
    assert (P : 0 < 2 ^ Z.of_nat n) by (apply Z.pow_pos_nonneg; lia).
    assert (Nn : 0 <= shr_m (Nat.iter n shr_1 mrs)).
    { rewrite IHm. apply Z.div_pos; lia. }
    destruct (shr_1_spec (Nat.iter n shr_1 mrs) Nn) as [Sm Se].
    split.
    + rewrite Sm, IHm, Z.div_div by lia. f_equal. lia.
    + intros Ex Hmod. apply Se.
      * apply IHe; [exact Ex|].
        rewrite (Z.mul_comm 2) in Hmod.
        rewrite Z.rem_mul_r in Hmod by lia.
        pose proof (Z.mod_pos_bound (shr_m mrs) (2 ^ Z.of_nat n) P).
        pose proof (Z.mod_pos_bound (shr_m mrs / 2 ^ Z.of_nat n) 2 ltac:(lia)).
        nia.
      * rewrite IHm. rewrite (Z.mul_comm 2) in Hmod.
        rewrite Z.rem_mul_r in Hmod by lia.
        pose proof (Z.mod_pos_bound (shr_m mrs) (2 ^ Z.of_nat n) P).
        pose proof (Z.mod_pos_bound (shr_m mrs / 2 ^ Z.of_nat n) 2 ltac:(lia)).
        nia.
Qed.

End Shift.

Section Round.

Lemma fexp_normal (e : Z) :
  -1074 <= e - 53 -> fexp Float64.prec Float64.emax e = e - 53.
Proof. unfold fexp, emin, Float64.prec, Float64.emax. lia. Qed.

Lemma shr_m_of_loc m l : shr_m (shr_record_of_loc m l) = m.
Proof. destruct l as [|[]]; reflexivity. Qed.

(** The shift of [binary_round_aux] on a mantissa of at least 53 digits, in
    the range of the normal numbers: the mantissa is cut down to 53 digits. *)
Lemma shr_fexp_spec (m e : Z) (l : location) :
  0 < m -> 53 <= Zdigits2 m -> -1074 <= Zdigits2 m + e - 53 ->
  exists mrs,
    shr_fexp Float64.prec Float64.emax m e l = (mrs, e + (Zdigits2 m - 53)) /\
    shr_m mrs = m / 2 ^ (Zdigits2 m - 53) /\
    (l = loc_Exact -> m mod 2 ^ (Zdigits2 m - 53) = 0 -> lossless mrs).
Proof.
  intros Pm Hd Hr. unfold shr_fexp. rewrite fexp_normal by lia.
  replace (Zdigits2 m + e - 53 - e) with (Zdigits2 m - 53) by lia.
  destruct (Zdigits2 m - 53) as [|p|p] eqn:En; try lia; unfold shr.
  - eexists. split; [f_equal; lia|]. rewrite shr_m_of_loc, Z.div_1_r.
    split; [reflexivity|]. intros -> _. split; reflexivity.
  - rewrite iter_pos_nat.
    destruct (shr_iter_spec (Pos.to_nat p) (shr_record_of_loc m l)) as [Sm Se].
    { rewrite shr_m_of_loc. lia. }
    rewrite positive_nat_Z, shr_m_of_loc in Sm, Se.
    eexists. split; [reflexivity|]. split; [exact Sm|].
    intros -> Hmod. apply Se; [split; reflexivity | exact Hmod].
Qed.

Lemma round_nearest_even_cases m mrs :
  shr_m mrs = m ->
  let m' := round_nearest_even (shr_m mrs) (loc_of_shr_record mrs) in
  (m' = m \/ m' = m + 1) /\ (lossless mrs -> m' = m).
Proof.
  intros <-. destruct mrs as [m [|] [|]]; unfold lossless; simpl; split;
    try (intros [? ?]; congruence); try tauto.
  destruct (Z.even m); tauto.
Qed.

(** What [binary_round_aux] returns for a positive mantissa [m] of at least
    53 digits, away from underflow and overflow: the mantissa cut down to 53
    digits, or that plus one; never plus one when nothing is cut off. *)
Lemma binary_round_aux_spec (m e : Z) (l : location) :
  0 < m -> 53 <= Zdigits2 m ->
  -1074 <= Zdigits2 m + e - 53 -> Zdigits2 m + e - 53 < 971 ->
  let n := Zdigits2 m - 53 in
  exists (M : positive) (E : Z),
    binary_round_aux Float64.prec Float64.emax false m e l = S754_finite false M E /\
    2 ^ 52 <= Zpos M < 2 ^ 53 /\
    ((E = e + n /\ (Zpos M = m / 2 ^ n \/ Zpos M = m / 2 ^ n + 1) /\
      (l = loc_Exact -> m mod 2 ^ n = 0 -> Zpos M = m / 2 ^ n))
     \/
     (E = e + n + 1 /\ Zpos M = 2 ^ 52 /\ m / 2 ^ n + 1 = 2 ^ 53 /\
      ~ (l = loc_Exact /\ m mod 2 ^ n = 0))).
Proof.
  intros Pm Hd Hlo Hhi n.
  destruct (shr_fexp_spec m e l Pm Hd Hlo) as (mrs & Hshr & Hm & Hex).
  fold n in Hshr, Hm, Hex.
  (* the shifted mantissa has exactly 53 digits *)
  assert (Hm1 : 2 ^ 52 <= m / 2 ^ n < 2 ^ 53).
  { pose proof (Zdigits2_bounds m Pm) as [Lo Hi].
    assert (Pn : 0 < 2 ^ n) by (apply Z.pow_pos_nonneg; lia).
    replace (Zdigits2 m - 1) with (52 + n) in Lo by lia.
    replace (Zdigits2 m) with (53 + n) in Hi by lia.
    rewrite Z.pow_add_r in Lo, Hi by lia.
    split.
    - apply Z.div_le_lower_bound; lia.
    - apply Z.div_lt_upper_bound; lia. }
  unfold binary_round_aux. rewrite Hshr.
  destruct (round_nearest_even_cases (m / 2 ^ n) mrs Hm) as [Hcases Hexact].
  set (m2 := round_nearest_even (shr_m mrs) (loc_of_shr_record mrs)) in *.
  assert (Hm2 : (2 ^ 52 <= m2 < 2 ^ 53) \/ m2 = 2 ^ 53) by lia.
  destruct Hm2 as [In53 | Carry].
  - (* no carry *)
    assert (D2 : Zdigits2 m2 = 53) by (apply Zdigits2_unique; [lia | exact In53]).
    destruct (shr_fexp_spec m2 (e + n) loc_Exact) as (mrs2 & Hshr2 & Hm2 & _);
      [lia | lia | lia |].
    rewrite Hshr2, Hm2, D2. replace (53 - 53) with 0 by lia.
    rewrite Z.pow_0_r, Z.div_1_r.
    destruct m2 as [|M|M] eqn:EM; try lia.
    exists M, (e + n + 0).
    replace (e + n + 0 <=? Float64.emax - Float64.prec) with true
      by (symmetry; apply Z.leb_le; unfold Float64.emax, Float64.prec; lia).
    split; [reflexivity|]. split; [exact In53|]. left.
    split; [lia|]. split; [exact Hcases|].
    intros Hl Hmod. apply Hexact. now apply Hex.
  - (* carry into the next binade *)
    assert (D2 : Zdigits2 m2 = 54).
    { apply Zdigits2_unique; [lia|]. rewrite Carry. simpl. lia. }
    destruct (shr_fexp_spec m2 (e + n) loc_Exact) as (mrs2 & Hshr2 & Hm2 & _);
      [lia | lia | lia |].
    rewrite Hshr2, Hm2, D2, Carry. replace (54 - 53) with 1 by lia.
    change (2 ^ 53 / 2 ^ 1) with (2 ^ 52).
    exists (4503599627370496%positive), (e + n + 1).
    replace (e + n + 1 <=? Float64.emax - Float64.prec) with true
      by (symmetry; apply Z.leb_le; unfold Float64.emax, Float64.prec; lia).
    split; [reflexivity|]. split; [simpl; lia|]. right.
    split; [reflexivity|]. split; [reflexivity|]. split; [lia|].
    intros [Hl Hmod]. specialize (Hexact (Hex Hl Hmod)). lia.
Qed.

End Round.

Section Conversion.

Lemma Pos_iter_xO (p k : positive) :
  Zpos (Pos.iter xO p k) = Zpos p * 2 ^ Zpos k.
Proof.
  induction k as [|k IH] using Pos.peano_ind.
  - simpl. lia.
  - rewrite Pos.iter_succ, Pos2Z.inj_succ, Z.pow_succ_r by lia.
    change (Zpos (Pos.iter xO p k)~0) with (2 * Zpos (Pos.iter xO p k)).
    rewrite IH. lia.
Qed.

(** An integer below [2^53] is a double: its digits, moved up to fill the
    53 digits of the mantissa. *)
Lemma of_Z_exact (z : Z) :
  0 < z < 2 ^ 53 ->
  exists M : positive,
    Float64.of_Z z = S754_finite false M (Zdigits2 z - 53) /\
    Zpos M = z * 2 ^ (53 - Zdigits2 z) /\
    2 ^ 52 <= Zpos M < 2 ^ 53.
Proof.
  intros [Pz Hz]. destruct z as [|p|p]; try lia.
  pose proof (digits2_pos_bounds p) as [Lo Hi].
  assert (Hd : Zpos (digits2_pos p) <= 53).
  { destruct (Z_le_gt_dec (Zpos (digits2_pos p)) 53) as [L|G]; [exact L|].
    exfalso. assert (2 ^ 53 <= 2 ^ (Zpos (digits2_pos p) - 1))
      by (apply Z.pow_le_mono_r; lia). lia. }
  set (d := Zpos (digits2_pos p)) in *.
  assert (Scaled : 2 ^ 52 <= Zpos p * 2 ^ (53 - d) < 2 ^ 53).
  { assert (E52 : 2 ^ 52 = 2 ^ (d - 1) * 2 ^ (53 - d))
      by (rewrite <- Z.pow_add_r by lia; f_equal; lia).
    assert (E53 : 2 ^ 53 = 2 ^ d * 2 ^ (53 - d))
      by (rewrite <- Z.pow_add_r by lia; f_equal; lia).
    assert (0 < 2 ^ (53 - d)) by (apply Z.pow_pos_nonneg; lia).
    rewrite E52, E53.
    split.
    - apply Z.mul_le_mono_nonneg_r; lia.
    - apply Z.mul_lt_mono_pos_r; lia. }
  unfold Float64.of_Z, binary_normalize, binary_round, shl_align.
  rewrite fexp_normal by (fold d; lia). fold d.
  assert (Aligned : exists mz : positive,
             (match d + 0 - 53 - 0 with
              | Zneg k => (Pos.iter xO p k, d + 0 - 53)
              | _ => (p, 0)
              end) = (mz, d - 53) /\ Zpos mz = Zpos p * 2 ^ (53 - d)).
  { destruct (d + 0 - 53 - 0) as [|k|k] eqn:Ek; try lia.
    - exists p. split; [f_equal; lia|].
      assert (Zd : 53 - d = 0) by lia. rewrite Zd. lia.
    - exists (Pos.iter xO p k). split.
      + f_equal; lia.
      + rewrite Pos_iter_xO. f_equal; f_equal; lia. }
  destruct Aligned as (mz & -> & Hmz).
  assert (Dmz : Zdigits2 (Zpos mz) = 53).
  { apply Zdigits2_unique; [lia|]. rewrite Hmz. exact Scaled. }
  destruct (binary_round_aux_spec (Zpos mz) (d - 53) loc_Exact) as (M & E & Hr & HM & Hc);
    [lia | lia | lia | lia |].
  rewrite Dmz in Hc. replace (53 - 53) with 0 in Hc by lia.
  rewrite Z.pow_0_r, Z.div_1_r, Z.mod_1_r in Hc.
  exists M. rewrite Hr.
  destruct Hc as [(-> & _ & Hex) | (_ & _ & _ & Hne)].
  - specialize (Hex eq_refl eq_refl). change (Zdigits2 (Zpos p)) with d.
    split; [f_equal; lia|]. split; [lia|]. exact HM.
  - exfalso. apply Hne. split; reflexivity.
Qed.

End Conversion.

Section Division.

Lemma new_location_exact (b : Z) : new_location b 0 = loc_Exact.
Proof.
  unfold new_location, new_location_even, new_location_odd.
  destruct (Z.even b); reflexivity.
Qed.

Lemma new_location_inexact (b r : Z) : new_location b r = loc_Exact -> r = 0.
Proof.
  unfold new_location, new_location_even, new_location_odd.
  destruct (Z.even b); destruct (r =? 0) eqn:E; try discriminate;
    intros _; now apply Z.eqb_eq.
Qed.

Lemma div_eucl_div_mod (a b : Z) : Z.div_eucl a b = (a / b, a mod b).
Proof. unfold Z.div, Z.modulo. destruct (Z.div_eucl a b). reflexivity. Qed.

(** The quotient of two doubles with full mantissas [a] and [b]: [q] is
    the integer quotient of [a * 2^53] by [b], of 53 or 54 digits. *)
Lemma div_spec (a b : positive) (ea eb : Z) :
  2 ^ 52 <= Zpos a < 2 ^ 53 -> 2 ^ 52 <= Zpos b < 2 ^ 53 ->
  -900 <= ea - eb <= 900 ->
  let q := Zpos a * 2 ^ 53 / Zpos b in
  let n := Zdigits2 q - 53 in
  exists (M : positive) (E : Z),
    Float64.div (S754_finite false a ea) (S754_finite false b eb)
    = S754_finite false M E /\
    2 ^ 52 <= Zpos M < 2 ^ 53 /\
    0 <= n <= 1 /\
    2 ^ (52 + n) <= q < 2 ^ (53 + n) /\
    ((E = ea - eb - 53 + n /\ (Zpos M = q / 2 ^ n \/ Zpos M = q / 2 ^ n + 1) /\
      ((Zpos a * 2 ^ 53) mod (Zpos b * 2 ^ n) = 0 -> Zpos M = q / 2 ^ n))
     \/
     (E = ea - eb - 53 + n + 1 /\ Zpos M = 2 ^ 52 /\ q / 2 ^ n + 1 = 2 ^ 53 /\
      (Zpos a * 2 ^ 53) mod (Zpos b * 2 ^ n) <> 0)).
Proof.
  intros Ha Hb He q n.
  assert (Da : Zdigits2 (Zpos a) = 53) by (apply Zdigits2_unique; lia).
  assert (Db : Zdigits2 (Zpos b) = 53) by (apply Zdigits2_unique; lia).
  assert (Hq : 2 ^ 52 <= q < 2 ^ 54).
  { unfold q. split.
    - apply Z.div_le_lower_bound; [lia|]. nia.
    - apply Z.div_lt_upper_bound; [lia|]. nia. }
  assert (Pq : 0 < q) by lia.
  assert (Hn : 0 <= n <= 1 /\ 2 ^ (52 + n) <= q < 2 ^ (53 + n)).
  { unfold n. destruct (Z_lt_ge_dec q (2 ^ 53)) as [L|G].
    - rewrite (Zdigits2_unique q 53) by lia. simpl. lia.
    - rewrite (Zdigits2_unique q 54) by lia. simpl. lia. }
  unfold Float64.div, SFdiv, SFdiv_core_binary.
  rewrite Da, Db.
  replace (53 + ea - (53 + eb)) with (ea - eb) by lia.
  rewrite fexp_normal by lia.
  replace (Z.min (ea - eb - 53) (ea - eb)) with (ea - eb - 53) by lia.
  replace (ea - eb - (ea - eb - 53)) with 53 by lia.
  rewrite Z.shiftl_mul_pow2 by lia.
  rewrite div_eucl_div_mod. cbv beta iota zeta. fold q.
  set (r0 := (Zpos a * 2 ^ 53) mod Zpos b).
  destruct (binary_round_aux_spec q (ea - eb - 53) (new_location (Zpos b) r0))
    as (M & E & Hres & HM & Hc); [lia | fold n; lia | fold n; lia | fold n; lia |].
  fold n in Hc. change (xorb false false) with false.
  exists M, E. split; [exact Hres|]. split; [exact HM|].
  split; [tauto|]. split; [tauto|].
  assert (P2 : 0 < 2 ^ n) by (apply Z.pow_pos_nonneg; lia).
  assert (Exact : (Zpos a * 2 ^ 53) mod (Zpos b * 2 ^ n) = 0 <->
                  new_location (Zpos b) r0 = loc_Exact /\ q mod 2 ^ n = 0).
  { rewrite Z.rem_mul_r by lia. fold q. fold r0.
    pose proof (Z.mod_pos_bound q (2 ^ n) P2).
    pose proof (Z.mod_pos_bound (Zpos a * 2 ^ 53) (Zpos b) ltac:(lia)) as Hr0.
    fold r0 in Hr0.
    split.
    - intros H0. assert (r0 = 0) by nia.
      split; [replace r0 with 0; apply new_location_exact | nia].
    - intros [L Hm]. apply new_location_inexact in L. rewrite L, Hm. lia. }
  destruct Hc as [(HE & Hcases & Hex) | (HE & HMc & Hcarry & Hne)].
  - left. split; [exact HE|]. split; [exact Hcases|].
    intros H. apply Exact in H. destruct H. now apply Hex.
  - right. split; [exact HE|]. split; [exact HMc|]. split; [exact Hcarry|].
    intros H. apply Exact in H. apply Hne. tauto.
Qed.

End Division.

Section Ratio.

Lemma Zdigits2_le_53 (z : Z) : 0 < z < 2 ^ 53 -> 1 <= Zdigits2 z <= 53.
Proof.
  intros [Pz Hz]. pose proof (Zdigits2_bounds z Pz) as [Lo Hi].
  split; [destruct z; simpl; lia|].
  destruct (Z_le_gt_dec (Zdigits2 z) 53) as [L|G]; [exact L|].
  exfalso. assert (2 ^ 53 <= 2 ^ (Zdigits2 z - 1)) by (apply Z.pow_le_mono_r; lia).
  lia.
Qed.

(** The quotient of two integers below [2^53], as doubles: with [s] chosen
    so that [q = hu * 2^s / ht] has 53 or 54 digits, the result is [q],
    cut down to 53 digits and possibly plus one, at exponent [n - s]. *)
Lemma div_of_Z (hu ht : Z) :
  0 < hu < 2 ^ 53 -> 0 < ht < 2 ^ 53 ->
  let s := 53 + Zdigits2 ht - Zdigits2 hu in
  let q := hu * 2 ^ s / ht in
  let n := Zdigits2 q - 53 in
  exists (M : positive) (E : Z),
    Float64.div (Float64.of_Z hu) (Float64.of_Z ht) = S754_finite false M E /\
    2 ^ 52 <= Zpos M < 2 ^ 53 /\
    0 <= n <= 1 /\ 1 <= s <= 105 /\
    2 ^ (52 + n) <= q < 2 ^ (53 + n) /\
    ((E = n - s /\ (Zpos M = q / 2 ^ n \/ Zpos M = q / 2 ^ n + 1) /\
      ((hu * 2 ^ s) mod (ht * 2 ^ n) = 0 -> Zpos M = q / 2 ^ n))
     \/
     (E = n - s + 1 /\ Zpos M = 2 ^ 52 /\ q / 2 ^ n + 1 = 2 ^ 53 /\
      (hu * 2 ^ s) mod (ht * 2 ^ n) <> 0)).
Proof.
  intros Hu Ht s q n.
  destruct (of_Z_exact hu Hu) as (a & Ea & Va & Ba).
  destruct (of_Z_exact ht Ht) as (b & Eb & Vb & Bb).
  pose proof (Zdigits2_le_53 hu Hu) as Dh.
  pose proof (Zdigits2_le_53 ht Ht) as Dt.
  set (dh := Zdigits2 hu) in *. set (dt := Zdigits2 ht) in *.
  set (K := 2 ^ (53 - dt)) in *.
  assert (PK : 0 < K) by (apply Z.pow_pos_nonneg; lia).
  assert (Num : Zpos a * 2 ^ 53 = hu * 2 ^ s * K).
  { rewrite Va. unfold K, s. rewrite <- !Z.mul_assoc, <- !Z.pow_add_r by lia.
    f_equal. f_equal. lia. }
  assert (Quot : Zpos a * 2 ^ 53 / Zpos b = q).
  { rewrite Num, Vb. unfold q. apply Z.div_mul_cancel_r; lia. }
  destruct (div_spec a b (dh - 53) (dt - 53) Ba Bb ltac:(lia))
    as (M & E & Hres & HM & Hn & Hq & Hc).
  rewrite Quot in Hn, Hq, Hc. fold n in Hn, Hq, Hc.
  exists M, E. rewrite Ea, Eb. split; [exact Hres|]. split; [exact HM|].
  split; [exact Hn|]. split; [unfold s; lia|]. split; [exact Hq|].
  assert (P2 : 0 < 2 ^ n) by (apply Z.pow_pos_nonneg; lia).
  assert (Mod : (Zpos a * 2 ^ 53) mod (Zpos b * 2 ^ n) = 0 <->
                (hu * 2 ^ s) mod (ht * 2 ^ n) = 0).
  { rewrite Num, Vb.
    replace (ht * K * 2 ^ n) with (ht * 2 ^ n * K) by lia.
    rewrite Z.mul_mod_distr_r by lia.
    pose proof (Z.mod_pos_bound (hu * 2 ^ s) (ht * 2 ^ n) ltac:(nia)).
    split; intros H0; nia. }
  destruct Hc as [(HE & Hcases & Hex) | (HE & HMc & Hcarry & Hne)].
  - left. split; [unfold s; lia|]. split; [exact Hcases|].
    intros H. apply Hex. now apply Mod.
  - right. split; [unfold s; lia|]. split; [exact HMc|]. split; [exact Hcarry|].
    intros H. apply Hne. now apply Mod.
Qed.

Lemma m85_spec : 20 * m85 + 4 = 17 * 2 ^ 53.
Proof. reflexivity. Qed.

(** A ratio of at least 0.85 is not rounded below the double of 0.85. *)
Lemma div_above (hu ht : Z) :
  0 < hu < 2 ^ 53 -> 0 < ht < 2 ^ 53 -> 17 * ht <= 20 * hu ->
  exists (M : positive) (E : Z),
    Float64.div (Float64.of_Z hu) (Float64.of_Z ht) = S754_finite false M E /\
    2 ^ 52 <= Zpos M < 2 ^ 53 /\ -106 <= E <= 2 /\
    (-53 < E \/ (E = -53 /\ m85 <= Zpos M)).
Proof.
  intros Hu Ht Hratio.
  destruct (div_of_Z hu ht Hu Ht) as (M & E & Hres & HM & Hn & Hs & Hq & Hc).
  set (s := 53 + Zdigits2 ht - Zdigits2 hu) in *.
  set (q := hu * 2 ^ s / ht) in *.
  set (n := Zdigits2 q - 53) in *.
  exists M, E. split; [exact Hres|]. split; [exact HM|]. split; [lia|].
  assert (P2 : 0 < 2 ^ n) by (apply Z.pow_pos_nonneg; lia).
  pose proof m85_spec as H85.
  destruct (Z_lt_ge_dec (n - s) (-53)) as [Small|Big].
  - (* the quotient would be below a half *)
    exfalso.
    assert (Hlt : hu * 2 ^ s < 2 ^ (53 + n) * ht).
    { apply Z.lt_le_trans with ((q + 1) * ht).
      - unfold q. pose proof (Z.mul_succ_div_gt (hu * 2 ^ s) ht ltac:(lia)). lia.
      - apply Z.mul_le_mono_nonneg_r; lia. }
    assert (Hge : 2 ^ (54 + n) <= 2 ^ s) by (apply Z.pow_le_mono_r; lia).
    replace (54 + n) with (Z.succ (53 + n)) in Hge by lia.
    rewrite Z.pow_succ_r in Hge by lia.
    assert (0 < 2 ^ (53 + n)) by (apply Z.pow_pos_nonneg; lia).
    nia.
  - destruct (Z.eq_dec (n - s) (-53)) as [Eq|Ne]; [|destruct Hc as [(-> & _)|(-> & _)]; lia].
    destruct Hc as [(-> & Hcases & _) | (-> & _)]; [|lia].
    right. split; [exact Eq|].
    assert (Hm1 : m85 <= q / 2 ^ n).
    { apply Z.div_le_lower_bound; [lia|].
      unfold q. apply Z.div_le_lower_bound; [lia|].
      replace s with (53 + n) by lia. rewrite Z.pow_add_r by lia. nia. }
    lia.
Qed.

(** A ratio below 0.85, for sizes below [2^48], is rounded to a double
    strictly below the double of 0.85. *)
Lemma div_below (hu ht : Z) :
  0 < hu -> 0 < ht < 2 ^ 48 -> 20 * hu < 17 * ht ->
  exists (M : positive) (E : Z),
    Float64.div (Float64.of_Z hu) (Float64.of_Z ht) = S754_finite false M E /\
    2 ^ 52 <= Zpos M < 2 ^ 53 /\ -106 <= E <= 2 /\
    (E < -53 \/ (E = -53 /\ Zpos M <= m85 - 1)).
Proof.
  intros Hu Ht Hratio.
  assert (Hu53 : 0 < hu < 2 ^ 53) by lia.
  assert (Ht53 : 0 < ht < 2 ^ 53) by lia.
  destruct (div_of_Z hu ht Hu53 Ht53) as (M & E & Hres & HM & Hn & Hs & Hq & Hc).
  set (s := 53 + Zdigits2 ht - Zdigits2 hu) in *.
  set (q := hu * 2 ^ s / ht) in *.
  set (n := Zdigits2 q - 53) in *.
  exists M, E. split; [exact Hres|]. split; [exact HM|]. split; [lia|].
  assert (P2 : 0 < 2 ^ n) by (apply Z.pow_pos_nonneg; lia).
  pose proof m85_spec as H85.
  destruct (Z_lt_ge_dec (-53) (n - s)) as [Big|Small].
  - (* the quotient would be at least one *)
    exfalso.
    assert (Hge : 2 ^ (52 + n) * ht <= hu * 2 ^ s).
    { apply Z.le_trans with (q * ht).
      - apply Z.mul_le_mono_nonneg_r; lia.
      - unfold q. pose proof (Z.mul_div_le (hu * 2 ^ s) ht ltac:(lia)). lia. }
    assert (Hle : 2 ^ s <= 2 ^ (52 + n)) by (apply Z.pow_le_mono_r; lia).
    assert (0 < 2 ^ (52 + n)) by (apply Z.pow_pos_nonneg; lia).
    nia.
  - destruct (Z.eq_dec (n - s) (-53)) as [Eq|Ne].
    + (* the binade of 0.85 *)
      assert (Es : s = 53 + n) by lia.
      assert (Hq1 : q / 2 ^ n = hu * 2 ^ 53 / ht).
      { unfold q. rewrite Z.div_div by lia. rewrite Es, Z.pow_add_r by lia.
        rewrite Z.mul_assoc. apply Z.div_mul_cancel_r; lia. }
      assert (Hnum : hu * 2 ^ 53 <= (m85 - 1) * ht) by lia.
      assert (Hm1 : q / 2 ^ n <= m85 - 1).
      { rewrite Hq1. apply Z.div_le_upper_bound; lia. }
      destruct Hc as [(-> & Hcases & Hex) | (-> & _ & Hcarry & _)].
      * right. split; [exact Eq|].
        destruct (Z.eq_dec (q / 2 ^ n) (m85 - 1)) as [Top|NotTop]; [|lia].
        rewrite Hex; [lia|].
        (* the quotient is exact *)
        assert (Hfl : (m85 - 1) * ht <= hu * 2 ^ 53).
        { rewrite <- Top, Hq1. rewrite Z.mul_comm. apply Z.mul_div_le. lia. }
        assert (Heq : hu * 2 ^ 53 = (m85 - 1) * ht) by lia.
        rewrite Es, Z.pow_add_r, Z.mul_assoc, Heq by lia.
        replace ((m85 - 1) * ht * 2 ^ n) with ((m85 - 1) * (ht * 2 ^ n)) by lia.
        apply Z.mod_mul. nia.
      * exfalso. unfold m85 in Hm1. lia.
    + destruct Hc as [(-> & _) | (-> & HMc & _)]; [lia|].
      destruct (Z.eq_dec (n - s + 1) (-53)) as [Eq1|Ne1]; [|lia].
      right. split; [exact Eq1|]. rewrite HMc. unfold m85. lia.
Qed.

End Ratio.

Section Percent.

Lemma ltb_finite (M1 M2 : positive) (E1 E2 : Z) :
  Float64.ltb (S754_finite false M1 E1) (S754_finite false M2 E2) = true <->
  E1 < E2 \/ (E1 = E2 /\ Zpos M1 < Zpos M2).
Proof.
  unfold Float64.ltb, SFltb, SFcompare.
  destruct (Z.compare_spec E1 E2) as [HEq|HLt|HGt].
  - change (Pos.compare_cont Eq M1 M2) with (Pos.compare M1 M2).
    rewrite Pos2Z.inj_compare.
    destruct (Z.compare_spec (Zpos M1) (Zpos M2)); split; intros Hc;
      try discriminate; try reflexivity; lia.
  - split; [lia | reflexivity].
  - split; [discriminate | lia].
Qed.

Lemma of_Z_100 : Float64.of_Z 100 = S754_finite false m100 (-46).
Proof. reflexivity. Qed.

Lemma of_Z_85 : Float64.of_Z 85 = S754_finite false m85f (-46).
Proof. reflexivity. Qed.

(** The product of a double with full mantissa by 100: the integer product
    of the mantissas has 105 or 106 digits. *)
Lemma mul100_spec (M : positive) (E : Z) :
  2 ^ 52 <= Zpos M < 2 ^ 53 -> -200 <= E <= 200 ->
  let p := Zpos M * Zpos m100 in
  let n := Zdigits2 p - 53 in
  exists (M' : positive) (E' : Z),
    Float64.mul (S754_finite false M E) (Float64.of_Z 100) = S754_finite false M' E' /\
    2 ^ 52 <= Zpos M' < 2 ^ 53 /\
    52 <= n <= 53 /\
    2 ^ (52 + n) <= p < 2 ^ (53 + n) /\
    ((E' = E - 46 + n /\ (Zpos M' = p / 2 ^ n \/ Zpos M' = p / 2 ^ n + 1))
     \/
     (E' = E - 46 + n + 1 /\ Zpos M' = 2 ^ 52 /\ p / 2 ^ n + 1 = 2 ^ 53)).
Proof.
  intros HM HE p n.
  assert (Hp : 2 ^ 104 <= p < 2 ^ 106) by (unfold p, m100; lia).
  assert (Hn : 52 <= n <= 53 /\ 2 ^ (52 + n) <= p < 2 ^ (53 + n)).
  { unfold n. destruct (Z_lt_ge_dec p (2 ^ 105)) as [L|G].
    - rewrite (Zdigits2_unique p 105) by lia. simpl. lia.
    - rewrite (Zdigits2_unique p 106) by lia. simpl. lia. }
  rewrite of_Z_100. unfold Float64.mul, SFmul.
  change (xorb false false) with false. rewrite Pos2Z.inj_mul. fold p.
  destruct (binary_round_aux_spec p (E + -46) loc_Exact)
    as (M' & E' & Hres & HM' & Hc); [lia | fold n; lia | fold n; lia | fold n; lia |].
  fold n in Hc.
  exists M', E'. split; [exact Hres|]. split; [exact HM'|].
  split; [tauto|]. split; [tauto|].
  destruct Hc as [(-> & Hcases & _) | (-> & HMc & Hcarry & _)].
  - left. split; [lia | exact Hcases].
  - right. split; [lia|]. split; [exact HMc | exact Hcarry].
Qed.

(** From the double of 0.85 on, the percentage is not below 85. *)
Lemma mul100_above (M : positive) (E : Z) :
  2 ^ 52 <= Zpos M < 2 ^ 53 -> -106 <= E <= 2 ->
  -53 < E \/ (E = -53 /\ m85 <= Zpos M) ->
  Float64.ltb (Float64.mul (S754_finite false M E) (Float64.of_Z 100)) (Float64.of_Z 85)
  = false.
Proof.
  intros HM HE Habove.
  destruct (Z.eq_dec E (-53)) as [E53|NE53];
    [destruct (Z.eq_dec (Zpos M) m85) as [Edge|NEdge]|].
  - (* exactly the double of 0.85: 84.99... is rounded up to 85 *)
    subst E. unfold m85 in Edge. injection Edge as ->. vm_compute. reflexivity.
  - apply not_true_is_false. intros Hlt.
    destruct (mul100_spec M E HM ltac:(lia)) as (M' & E' & Hres & HM' & Hn & Hp & Hc).
    set (p := Zpos M * Zpos m100) in *. set (n := Zdigits2 p - 53) in *.
    rewrite Hres, of_Z_85 in Hlt. apply ltb_finite in Hlt.
    assert (HMge : m85 + 1 <= Zpos M) by lia.
    assert (Hn53 : n = 53).
    { destruct (Z.eq_dec n 52) as [N52|]; [|lia]. exfalso.
      rewrite N52 in Hp. unfold p, m100, m85 in *. simpl in Hp. lia. }
    rewrite Hn53 in Hc.
    assert (Hfloor : Zpos m85f <= p / 2 ^ 53).
    { apply Z.div_le_lower_bound; [lia|]. unfold p, m100, m85f, m85 in *. lia. }
    destruct Hc as [(-> & Hcases) | (-> & _)]; lia.
  - apply not_true_is_false. intros Hlt.
    destruct (mul100_spec M E HM ltac:(lia)) as (M' & E' & Hres & HM' & Hn & Hp & Hc).
    set (p := Zpos M * Zpos m100) in *. set (n := Zdigits2 p - 53) in *.
    rewrite Hres, of_Z_85 in Hlt. apply ltb_finite in Hlt.
    assert (HEge : -52 <= E) by lia.
    destruct (Z.eq_dec n 52) as [N52|N53].
    + rewrite N52 in Hc.
      assert (Hfloor : Zpos m85f <= p / 2 ^ 52).
      { apply Z.div_le_lower_bound; [lia|]. unfold p, m100, m85f in *. lia. }
      destruct Hc as [(-> & Hcases) | (-> & _)]; lia.
    + destruct Hc as [(-> & _) | (-> & _)]; lia.
Qed.

(** Below the double of 0.85, the percentage is below 85. *)
Lemma mul100_below (M : positive) (E : Z) :
  2 ^ 52 <= Zpos M < 2 ^ 53 -> -106 <= E <= 2 ->
  E < -53 \/ (E = -53 /\ Zpos M <= m85 - 1) ->
  Float64.ltb (Float64.mul (S754_finite false M E) (Float64.of_Z 100)) (Float64.of_Z 85)
  = true.
Proof.
  intros HM HE Hbelow.
  destruct (Z.eq_dec E (-53)) as [E53|NE53];
    [destruct (Z.eq_dec (Zpos M) (m85 - 1)) as [Edge|NEdge]|].
  - (* the double just below that of 0.85 *)
    subst E. unfold m85 in Edge. simpl in Edge. injection Edge as ->.
    vm_compute. reflexivity.
  - destruct (mul100_spec M E HM ltac:(lia)) as (M' & E' & Hres & HM' & Hn & Hp & Hc).
    set (p := Zpos M * Zpos m100) in *. set (n := Zdigits2 p - 53) in *.
    rewrite Hres, of_Z_85. apply ltb_finite.
    assert (HMle : Zpos M <= m85 - 2) by lia.
    destruct (Z.eq_dec n 52) as [N52|N53].
    + rewrite N52 in Hc.
      destruct Hc as [(-> & _) | (-> & -> & _)]; [lia|].
      right. split; [lia|]. unfold m85f. lia.
    + assert (Hn53 : n = 53) by lia. rewrite Hn53 in Hc.
      assert (Hfloor : p / 2 ^ 53 <= Zpos m85f - 2).
      { apply Z.lt_succ_r. apply Z.div_lt_upper_bound; [lia|].
        unfold p, m100, m85f, m85 in *. lia. }
      destruct Hc as [(-> & Hcases) | (-> & _ & Hcarry)].
      * right. split; [lia|]. lia.
      * exfalso. unfold m85f in Hfloor. lia.
  - destruct (mul100_spec M E HM ltac:(lia)) as (M' & E' & Hres & HM' & Hn & Hp & Hc).
    set (p := Zpos M * Zpos m100) in *. set (n := Zdigits2 p - 53) in *.
    rewrite Hres, of_Z_85. apply ltb_finite.
    assert (HEle : E <= -54) by lia.
    destruct Hc as [(-> & _) | (-> & -> & _)]; [lia|].
    destruct (Z.eq_dec (E - 46 + n + 1) (-46)) as [Eq|Ne]; [|lia].
    right. split; [exact Eq|]. unfold m85f. lia.
Qed.

End Percent.

(** The comparison of the percentage with 85 agrees with the exact
    comparison of the ratio with 17/20, for sizes below [2^48]. *)
Lemma percent_below_85 (hu ht : Z) :
  0 <= hu < 2 ^ 48 -> 0 < ht < 2 ^ 48 ->
  Float64.ltb
    (Float64.mul (Float64.div (Float64.of_Z hu) (Float64.of_Z ht)) (Float64.of_Z 100))
    (Float64.of_Z 85) = false
  <-> 17 * ht <= 20 * hu.
Proof.
  intros Hu Ht.
  destruct (Z.eq_dec hu 0) as [->|Nz].
  - (* nothing used: the percentage is 0 *)
    destruct (of_Z_exact ht ltac:(lia)) as (b & Eb & _).
    rewrite Eb.
    match goal with |- ?x = false <-> _ => change x with true end.
    split; [discriminate | lia].
  - destruct (Z_le_gt_dec (17 * ht) (20 * hu)) as [Above|Below].
    + destruct (div_above hu ht ltac:(lia) ltac:(lia) Above)
        as (M & E & -> & HM & HE & Hcmp).
      rewrite (mul100_above M E HM HE Hcmp). tauto.
    + destruct (div_below hu ht ltac:(lia) Ht ltac:(lia))
        as (M & E & -> & HM & HE & Hcmp).
      rewrite (mul100_below M E HM HE Hcmp). split; [discriminate | lia].
Qed.

Lemma ratio_ge_085 (hu ht : Z) :
  0 < ht -> ((85 # 100) <= inject_Z hu / inject_Z ht)%Q <-> 17 * ht <= 20 * hu.
Proof.
  intros Pt. destruct ht as [|p|p]; try lia.
  unfold Qle, Qdiv, Qmult, Qinv, inject_Z. simpl Qnum. simpl Qden.
  lia.
Qed.

(** ** The memory check *)

(** C5. For every memory snapshot of the process, with a positive heap total
    and sizes below [2^48] bytes, the memory check returns a reading whose
    [healthy] flag is false exactly when the ratio of [heapUsed] to
    [heapTotal], as an exact rational number, is at least 0.85. *)
Theorem memory_check_threshold (w : World) :
  0 <= heapUsed (memoryUsage w) < 2 ^ 48 ->
  0 < heapTotal (memoryUsage w) < 2 ^ 48 ->
  exists reading,
    check memory_check w = Normal reading /\
    (healthy reading = false <->
     ((85 # 100) <= inject_Z (heapUsed (memoryUsage w))
                    / inject_Z (heapTotal (memoryUsage w)))%Q).
Proof.
  intros Hu Ht. eexists. split; [reflexivity|].
  cbn [healthy]. unfold heapUsedPercent.
  rewrite percent_below_85 by assumption.
  symmetry. apply ratio_ge_085. lia.
Qed.

Lemma memory_check_threshold_hot_world :
  0 <= heapUsed (memoryUsage hot_world) < 2 ^ 48 /\
  0 < heapTotal (memoryUsage hot_world) < 2 ^ 48 /\
  exists reading,
    check memory_check hot_world = Normal reading /\
    (healthy reading = false <->
     ((85 # 100) <= inject_Z (heapUsed (memoryUsage hot_world))
                    / inject_Z (heapTotal (memoryUsage hot_world)))%Q).
Proof.
  assert (Hu : 0 <= heapUsed (memoryUsage hot_world) < 2 ^ 48) by (simpl; lia).
  assert (Ht : 0 < heapTotal (memoryUsage hot_world) < 2 ^ 48) by (simpl; lia).
  split; [exact Hu|]. split; [exact Ht|].
  exact (memory_check_threshold hot_world Hu Ht).
Defined.

Example memory_check_at_threshold :
  memory_healthy 85 100 = Some false /\
  memory_healthy 17 20 = Some false /\
  memory_healthy 84999999 100000000 = Some true /\
  memory_healthy 85000001 100000000 = Some false /\
  memory_healthy 0 100 = Some true.
Proof. vm_compute. repeat split. Qed.

(** ** Passes of [triggerHealing], continued *)

(** X1. A pass of [triggerHealing] lets nothing out but the [TypeError] of
    its own handler, and that only when a trigger or an action of the
    registry has thrown [null] or [undefined]; whatever else a trigger or
    an action throws is caught.  So the pass returns normally for every
    snapshot and every registry in which no trigger and no action throws
    [null] or [undefined].  (Triggers and actions are as in the
    conventions: they settle, and they leave the registries alone.) *)
Theorem triggerHealing_contains_exceptions (healthStatus : HealthStatus) (s : Sys) :
  (forall x s',
      triggerHealing healthStatus s = (Throw x, s') ->
      exists k r s1 v,
        In (k, r) (autoRepairs s) /\ nullish v = true /\
        x = Thrown_error (cannot_read "message" v) /\
        (trigger r (healthChecks s1) healthStatus = Throw (Thrown_value v) \/
         exists w', repair r (announced r s1) = (Throw (Thrown_value v), w'))) /\
  ((forall k r, In (k, r) (autoRepairs s) -> never_throws_nullish r) ->
   exists s', triggerHealing healthStatus s = (Normal tt, s')).
Proof.
  split.
  - intros x s' Run. rewrite triggerHealing_pass in Run.
    destruct (pass_outcome healthStatus (JSMap.entries (autoRepairs s)) s)
      as [Ok|(k & r & s1 & v & I & N & T & Why)]; rewrite Run in *.
    + discriminate Ok.
    + injection T as ->. exists k, r, s1, v. auto.
  - intros Safe. eexists. now apply triggerHealing_normal.
Qed.

(** A [null] rejection ends the pass: the repair after it is not reached. *)
Example null_rejection_ends_the_pass :
  fst (triggerHealing all_unhealthy rejecting_system)
  = Throw (Thrown_error (cannot_read "message" VNull)) /\
  invoked (snd (triggerHealing all_unhealthy rejecting_system))
  = ["memory_cleanup"; "rejecting"] /\
  trigger response_optimization (healthChecks rejecting_system) all_unhealthy
  = Normal true.
Proof. vm_compute. repeat split. Qed.

(** The steps, as equations. *)
Lemma heal_idle_eq healthStatus k r s :
  trigger r (healthChecks s) healthStatus = Normal false ->
  heal_all healthStatus [(k, r)] s = s.
Proof.
  intros T. rewrite heal_all_single, heal_one_idle by exact T. reflexivity.
Qed.

Lemma heal_cooling_eq healthStatus k r s :
  trigger r (healthChecks s) healthStatus = Normal true ->
  in_cooldown (JSMap.get k (healingAttempts s)) (now (world s)) (cooldown r) = true ->
  heal_all healthStatus [(k, r)] s =
  log_to debug ("⏳ Repair " ++ k ++ " in cooldown period")%string None s.
Proof.
  intros T C. pose proof (heal_all_one healthStatus k r s) as H.
  inversion H; try congruence. reflexivity.
Qed.

Lemma heal_done_eq healthStatus k r s result w' :
  trigger r (healthChecks s) healthStatus = Normal true ->
  in_cooldown (JSMap.get k (healingAttempts s)) (now (world s)) (cooldown r) = false ->
  repair r (announced r s) = (Normal result, w') ->
  heal_all healthStatus [(k, r)] s =
  log_to info ("✅ Repair completed: " ++ repair_label r)%string (Some result)
    (set_healingAttempts (JSMap.set k (now w') (healingAttempts s))
       (set_world w' (note_invoked k s))).
Proof.
  intros T C R. pose proof (heal_all_one healthStatus k r s) as H.
  inversion H as [ | | | | result0 w0 Ht Hcd Hr Heq | | ]; try congruence.
  rewrite R in Hr. injection Hr as <- <-. reflexivity.
Qed.

(** A pass over entries none of which triggers changes nothing. *)
Lemma pass_quiet healthStatus entries : forall s,
  (forall k r, In (k, r) entries ->
     trigger r (healthChecks s) healthStatus = Normal false) ->
  pass healthStatus entries s = (Normal tt, s).
Proof.
  induction entries as [|[k r] entries IH]; intros s Q.
  - reflexivity.
  - rewrite (pass_cons _ _ _ _ s) by (apply heal_one_idle, (Q k); now left).
    apply IH. intros k' r' I. apply (Q k'). now right.
Qed.

Lemma unhealthy_at_healthy k (healthStatus : HealthStatus) :
  Forall (fun r => healthy r = true) (JSObject.values healthStatus) ->
  unhealthy_at k healthStatus = false.
Proof.
  intros F. unfold unhealthy_at, JSObject.get.
  destruct (JSMap.get k healthStatus) as [r|] eqn:G; [|reflexivity].
  apply JSMapFacts.get_Some_In in G.
  rewrite Forall_forall in F. rewrite (F r); [reflexivity|].
  unfold JSObject.values, JSMap.values. change r with (snd (k, r)). now apply in_map.
Qed.

Lemma stability_trigger_healthy checks (healthStatus : HealthStatus) :
  Forall (fun r => healthy r = true) (JSObject.values healthStatus) ->
  stability_trigger checks healthStatus = Normal false.
Proof.
  intros F. unfold stability_trigger.
  replace (filter (critical_issue checks) (JSObject.values healthStatus)) with (@nil Reading);
    [reflexivity|].
  symmetry. induction F as [|r l Hr F IH]; [reflexivity|].
  simpl. unfold critical_issue at 1. rewrite Hr. simpl. exact IH.
Qed.

(** X2. On a snapshot all of whose readings are healthy, none of the four
    registered repairs triggers: [triggerHealing] returns at once, and the
    system is exactly as before (nothing is logged, nothing is recorded). *)
Theorem healthy_snapshot_triggers_nothing (healthStatus : HealthStatus) (s : Sys) :
  autoRepairs s = registered_repairs ->
  Forall (fun r => healthy r = true) (JSObject.values healthStatus) ->
  triggerHealing healthStatus s = (Normal tt, s).
Proof.
  intros Reg F. rewrite triggerHealing_pass, Reg.
  apply pass_quiet. intros k r I.
  unfold JSMap.entries, registered_repairs in I.
  destruct I as [I|[I|[I|[I|[]]]]]; injection I as _ <-; cbn [trigger memory_cleanup
    response_optimization error_mitigation stability_check].
  - now rewrite unhealthy_at_healthy.
  - now rewrite unhealthy_at_healthy.
  - now rewrite unhealthy_at_healthy.
  - now apply stability_trigger_healthy.
Qed.

Lemma healthy_snapshot_triggers_nothing_hot_system :
  let healthStatus :=
    JSObject.set "server" {| healthy := true; component := None; props := [] |}
      (JSObject.singleton "memory" {| healthy := true; component := None; props := [] |}) in
  autoRepairs hot_system = registered_repairs /\
  Forall (fun r => healthy r = true) (JSObject.values healthStatus) /\
  triggerHealing healthStatus hot_system = (Normal tt, hot_system).
Proof.
  intros healthStatus.
  assert (Reg : autoRepairs hot_system = registered_repairs) by reflexivity.
  assert (F : Forall (fun r => healthy r = true) (JSObject.values healthStatus))
    by (repeat constructor).
  split; [exact Reg|]. split; [exact F|].
  exact (healthy_snapshot_triggers_nothing healthStatus hot_system Reg F).
Defined.

(** X3. Let the trigger predicate of a repair that a pass reaches throw
    something other than [null] and [undefined] ([data] is what the handler
    logs of it).  The exception is caught and logged as a failed repair;
    the action of that repair is not called, no time stamp is recorded for
    it, and the pass goes on with the remaining repairs (and returns
    normally, if none of them throws [null] or [undefined]). *)
Theorem failed_trigger_is_caught (healthStatus : HealthStatus) (s s1 : Sys)
  (before after : list (string * AutoRepair)) (k : string) (r : AutoRepair)
  (x : Thrown) (data : Value) :
  let s2 := log_to error ("❌ Repair failed: " ++ repair_label r)%string
                   (Some data) s1 in
  JSMap.entries (autoRepairs s) = before ++ (k, r) :: after ->
  pass healthStatus before s = (Normal tt, s1) ->
  trigger r (healthChecks s1) healthStatus = Throw x ->
  error_meta x = Normal data ->
  triggerHealing healthStatus s = pass healthStatus after s2 /\
  ((forall k' r', In (k', r') after -> never_throws_nullish r') ->
   fst (triggerHealing healthStatus s) = Normal tt) /\
  invoked s2 = invoked s1 /\
  healingAttempts s2 = healingAttempts s1.
Proof.
  intros s2 E Reach T M.
  assert (Run : triggerHealing healthStatus s = pass healthStatus after s2).
  { rewrite triggerHealing_pass, E, (pass_app _ _ _ _ _ Reach).
    apply pass_cons. exact (heal_one_trigger_threw _ _ _ _ _ _ T M). }
  split; [exact Run|]. split; [|split; reflexivity].
  intros Safe. rewrite Run, pass_normal by exact Safe. reflexivity.
Qed.

Lemma failed_trigger_is_caught_broken_trigger_system :
  let before := [("memory_cleanup", memory_cleanup)] in
  let after := [("response_optimization", response_optimization)] in
  let e := {| message := "cannot read snapshot"; stack := "" |} in
  let s1 := heal_all all_unhealthy before broken_trigger_system in
  let s2 := log_to error ("❌ Repair failed: " ++ repair_label broken_trigger)%string
                   (Some (Error_value e)) s1 in
  triggerHealing all_unhealthy broken_trigger_system = pass all_unhealthy after s2 /\
  ((forall k' r', In (k', r') after -> never_throws_nullish r') ->
   fst (triggerHealing all_unhealthy broken_trigger_system) = Normal tt) /\
  invoked s2 = invoked s1 /\
  healingAttempts s2 = healingAttempts s1.
Proof.
  intros before after e s1 s2.
  apply (failed_trigger_is_caught all_unhealthy broken_trigger_system s1 before after
           "broken" broken_trigger (Thrown_error e) (Error_value e)); reflexivity.
Defined.

Example broken_trigger_pass :
  let s' := snd (triggerHealing all_unhealthy broken_trigger_system) in
  invoked s' = ["memory_cleanup"; "response_optimization"] /\
  JSMap.keys (healingAttempts s') = ["memory_cleanup"; "response_optimization"].
Proof. vm_compute. split; reflexivity. Qed.

(** ** The polling timers and the actions of the repairs *)

Lemma HealStep_invoked healthStatus k r s s' :
  HealStep healthStatus k r s s' ->
  invoked s' = invoked s \/ invoked s' = invoked s ++ [k].
Proof. intros H. destruct H; auto. Qed.

(** The triggers of the registered repairs on the snapshot of the polling
    loop. *)
Lemma unhealthy_at_singleton k name reading :
  unhealthy_at k (JSObject.singleton name reading) =
  String.eqb k name && negb (healthy reading).
Proof.
  unfold unhealthy_at, JSObject.singleton, JSObject.get, JSObject.set. simpl.
  destruct (String.eqb k name); reflexivity.
Qed.

(** A pass of the registered repairs on the snapshot of the polling loop:
    it is the step of the one repair that reads the polled check. *)
Lemma registered_pass_single name reading s :
  autoRepairs s = registered_repairs ->
  let healthStatus := JSObject.singleton name reading in
  heal_all healthStatus (JSMap.entries (autoRepairs s)) s =
  if String.eqb "memory" name then
    heal_all healthStatus [("memory_cleanup", memory_cleanup)] s
  else if String.eqb "response_time" name then
    heal_all healthStatus [("response_optimization", response_optimization)] s
  else if String.eqb "error_rate" name then
    heal_all healthStatus [("error_mitigation", error_mitigation)] s
  else s.
Proof.
  intros Reg healthStatus. rewrite Reg. unfold JSMap.entries, registered_repairs.
  assert (Stab : forall s0, heal_all healthStatus [("stability_check", stability_check)] s0 = s0).
  { intros s0. apply heal_idle_eq. apply stability_trigger_single_reading. }
  assert (Idle : forall k r key s0,
             trigger r = (fun _ hs => Normal (unhealthy_at key hs)) ->
             String.eqb key name = false ->
             heal_all healthStatus [(k, r)] s0 = s0).
  { intros k r key s0 Tr Ne. apply heal_idle_eq. rewrite Tr.
    unfold healthStatus. now rewrite unhealthy_at_singleton, Ne. }
  rewrite heal_all_cons
    by (apply heal_one_contained; split; intros; discriminate).
  rewrite (heal_all_cons _ ("response_optimization", _))
    by (apply heal_one_contained; split; intros; discriminate).
  rewrite (heal_all_cons _ ("error_mitigation", _))
    by (apply heal_one_contained; split; intros; discriminate).
  rewrite Stab.
  destruct (String.eqb "memory" name) eqn:E1.
  - apply String.eqb_eq in E1. subst name.
    rewrite (Idle "error_mitigation" error_mitigation "error_rate") by reflexivity.
    rewrite (Idle "response_optimization" response_optimization "response_time")
      by reflexivity.
    reflexivity.
  - rewrite (Idle "memory_cleanup" memory_cleanup "memory" s) by (reflexivity || exact E1).
    destruct (String.eqb "response_time" name) eqn:E2.
    + apply String.eqb_eq in E2. subst name.
      rewrite (Idle "error_mitigation" error_mitigation "error_rate") by reflexivity.
      reflexivity.
    + rewrite (Idle "response_optimization" response_optimization "response_time" s)
        by (reflexivity || exact E2).
      destruct (String.eqb "error_rate" name) eqn:E3; [reflexivity|].
      apply (Idle "error_mitigation" error_mitigation "error_rate" s);
        [reflexivity | exact E3].
Qed.

(** X4. With the four registered repairs, one firing of the polling timer of
    a check calls at most one repair action, the one that reads that
    check: [memory_cleanup] for "memory", [response_optimization] for
    "response_time", [error_mitigation] for "error_rate".  A firing for any
    other check (the server check, the V8 check) calls no action at all.
    The firing returns normally, unless the check function itself throws
    [null] or [undefined]. *)
Theorem poll_runs_matching_repair_only (s : Sys) (name : string) (c : HealthCheck) :
  autoRepairs s = registered_repairs ->
  exists completion s' ran,
    fire (PollCheck name c) s = (completion, s') /\
    (check_contained c (world s) -> completion = Normal tt) /\
    invoked s' = invoked s ++ ran /\
    (ran = [] \/
     (name = "memory" /\ ran = ["memory_cleanup"]) \/
     (name = "response_time" /\ ran = ["response_optimization"]) \/
     (name = "error_rate" /\ ran = ["error_mitigation"])).
Proof.
  intros Reg. destruct (poll_step name c s) as (completion & s' & Run & Step).
  exists completion, s'.
  assert (Quiet : invoked s' = invoked s ->
            exists ran, fire (PollCheck name c) s = (completion, s') /\
              (check_contained c (world s) -> completion = Normal tt) /\
              invoked s' = invoked s ++ ran /\
              (ran = [] \/
               (name = "memory" /\ ran = ["memory_cleanup"]) \/
               (name = "response_time" /\ ran = ["response_optimization"]) \/
               (name = "error_rate" /\ ran = ["error_mitigation"]))).
  { intros Q. exists []. rewrite app_nil_r. split; [exact Run|].
    split; [now apply (PollStep_contained name c s completion s')|]. auto. }
  destruct Step as [reading R H | reading s1 R H T | reading e s1 R H T
                   | x data R E | v R N]; try (apply Quiet; reflexivity).
  - clear Quiet.
    set (healthStatus := JSObject.singleton name (with_component name reading)) in *.
    set (s0 := log_to warn _ _ s) in T.
    assert (Reg0 : autoRepairs s0 = registered_repairs) by exact Reg.
    apply (f_equal snd) in T. rewrite triggerHealing_pass, pass_state in T.
    cbn [snd] in T. unfold healthStatus in T.
    rewrite (registered_pass_single name _ s0 Reg0) in T. fold healthStatus in T.
    assert (One : forall k r,
               exists ran, invoked (heal_all healthStatus [(k, r)] s0)
                           = invoked s ++ ran /\ (ran = [] \/ ran = [k])).
    { intros k r.
      destruct (HealStep_invoked _ _ _ _ _ (heal_all_one healthStatus k r s0)) as [Q|Q].
      - exists []. rewrite app_nil_r. split; [exact Q | now left].
      - exists [k]. split; [exact Q | now right]. }
    destruct (String.eqb "memory" name) eqn:E1;
      [|destruct (String.eqb "response_time" name) eqn:E2;
        [|destruct (String.eqb "error_rate" name) eqn:E3]]; subst s1.
    + apply String.eqb_eq in E1.
      destruct (One "memory_cleanup" memory_cleanup) as (ran & Hi & [->| ->]);
        eexists; (split; [exact Run|]); (split; [reflexivity|]);
        (split; [exact Hi|]); auto.
    + apply String.eqb_eq in E2.
      destruct (One "response_optimization" response_optimization)
        as (ran & Hi & [->| ->]);
        eexists; (split; [exact Run|]); (split; [reflexivity|]);
        (split; [exact Hi|]); auto.
    + apply String.eqb_eq in E3.
      destruct (One "error_mitigation" error_mitigation) as (ran & Hi & [->| ->]);
        eexists; (split; [exact Run|]); (split; [reflexivity|]);
        (split; [exact Hi|]); auto 6.
    + exists []. rewrite app_nil_r. split; [exact Run|].
      split; [reflexivity|]. split; [reflexivity|]. now left.
  - exfalso. set (s0 := log_to warn _ _ s) in T.
    assert (Reg0 : autoRepairs s0 = registered_repairs) by exact Reg.
    rewrite triggerHealing_normal in T by (rewrite Reg0; exact registered_contained).
    discriminate T.
Qed.

Lemma poll_runs_matching_repair_only_hot_system :
  autoRepairs hot_system = registered_repairs /\
  exists completion s' ran,
    fire (PollCheck "memory" memory_check) hot_system = (completion, s') /\
    (check_contained memory_check (world hot_system) -> completion = Normal tt) /\
    invoked s' = invoked hot_system ++ ran /\
    (ran = [] \/
     ("memory" = "memory" /\ ran = ["memory_cleanup"]) \/
     ("memory" = "response_time" /\ ran = ["response_optimization"]) \/
     ("memory" = "error_rate" /\ ran = ["error_mitigation"])).
Proof.
  split; [reflexivity|].
  apply (poll_runs_matching_repair_only hot_system "memory" memory_check). reflexivity.
Defined.

(** What the action of [memory_cleanup] does to the world. *)
Lemma memory_cleanup_effect (w : World) :
  exists result w',
    repair memory_cleanup w = (Normal result, w') /\
    now w' = now w /\
    gc w' = gc w /\
    gcRuns w' = (gcRuns w + if gc w then 1 else 0)%nat /\
    ((List.length (performanceMetrics w) <= 1000)%nat ->
     performanceMetrics w' = performanceMetrics w) /\
    (List.length (performanceMetrics w') <= 1000)%nat.
Proof.
  do 2 eexists. split; [reflexivity|].
  cbn -[Nat.ltb JSArray.slice].
  destruct (gc w) eqn:G; cbn -[Nat.ltb JSArray.slice];
    destruct (1000 <? List.length (performanceMetrics w))%nat eqn:L;
    cbn -[Nat.ltb JSArray.slice]; rewrite ?G;
    (apply Nat.ltb_lt in L || apply Nat.ltb_ge in L);
    repeat split; try lia; try (intros; lia);
    try (rewrite (JSArrayFacts.slice_last_length 500) by lia; lia).
Qed.

(** X5. The polling timer of the memory check, end to end, for a positive heap
    total and sizes below [2^48] bytes, with the registered repairs.  Below
    85 % of heap use the firing only logs one debug line.  From 85 % on, if
    [memory_cleanup] has not run before or its cooldown is over, the firing
    calls its action exactly once, records the current time under
    "memory_cleanup", calls [global.gc] once if it is defined (and not
    otherwise), and leaves at most 1000 samples. *)
Theorem memory_poll_starts_cleanup (s : Sys) :
  let used := heapUsed (memoryUsage (world s)) in
  let total := heapTotal (memoryUsage (world s)) in
  autoRepairs s = registered_repairs ->
  0 <= used < 2 ^ 48 ->
  0 < total < 2 ^ 48 ->
  exists s',
    fire (PollCheck "memory" memory_check) s = (Normal tt, s') /\
    (20 * used < 17 * total ->
     s' = log_to debug "✅ Health check passed: Memory Usage" None s) /\
    (17 * total <= 20 * used ->
     (JSMap.get "memory_cleanup" (healingAttempts s) = None \/
      exists t0, JSMap.get "memory_cleanup" (healingAttempts s) = Some t0 /\
                 cooldown memory_cleanup <= now (world s) - t0) ->
     invoked s' = invoked s ++ ["memory_cleanup"] /\
     JSMap.get "memory_cleanup" (healingAttempts s') = Some (now (world s)) /\
     gcRuns (world s') = (gcRuns (world s) + if gc (world s) then 1 else 0)%nat /\
     (List.length (performanceMetrics (world s')) <= 1000)%nat).
Proof.
  intros used total Reg Hu Ht.
  pose proof (percent_below_85 used total Hu Ht) as P.
  unfold fire, poll. run_monad. cbn [check memory_check]. run_monad.
  cbn [healthy with_component]. unfold heapUsedPercent. fold used total.
  destruct (Float64.ltb _ (Float64.of_Z 85)) eqn:Hh; cbn [negb]; run_monad.
  - eexists. split; [reflexivity|]. split; [reflexivity|].
    intros Above. apply P in Above. discriminate Above.
  - rewrite triggerHealing_normal
      by (intros k r I; apply (registered_contained k); rewrite <- Reg; exact I).
    match goal with |- context [heal_all ?hs _ ?s0] =>
      set (healthStatus := hs); set (s1 := s0) end.
    assert (Reg1 : autoRepairs s1 = registered_repairs) by exact Reg.
    unfold healthStatus at 1.
    rewrite (registered_pass_single "memory" _ s1 Reg1). cbn [String.eqb Ascii.eqb Bool.eqb].
    fold healthStatus.
    eexists. split; [reflexivity|]. split.
    + intros Below. exfalso. destruct P as [P _]. specialize (P eq_refl). lia.
    + intros _ Free.
      destruct (memory_cleanup_effect (announced memory_cleanup s1))
        as (result & w' & Run & Clock & _ & Runs & _ & Len).
      rewrite (heal_done_eq healthStatus "memory_cleanup" memory_cleanup s1 result w').
      * cbn [invoked log_to set_world set_healingAttempts note_invoked healingAttempts world].
        rewrite JSMapFacts.get_set_same.
        cbn [logger emit gcRuns performanceMetrics now].
        rewrite Clock, Runs.
        repeat split; try assumption; reflexivity.
      * unfold healthStatus. cbn [trigger memory_cleanup].
        rewrite unhealthy_at_singleton. cbn [healthy negb]. reflexivity.
      * change (healingAttempts s1) with (healingAttempts s).
        change (now (world s1)) with (now (world s)).
        destruct Free as [-> | (t0 & -> & Hle)]; [reflexivity|].
        unfold in_cooldown. apply andb_false_iff. right. apply Z.ltb_ge. exact Hle.
      * exact Run.
Qed.

Lemma memory_poll_starts_cleanup_hot_system :
  exists s',
    fire (PollCheck "memory" memory_check) hot_system = (Normal tt, s') /\
    invoked s' = invoked hot_system ++ ["memory_cleanup"] /\
    JSMap.get "memory_cleanup" (healingAttempts s') = Some (now (world hot_system)) /\
    gcRuns (world s') = 1%nat.
Proof.
  destruct (memory_poll_starts_cleanup hot_system) as (s' & Run & _ & Hot);
    [reflexivity | simpl; lia | simpl; lia |].
  exists s'. split; [exact Run|].
  destruct Hot as (A & B & C & _); [simpl; lia | left; reflexivity |].
  split; [exact A|]. split; [exact B | exact C].
Defined.

(** X6. No callback handed to [setInterval] throws, unless a check function
    itself throws [null] or [undefined].  The cleanup of the samples and
    the memory optimization always return normally.  The poll of a check
    returns normally whatever else the check and the repairs do, also when
    a repair throws [null] or [undefined]: the [TypeError] with which
    [triggerHealing] then ends is caught by the poll.  If the check
    function throws [null] or [undefined], the firing ends with the
    [TypeError] of the handler of the poll, and the system is as before.
    (Checks, triggers and actions are as in the conventions: they settle,
    and they leave the registries alone.) *)
Theorem timer_callbacks_contain_exceptions (c : Callback) (s : Sys) :
  ((forall name hc, c = PollCheck name hc -> check_contained hc (world s)) ->
   exists s', fire c s = (Normal tt, s')) /\
  (forall name hc v,
      c = PollCheck name hc ->
      check hc (world s) = Throw (Thrown_value v) -> nullish v = true ->
      fire c s = (Throw (Thrown_error (cannot_read "message" v)), s)).
Proof.
  split.
  - intros Safe. destruct c as [name hc| |]; unfold fire.
    + destruct (poll_step name hc s) as (completion & s' & Run & Step).
      exists s'. rewrite Run. f_equal.
      apply (PollStep_contained name hc s completion s' Step).
      now apply (Safe name hc).
    + run_monad.
      destruct (2000 <? List.length (performanceMetrics (world s)))%nat; run_monad;
        eexists; reflexivity.
    + run_monad.
      destruct (shouldOptimizeMemory (world s)); run_monad; eexists; reflexivity.
  - intros name hc v -> R N. unfold fire, poll. run_monad. rewrite R. run_monad.
    unfold error_meta, error_message. rewrite N. reflexivity.
Qed.

(** In [rejecting_polled] the memory check is unhealthy and the second
    repair is rejected with [null]: the pass of [triggerHealing] ends with
    a [TypeError], and the poll logs it and returns normally. *)
Example poll_catches_the_TypeError_of_a_pass :
  let fired := fire (PollCheck "memory" memory_check) rejecting_polled in
  fst fired = Normal tt /\
  invoked (snd fired) = ["memory_cleanup"; "rejecting"] /\
  map (fun entry => (level entry, text entry)) (skipn 4 (logged (world (snd fired))))
  = [(info, "✅ Repair completed: Memory Cleanup");
     (info, "🔧 Triggering repair: Rejecting");
     (error, "❌ Health check error: Memory Usage")] /\
  last (map meta (logged (world (snd fired)))) None
  = Some (Error_value (cannot_read "message" VNull)).
Proof. vm_compute. repeat split. Qed.

(** The poll of a check that is rejected with [null], or without a reason,
    throws: its handler cannot read the message. *)
Example poll_of_rejecting_check_throws :
  fire (PollCheck "rejecting" rejecting_check) with_rejecting_check
  = (Throw (Thrown_error (cannot_read "message" VNull)), with_rejecting_check) /\
  fire (PollCheck "unexplained" unexplained_check) with_unexplained_check
  = (Throw (Thrown_error (cannot_read "message" VUndefined)), with_unexplained_check).
Proof. split; reflexivity. Qed.

(** X7. After a firing of the cleanup timer at most 2000 samples are stored:
    if there were more than 2000, exactly the last 1000 are kept;
    otherwise the system is unchanged. *)
Theorem cleanup_timer_bounds_samples (s : Sys) :
  exists s',
    fire CleanMetrics s = (Normal tt, s') /\
    (List.length (performanceMetrics (world s')) <= 2000)%nat /\
    ((2000 < List.length (performanceMetrics (world s)))%nat ->
     performanceMetrics (world s') =
       skipn (List.length (performanceMetrics (world s)) - 1000)
             (performanceMetrics (world s)) /\
     List.length (performanceMetrics (world s')) = 1000%nat) /\
    ((List.length (performanceMetrics (world s)) <= 2000)%nat -> s' = s).
Proof.
  unfold fire. run_monad.
  destruct (2000 <? List.length (performanceMetrics (world s)))%nat eqn:L; run_monad;
    [apply Nat.ltb_lt in L | apply Nat.ltb_ge in L]; eexists; (split; [reflexivity|]).
  - cbn [world set_world logger emit performanceMetrics set_performanceMetrics].
    assert (S : JSArray.slice (-1000) (performanceMetrics (world s)) =
                skipn (List.length (performanceMetrics (world s)) - 1000)
                      (performanceMetrics (world s)))
      by (unfold JSArray.slice; simpl; f_equal; lia).
    rewrite S, length_skipn. repeat split; lia.
  - split; [exact L|]. split; [intros; lia | reflexivity].
Qed.

(** X8. The action of [response_optimization] returns normally and keeps the
    last 100 samples (all of them if there are fewer), whatever their
    number; it logs exactly two lines, both warnings. *)
Theorem response_optimization_keeps_last_100 (w : World) :
  exists result w',
    repair response_optimization w = (Normal result, w') /\
    performanceMetrics w' =
      skipn (List.length (performanceMetrics w) - 100) (performanceMetrics w) /\
    List.length (performanceMetrics w') = Nat.min 100 (List.length (performanceMetrics w)) /\
    (exists dropped, performanceMetrics w = dropped ++ performanceMetrics w') /\
    map level (skipn (List.length (logged w)) (logged w')) = [warn; warn].
Proof.
  do 2 eexists. split; [reflexivity|].
  cbn [performanceMetrics logged logger emit set_performanceMetrics].
  assert (S : JSArray.slice (-100) (performanceMetrics w) =
              skipn (List.length (performanceMetrics w) - 100) (performanceMetrics w)).
  { unfold JSArray.slice.
    destruct (-100 <? 0) eqn:E; [|discriminate E]. f_equal. lia. }
  rewrite S, length_skipn. split; [reflexivity|]. split; [lia|]. split.
  - exists (firstn (List.length (performanceMetrics w) - 100) (performanceMetrics w)).
    symmetry. apply firstn_skipn.
  - rewrite <- app_assoc.
    rewrite skipn_app, Nat.sub_diag, skipn_all. reflexivity.
Qed.

(** X9. The action of [memory_cleanup] returns normally; it calls [global.gc]
    exactly once if it is defined and not at all otherwise; with at most
    1000 samples (1000 included) it leaves the samples untouched, and in
    every case at most 1000 samples remain. *)
Theorem memory_cleanup_spares_short_history (w : World) :
  exists result w',
    repair memory_cleanup w = (Normal result, w') /\
    gcRuns w' = (gcRuns w + if gc w then 1 else 0)%nat /\
    ((List.length (performanceMetrics w) <= 1000)%nat ->
     performanceMetrics w' = performanceMetrics w) /\
    (List.length (performanceMetrics w') <= 1000)%nat.
Proof.
  destruct (memory_cleanup_effect w) as (result & w' & Run & _ & _ & Runs & Keep & Len).
  exists result, w'. auto.
Qed.

(** ** [startMonitoring] and [initialize] *)

(** Projects a field out of a state built by the setters. *)
Ltac project_state :=
  cbn [world healthChecks autoRepairs errorPatterns isMonitoring healingAttempts timers
       invoked set_world set_healthChecks set_autoRepairs set_errorPatterns
       set_isMonitoring set_healingAttempts add_timer note_invoked construct].

(** The loop of [startMonitoring] starts the polling timers, in the order
    of the registry. *)
Lemma for_of_setInterval (checks : list (string * HealthCheck)) : forall s,
  for_of checks (fun '(name, c) => setInterval (PollCheck name c) (interval c)) s
  = (Normal tt, add_timers (map polling_timer checks) s).
Proof.
  induction checks as [|[name c] checks IH]; intros s.
  - cbn. unfold ret, add_timers. rewrite app_nil_r. destruct s; reflexivity.
  - cbn [for_of]. unfold bind at 1. unfold setInterval at 1. unfold modify.
    rewrite IH. f_equal. unfold add_timers, add_timer. cbn.
    rewrite <- app_assoc. reflexivity.
Qed.

(** X10. When monitoring is off, [startMonitoring] switches it on and starts
    one polling timer for every registered check, in the order of the
    registry and with the interval of the check, followed by the cleanup
    timer of 600000 ms; the registries are unchanged. *)
Theorem startMonitoring_starts_timers (s : Sys) :
  isMonitoring s = false ->
  exists s',
    startMonitoring s = (Normal tt, s') /\
    isMonitoring s' = true /\
    timers s' =
      timers s ++ map polling_timer (JSMap.entries (healthChecks s))
               ++ [{| callback := CleanMetrics; period := 600000 |}] /\
    healthChecks s' = healthChecks s /\
    autoRepairs s' = autoRepairs s.
Proof.
  intros Off. unfold startMonitoring. run_monad. rewrite Off.
  cbn [healthChecks set_isMonitoring].
  rewrite for_of_setInterval. unfold setInterval. run_monad.
  eexists. split; [reflexivity|]. cbn. rewrite <- app_assoc. repeat split.
Qed.

Lemma startMonitoring_starts_timers_fresh_system :
  let s := snd (setupHealthChecks (construct quiet_world)) in
  isMonitoring s = false /\
  exists s',
    startMonitoring s = (Normal tt, s') /\
    isMonitoring s' = true /\
    timers s' =
      timers s ++ map polling_timer (JSMap.entries (healthChecks s))
               ++ [{| callback := CleanMetrics; period := 600000 |}] /\
    healthChecks s' = healthChecks s /\
    autoRepairs s' = autoRepairs s.
Proof.
  intros s. split; [reflexivity|].
  apply (startMonitoring_starts_timers s). reflexivity.
Defined.

(** X11. [startMonitoring] is idempotent: after a first call a second one
    changes nothing (no timer is added, nothing is logged), also when a
    check has been registered in between, so a check registered after the
    first call gets no polling timer. *)
Theorem startMonitoring_idempotent (s : Sys) :
  exists s1,
    startMonitoring s = (Normal tt, s1) /\
    startMonitoring s1 = (Normal tt, s1) /\
    forall name c,
      startMonitoring (snd (healthChecks_set name c s1))
      = (Normal tt, snd (healthChecks_set name c s1)).
Proof.
  destruct (isMonitoring s) eqn:On.
  - exists s. unfold startMonitoring. run_monad. rewrite On.
    repeat split. intros name c. cbn. rewrite On. reflexivity.
  - destruct (startMonitoring_starts_timers s On) as (s' & Run & On' & _).
    exists s'. split; [exact Run|].
    unfold startMonitoring. run_monad. rewrite On'.
    split; [reflexivity|]. intros name c. cbn. rewrite On'. reflexivity.
Qed.

(** The run of [initialize] in a new system. *)
Lemma initialize_state (w : World) :
  let s := snd (initialize (construct w)) in
  fst (initialize (construct w)) = Normal tt /\
  isMonitoring s = true /\
  timers s =
    (if gc w then [{| callback := OptimizeMemory; period := 300000 |}] else []) ++
    [{| callback := PollCheck "server" server_check; period := 30000 |};
     {| callback := PollCheck "memory" memory_check; period := 15000 |};
     {| callback := PollCheck "response_time" response_time_check; period := 45000 |};
     {| callback := PollCheck "error_rate" error_rate_check; period := 60000 |};
     {| callback := CleanMetrics; period := 600000 |}] /\
  gc (world s) = gc w /\
  gcRuns (world s) = gcRuns w.
Proof.
  cbv zeta. unfold initialize. run_monad.
  cbn [world construct set_world logger emit gc set_performanceMetrics].
  destruct (gc w) eqn:G; project_state; cbn [gc gcRuns logger emit];
    repeat split; try reflexivity; exact G.
Qed.

Lemma exports_initialize_state (w : World) :
  exports_initialize w = Normal (snd (initialize (construct w))).
Proof.
  unfold exports_initialize.
  pose proof (proj1 (initialize_state w)) as Run.
  destruct (initialize (construct w)) as [c s]. cbn [fst] in Run. now rewrite Run.
Qed.

(** X12. [module.exports.initialize] returns a system with the five checks and
    the four repairs registered and monitoring on.  Its timers are, in
    order: the memory optimizer (300000 ms) if and only if [global.gc] is
    defined, the polls of "server" (30000), "memory" (15000),
    "response_time" (45000) and "error_rate" (60000), and the cleanup
    (600000).  The V8 check is registered, but no timer polls it: it is
    registered after [startMonitoring] has run. *)
Theorem initialize_timers (w : World) :
  exists s,
    exports_initialize w = Normal s /\
    healthChecks s = registered_health_checks /\
    autoRepairs s = registered_repairs /\
    isMonitoring s = true /\
    timers s =
      (if gc w then [{| callback := OptimizeMemory; period := 300000 |}] else []) ++
      [{| callback := PollCheck "server" server_check; period := 30000 |};
       {| callback := PollCheck "memory" memory_check; period := 15000 |};
       {| callback := PollCheck "response_time" response_time_check; period := 45000 |};
       {| callback := PollCheck "error_rate" error_rate_check; period := 60000 |};
       {| callback := CleanMetrics; period := 600000 |}] /\
    JSMap.get "v8_performance" (healthChecks s) = Some v8_performance_check /\
    forall c, ~ In (PollCheck "v8_performance" c) (map callback (timers s)).
Proof.
  exists (snd (initialize (construct w))).
  destruct (initialize_state w) as (_ & Mon & T & _).
  destruct (initialize_registries w) as [Reg Chk].
  split; [apply exports_initialize_state|].
  split; [exact Chk|]. split; [exact Reg|]. split; [exact Mon|]. split; [exact T|].
  split; [rewrite Chk; reflexivity|].
  intros c. rewrite T.
  destruct (gc w); cbn [map callback app In]; intros H;
    repeat match goal with
           | H : _ \/ _ |- _ => destruct H as [H|H]
           | H : False |- _ => destruct H
           | H : OptimizeMemory = _ |- _ => discriminate H
           | H : CleanMetrics = _ |- _ => discriminate H
           | H : PollCheck _ _ = PollCheck _ _ |- _ =>
               let E := fresh "E" in injection H as E _; discriminate E
           end.
Qed.

(** The registered actions do not call [global.gc] unless it is defined. *)
Lemma gc_report_high es : forall w,
  gc (fold_left report_high es w) = gc w /\
  gcRuns (fold_left report_high es w) = gcRuns w.
Proof.
  induction es as [|[e [c|txt]] es IH]; intros w; simpl; [split; reflexivity| |apply IH].
  destruct (IH (if 3 <=? c then emit (high_error_entry e c) w else w)) as [A B].
  rewrite A, B. destruct (3 <=? c); split; reflexivity.
Qed.

Lemma registered_repairs_gc k r :
  In (k, r) registered_repairs ->
  forall w, gc (snd (repair r w)) = gc w /\
            (gc w = false -> gcRuns (snd (repair r w)) = gcRuns w).
Proof.
  unfold registered_repairs.
  intros [H|[H|[H|[H|[]]]]]; injection H as _ <-; intros w.
  - cbn -[Nat.ltb]. destruct (gc w) eqn:G; cbn -[Nat.ltb];
      destruct (1000 <? List.length (performanceMetrics w))%nat; cbn;
      split; try reflexivity; try exact G; intros; discriminate.
  - split; reflexivity.
  - cbn [repair error_mitigation snd].
    match goal with
    | |- context [fold_left report_high ?es ?w0] =>
        destruct (gc_report_high es w0) as [A B]
    end.
    rewrite A, B. split; reflexivity.
  - split; reflexivity.
Qed.

Lemma HealStep_gc healthStatus k r s s' :
  HealStep healthStatus k r s s' ->
  (forall w, gc (snd (repair r w)) = gc w /\
             (gc w = false -> gcRuns (snd (repair r w)) = gcRuns w)) ->
  gc (world s') = gc (world s) /\
  (gc (world s) = false -> gcRuns (world s') = gcRuns (world s)).
Proof.
  intros H Safe.
  destruct H as [ Ht | x data Ht Hm | x x' Ht Hm | Ht Hcd | result w' Ht Hcd Hr
                | x data w' Ht Hcd Hr Hm | x x' w' Ht Hcd Hr Hm ];
    try (split; reflexivity);
    specialize (Safe (announced r s)); rewrite Hr in Safe; exact Safe.
Qed.

Lemma heal_all_gc healthStatus entries s :
  (forall k r, In (k, r) entries ->
     forall w, gc (snd (repair r w)) = gc w /\
               (gc w = false -> gcRuns (snd (repair r w)) = gcRuns w)) ->
  gc (world (heal_all healthStatus entries s)) = gc (world s) /\
  (gc (world s) = false ->
   gcRuns (world (heal_all healthStatus entries s)) = gcRuns (world s)).
Proof.
  intros Safe.
  apply (heal_all_invariant
           (fun s s' => gc (world s') = gc (world s) /\
                        (gc (world s) = false -> gcRuns (world s') = gcRuns (world s)))).
  - auto.
  - intros s1 s2 s3 [A B] [C D]. split; [congruence|].
    intros Off. rewrite D, B; congruence.
  - intros k r s1 s2 I Step. eapply HealStep_gc; eauto.
Qed.

(** A firing of a timer other than the optimizer's: [global.gc] stays
    uncalled if it is not defined. *)
Lemma fire_without_gc (c : Callback) (s : Sys) :
  c <> OptimizeMemory ->
  autoRepairs s = registered_repairs ->
  gc (world s) = false ->
  autoRepairs (snd (fire c s)) = registered_repairs /\
  gc (world (snd (fire c s))) = false /\
  gcRuns (world (snd (fire c s))) = gcRuns (world s).
Proof.
  intros Nopt Reg Off. destruct c as [name hc| |]; [| |contradiction]; unfold fire.
  - destruct (poll_step name hc s) as (completion & s' & Run & Step).
    rewrite Run. cbn [snd].
    assert (Pass : forall hs msg data s1,
               snd (triggerHealing hs (log_to warn msg data s)) = s1 ->
               autoRepairs s1 = registered_repairs /\
               gc (world s1) = false /\ gcRuns (world s1) = gcRuns (world s)).
    { intros hs msg data s1 <-. rewrite triggerHealing_pass, pass_state.
      match goal with |- context [heal_all ?hs ?es ?s0] =>
        destruct (heal_all_gc hs es s0) as [A B];
          [|pose proof (proj2 (heal_all_registries hs es s0)) as R]
      end.
      { intros k r I. apply (registered_repairs_gc k r).
        change (In (k, r) (autoRepairs s)) in I. now rewrite Reg in I. }
      rewrite R, A, B by exact Off. repeat split; assumption. }
    destruct Step as [reading R H | reading s1 R H T | reading e s1 R H T
                     | x data R E | v R N]; try (repeat split; assumption).
    + exact (Pass _ _ _ s1 (f_equal snd T)).
    + exact (Pass _ _ _ s1 (f_equal snd T)).
  - run_monad.
    destruct (2000 <? List.length (performanceMetrics (world s)))%nat; run_monad;
      repeat split; assumption.
Qed.

(** X13. In a process where [global.gc] is not defined, no firing of the timers
    that [initialize] started, in any order and any number, calls it. *)
Theorem gc_not_called_when_undefined (w : World) (s0 : Sys) (callbacks : list Callback) :
  gc w = false ->
  exports_initialize w = Normal s0 ->
  incl callbacks (map callback (timers s0)) ->
  gcRuns (world (fire_all callbacks s0)) = gcRuns w.
Proof.
  intros Off Init Sub.
  rewrite exports_initialize_state in Init. injection Init as <-.
  destruct (initialize_state w) as (_ & _ & T & G & R).
  destruct (initialize_registries w) as [Reg _].
  rewrite Off in T, G. cbn [app] in T.
  assert (NoOpt : forall c, In c callbacks -> c <> OptimizeMemory).
  { intros c I. apply Sub in I. rewrite T in I. cbn in I.
    intros ->. intuition discriminate. }
  clear Sub T. rewrite <- R. clear R.
  revert Reg G NoOpt. generalize (snd (initialize (construct w))) as s0.
  induction callbacks as [|c callbacks IH]; intros s0 Reg G NoOpt; [reflexivity|].
  destruct (fire_without_gc c s0) as (Reg' & G' & R'); auto.
  { apply NoOpt. now left. }
  change (gcRuns (world (fire_all callbacks (snd (fire c s0)))) = gcRuns (world s0)).
  rewrite IH; auto. intros c' I. apply NoOpt. now right.
Qed.

Lemma gc_not_called_when_undefined_full_heap :
  let w := with_heap 9 10 in
  let s0 := snd (initialize (construct w)) in
  let callbacks := [PollCheck "memory" memory_check; CleanMetrics;
                    PollCheck "memory" memory_check] in
  gc w = false /\
  exports_initialize w = Normal s0 /\
  incl callbacks (map callback (timers s0)) /\
  gcRuns (world (fire_all callbacks s0)) = gcRuns w.
Proof.
  intros w s0 callbacks.
  assert (Off : gc w = false) by reflexivity.
  assert (Init : exports_initialize w = Normal s0) by apply exports_initialize_state.
  assert (Sub : incl callbacks (map callback (timers s0))).
  { unfold s0. rewrite (proj1 (proj2 (proj2 (initialize_state w)))).
    intros c [<-|[<-|[<-|[]]]]; cbn; tauto. }
  split; [exact Off|]. split; [exact Init|]. split; [exact Sub|].
  exact (gc_not_called_when_undefined w s0 callbacks Off Init Sub).
Defined.

Example full_heap_without_gc :
  let s := fire_all [PollCheck "memory" memory_check]
                    (snd (initialize (construct (with_heap 9 10)))) in
  (invoked s, gcRuns (world s)) = (["memory_cleanup"], 0%nat).
Proof. vm_compute. reflexivity. Qed.

(** ** The snapshot of [getHealthStatus] *)

(** A reading without [component] does not pass the filter of the trigger
    of [stability_check]. *)
Lemma critical_issue_anonymous checks (r : Reading) :
  component r = None -> critical_issue checks r = false.
Proof. intros H. unfold critical_issue. rewrite H. apply andb_false_r. Qed.

(** If the loop returns, no check has thrown [null] or [undefined]. *)
Lemma getHealthStatus_loop_returned (checks : list (string * HealthCheck)) :
  forall (acc healthStatus : HealthStatus) (s s' : Sys),
    getHealthStatus_loop checks acc s = (Normal healthStatus, s') ->
    forall name c, In (name, c) checks -> check_contained c (world s).
Proof.
  induction checks as [|[n c0] checks IH]; intros acc healthStatus s s' Run name c I;
    [contradiction|].
  simpl in Run. unfold bind at 1 in Run.
  unfold try_catch, bind, gets, complete, Date_now, ret in Run.
  destruct (check c0 (world s)) as [r|x] eqn:R; cbn [fst snd] in Run.
  - destruct I as [[= <- <-]|I]; [|now apply (IH _ _ _ _ Run name)].
    intros v Hv. rewrite R in Hv. discriminate Hv.
  - destruct (error_message x) as [msg|x'] eqn:M; [|discriminate Run].
    destruct I as [[= <- <-]|I]; [|now apply (IH _ _ _ _ Run name)].
    intros v Hv. rewrite R in Hv. injection Hv as ->.
    cbn [error_message] in M. destruct (nullish v); [discriminate M | reflexivity].
Qed.

(** X14. [getHealthStatus] does not set [component] on the readings it
    collects.  So, for checks whose readings carry no [component] (the five
    registered ones do not), the trigger of [stability_check] answers false
    on every snapshot [getHealthStatus] returns, however many checks are
    unhealthy.  And it returns one, leaving the system as it is, unless a
    check function throws [null] or [undefined]. *)
Theorem full_snapshot_never_triggers_stability_check (s : Sys) :
  (forall name c r,
      In (name, c) (JSMap.entries (healthChecks s)) ->
      check c (world s) = Normal r -> component r = None) ->
  (forall healthStatus s',
      getHealthStatus s = (Normal healthStatus, s') ->
      s' = s /\
      Forall (fun r => component r = None) (JSObject.values healthStatus) /\
      trigger stability_check (healthChecks s) healthStatus = Normal false) /\
  ((forall name c,
       In (name, c) (JSMap.entries (healthChecks s)) -> check_contained c (world s)) ->
   exists healthStatus, getHealthStatus s = (Normal healthStatus, s)).
Proof.
  intros Anonymous.
  assert (Run : (forall name c, In (name, c) (JSMap.entries (healthChecks s)) ->
                                check_contained c (world s)) ->
                getHealthStatus s =
                (Normal (collect (map (fun nc => (fst nc, the_entry (snd nc) (world s)))
                                      (JSMap.entries (healthChecks s)))
                                 JSObject.empty), s)).
  { intros Safe. unfold getHealthStatus, bind, gets. cbn [fst snd].
    now rewrite getHealthStatus_loop_run by exact Safe. }
  split; [|intros Safe; eexists; exact (Run Safe)].
  intros healthStatus s' Returned.
  assert (Safe : forall name c, In (name, c) (JSMap.entries (healthChecks s)) ->
                                check_contained c (world s)).
  { unfold getHealthStatus, bind, gets in Returned. cbn [fst snd] in Returned.
    exact (getHealthStatus_loop_returned _ _ _ _ _ Returned). }
  rewrite (Run Safe) in Returned. injection Returned as <- <-.
  split; [reflexivity|].
  match goal with |- Forall _ (JSObject.values ?o) /\ _ => set (healthStatus := o) end.
  assert (F : Forall (fun r => component r = None) (JSObject.values healthStatus)).
  { rewrite Forall_forall. intros r I. apply collect_values in I.
    destruct I as [[]|I]. rewrite map_map in I. apply in_map_iff in I.
    destruct I as ([name c] & <- & I). cbn [snd fst]. unfold the_entry, entry_of.
    destruct (check c (world s)) as [r|x] eqn:R.
    - exact (Anonymous name c r I R).
    - destruct (error_message x); reflexivity. }
  split; [exact F|].
  cbn [trigger stability_check]. unfold stability_trigger.
  replace (filter _ _) with (@nil Reading); [reflexivity|].
  symmetry. induction F as [|r l Hr F IH]; [reflexivity|].
  cbn [filter]. now rewrite (critical_issue_anonymous _ r Hr).
Qed.

Lemma registered_checks_contained name c w :
  In (name, c) registered_health_checks -> check_contained c w.
Proof.
  unfold registered_health_checks.
  intros [H|[H|[H|[H|[H|[]]]]]]; injection H as _ <-; intros v;
    cbn [check server_check memory_check
         response_time_check error_rate_check v8_performance_check];
    try discriminate; destruct (_ =? 0)%nat; discriminate.
Qed.

Lemma registered_checks_anonymous name c w r :
  In (name, c) registered_health_checks -> check c w = Normal r -> component r = None.
Proof.
  unfold registered_health_checks.
  intros [H|[H|[H|[H|[H|[]]]]]]; injection H as _ <-; cbn [check server_check memory_check
    response_time_check error_rate_check v8_performance_check].
  - intros [= <-]. reflexivity.
  - intros [= <-]. reflexivity.
  - destruct (_ =? 0)%nat; intros [= <-]; reflexivity.
  - destruct (_ =? 0)%nat; intros [= <-]; reflexivity.
  - intros [= <-]. reflexivity.
Qed.

Lemma full_snapshot_never_triggers_stability_check_hot_system :
  exists healthStatus,
    getHealthStatus hot_system = (Normal healthStatus, hot_system) /\
    Forall (fun r => component r = None) (JSObject.values healthStatus) /\
    trigger stability_check (healthChecks hot_system) healthStatus = Normal false.
Proof.
  destruct (full_snapshot_never_triggers_stability_check hot_system) as [Content Returns].
  - intros name c r I. apply (registered_checks_anonymous name c (world hot_system) r).
    exact I.
  - destruct Returns as [healthStatus Run].
    + intros name c I. apply (registered_checks_contained name c (world hot_system)).
      exact I.
    + exists healthStatus. split; [exact Run|].
      exact (proj2 (Content healthStatus hot_system Run)).
Defined.

(** ** The table of error patterns *)

Lemma slice_last_skipn {A} (n : nat) (l : list A) :
  (0 < n)%nat -> JSArray.slice (- Z.of_nat n) l = skipn (List.length l - n) l.
Proof.
  intros Pn. unfold JSArray.slice.
  destruct (- Z.of_nat n <? 0) eqn:E; [|apply Z.ltb_ge in E; lia].
  f_equal. lia.
Qed.

(** Pushing onto the last [n] and cutting again gives the last [n] of the
    longer array. *)
Lemma slice_last_push {A} (n : nat) (l : list A) (x : A) :
  (0 < n)%nat ->
  (if (n <? List.length (JSArray.slice (- Z.of_nat n) l ++ [x]))%nat
   then JSArray.slice (- Z.of_nat n) (JSArray.slice (- Z.of_nat n) l ++ [x])
   else JSArray.slice (- Z.of_nat n) l ++ [x])
  = JSArray.slice (- Z.of_nat n) (l ++ [x]).
Proof.
  intros Pn. rewrite !slice_last_skipn by exact Pn.
  rewrite !length_app, !length_skipn. cbn [List.length].
  destruct (Nat.le_gt_cases n (List.length l)) as [Long|Short].
  - replace (n <? List.length l - (List.length l - n) + 1)%nat with true
      by (symmetry; apply Nat.ltb_lt; lia).
    replace (List.length l - (List.length l - n) + 1 - n)%nat with 1%nat by lia.
    replace (List.length l + 1 - n)%nat with (S (List.length l - n)) by lia.
    rewrite !skipn_app, !length_skipn.
    replace (1 - (List.length l - (List.length l - n)))%nat with 0%nat by lia.
    replace (S (List.length l - n) - List.length l)%nat with 0%nat by lia.
    rewrite skipn_skipn. reflexivity.
  - replace (List.length l - n)%nat with 0%nat by lia.
    replace (List.length l + 1 - n)%nat with 0%nat by lia.
    cbn [skipn]. rewrite Nat.sub_0_r.
    replace (n <? List.length l + 1)%nat with false
      by (symmetry; apply Nat.ltb_ge; lia).
    reflexivity.
Qed.

Lemma analyze_all_snoc events e s :
  analyze_all (events ++ [e]) s =
  snd (analyzeError (fst e) (at_time (snd e) (analyze_all events s))).
Proof. unfold analyze_all. rewrite fold_left_app. reflexivity. Qed.

Lemma matching_snoc key events e :
  matching key (events ++ [e]) =
  matching key events ++
  (if String.eqb (extractErrorPattern (fst e)) key then [e] else []).
Proof.
  unfold matching. rewrite filter_app. cbn [filter].
  destruct (String.eqb (extractErrorPattern (fst e)) key); reflexivity.
Qed.

Lemma error_table_entry (events : list (string * Z)) (s : Sys) (key : string) :
  errorPatterns s = JSMap.empty ->
  match JSMap.get key (errorPatterns (analyze_all events s)) with
  | Some p => matching key events <> [] /\ summarizes p (matching key events)
  | None => matching key events = []
  end.
Proof.
  intros Empty. induction events as [|e events IH] using rev_ind.
  - cbn. rewrite Empty. reflexivity.
  - rewrite analyze_all_snoc, matching_snoc.
    destruct (analyzeError_errorPatterns (fst e) (at_time (snd e) (analyze_all events s)))
      as (s' & Run & Tab & _).
    rewrite Run. cbn [snd]. rewrite Tab.
    change (errorPatterns (at_time (snd e) (analyze_all events s)))
      with (errorPatterns (analyze_all events s)).
    change (now (world (at_time (snd e) (analyze_all events s)))) with (snd e).
    destruct (String.eqb (extractErrorPattern (fst e)) key) eqn:K.
    + apply String.eqb_eq in K. rewrite K. rewrite JSMapFacts.get_set_same.
      split; [intros H; apply app_eq_nil in H; destruct H; discriminate|].
      destruct (JSMap.get key (errorPatterns (analyze_all events s))) as [p|].
      * destruct IH as (Ne & C & F & L & M).
        unfold summarizes, observe. cbn [count first_seen last_seen messages].
        rewrite length_app, rev_app_distr. cbn [List.length rev app hd_error option_map].
        split; [lia|]. split.
        { rewrite F. destruct (matching key events); [congruence | reflexivity]. }
        split; [reflexivity|].
        rewrite M. destruct e as [m t]. cbn [fst snd].
        apply (slice_last_push 10). lia.
      * rewrite IH. unfold summarizes, observe.
        cbn. destruct e; repeat split.
    + apply String.eqb_neq in K.
      rewrite JSMapFacts.get_set_other by congruence.
      rewrite app_nil_r. exact IH.
Qed.

(** X15. After any sequence of calls of [analyzeError] on an empty table, the
    table has an entry under a key exactly when some message of the
    sequence has that pattern; the entry counts those messages, its
    [first_seen] and [last_seen] are the times of the first and the last of
    them, and it keeps the last 10 of them (all if fewer), never more
    than 10. *)
Theorem error_table_summarizes_messages (events : list (string * Z)) (s : Sys)
  (key : string) :
  errorPatterns s = JSMap.empty ->
  (JSMap.get key (errorPatterns (analyze_all events s)) = None <->
   matching key events = []) /\
  forall p,
    JSMap.get key (errorPatterns (analyze_all events s)) = Some p ->
    count p = Z.of_nat (List.length (matching key events)) /\
    Some (first_seen p) = option_map snd (hd_error (matching key events)) /\
    Some (last_seen p) = option_map snd (hd_error (rev (matching key events))) /\
    messages p = JSArray.slice (-10) (matching key events) /\
    (List.length (messages p) <= 10)%nat.
Proof.
  intros Empty. pose proof (error_table_entry events s key Empty) as H.
  destruct (JSMap.get key (errorPatterns (analyze_all events s))) as [p|].
  - destruct H as (Ne & C & F & L & M). split.
    + split; [discriminate | intros E; contradiction].
    + intros p' [= <-]. repeat split; try assumption.
      rewrite M. pose proof (JSArrayFacts.slice_length (-10) (matching key events)) as Len.
      cbn [Z.ltb Z.compare] in Len. lia.
  - split; [tauto|]. intros p' [=].
Qed.

Lemma error_table_summarizes_messages_two_failures :
  let events := [("failed at /tmp/abc123 for user 42", 1700000000000);
                 ("disk full", 1700000001000);
                 ("failed at /tmp/xyz789 for user 99", 1700000002000)] in
  let key := "failed at PATH for user NUMBER" in
  let s := construct quiet_world in
  errorPatterns s = JSMap.empty /\
  (JSMap.get key (errorPatterns (analyze_all events s)) = None <->
   matching key events = []) /\
  forall p,
    JSMap.get key (errorPatterns (analyze_all events s)) = Some p ->
    count p = Z.of_nat (List.length (matching key events)) /\
    Some (first_seen p) = option_map snd (hd_error (matching key events)) /\
    Some (last_seen p) = option_map snd (hd_error (rev (matching key events))) /\
    messages p = JSArray.slice (-10) (matching key events) /\
    (List.length (messages p) <= 10)%nat.
Proof.
  intros events key s. split; [reflexivity|].
  apply (error_table_summarizes_messages events s key). reflexivity.
Defined.

Example error_table_two_failures :
  let events := [("failed at /tmp/abc123 for user 42", 1700000000000);
                 ("disk full", 1700000001000);
                 ("failed at /tmp/xyz789 for user 99", 1700000002000)] in
  map (fun kp => (fst kp, count (snd kp), first_seen (snd kp), last_seen (snd kp)))
      (errorPatterns (analyze_all events (construct quiet_world)))
  = [("failed at PATH for user NUMBER", 2, 1700000000000, 1700000002000);
     ("disk full", 1, 1700000001000, 1700000001000)].
Proof. vm_compute. reflexivity. Qed.

(** What [analyzeError] logs. *)
Lemma analyzeError_log (errorMessage : string) (s : Sys) :
  let key := extractErrorPattern errorMessage in
  let p := observe errorMessage (now (world s)) (JSMap.get key (errorPatterns s)) in
  exists s',
    analyzeError errorMessage s = (Normal tt, s') /\
    logged (world s') =
      logged (world s) ++
      (if 5 <=? count p then [recurring_entry key (count p) (first_seen p)] else []).
Proof.
  unfold analyzeError.
  generalize (extractErrorPattern errorMessage) as key. intros key.
  unfold bind, gets, Date_now, modify, ret, log, JSMap.has. simpl.
  destruct (JSMap.get key (errorPatterns s)) as [p|] eqn:G; simpl.
  - rewrite G. simpl.
    destruct (5 <=? count p + 1); eexists; (split; [reflexivity|]); simpl;
      [reflexivity | now rewrite app_nil_r].
  - rewrite JSMapFacts.get_set_same. simpl.
    destruct (5 <=? 0 + 1) eqn:E; [discriminate E|].
    eexists. split; [reflexivity|]. simpl. now rewrite app_nil_r.
Qed.

(** X16. After any sequence of calls of [analyzeError] on an empty table, a
    further call logs the recurring pattern warning exactly when at least 4
    earlier messages had the same pattern: the first four occurrences of a
    pattern log nothing, the fifth and every later one log one warning,
    with the count and the time of the first occurrence. *)
Theorem recurring_alert_from_fifth (events : list (string * Z)) (s : Sys)
  (errorMessage : string) (t : Z) :
  errorPatterns s = JSMap.empty ->
  let key := extractErrorPattern errorMessage in
  let seen := matching key events in
  let s1 := at_time t (analyze_all events s) in
  exists s2,
    analyzeError errorMessage s1 = (Normal tt, s2) /\
    ((List.length seen < 4)%nat -> logged (world s2) = logged (world s1)) /\
    ((4 <= List.length seen)%nat ->
     exists first,
       option_map snd (hd_error seen) = Some first /\
       logged (world s2) =
         logged (world s1) ++
         [recurring_entry key (Z.of_nat (List.length seen) + 1) first]).
Proof.
  intros Empty key seen s1.
  destruct (analyzeError_log errorMessage s1) as (s2 & Run & Log).
  exists s2. split; [exact Run|].
  pose proof (error_table_entry events s key Empty) as H.
  change (errorPatterns s1) with (errorPatterns (analyze_all events s)) in Log.
  fold key in Log. fold seen in H.
  destruct (JSMap.get key (errorPatterns (analyze_all events s))) as [p|].
  - destruct H as (Ne & C & F & L & M).
    unfold observe in Log. cbn [count first_seen] in Log. rewrite C in Log.
    split.
    + intros Few. rewrite Log.
      replace (5 <=? Z.of_nat (List.length seen) + 1) with false
        by (symmetry; apply Z.leb_gt; lia).
      apply app_nil_r.
    + intros Many. exists (first_seen p). split; [now rewrite <- F|].
      rewrite Log.
      replace (5 <=? Z.of_nat (List.length seen) + 1) with true
        by (symmetry; apply Z.leb_le; lia).
      reflexivity.
  - rewrite H. split.
    + intros _. rewrite Log. cbn. apply app_nil_r.
    + cbn. intros Many. lia.
Qed.

Lemma recurring_alert_from_fifth_timeouts :
  let events := [("timeout after 10 ms", 1700000001000);
                 ("timeout after 20 ms", 1700000002000);
                 ("timeout after 30 ms", 1700000003000);
                 ("timeout after 40 ms", 1700000004000)] in
  let s := construct quiet_world in
  let s1 := at_time 1700000005000 (analyze_all events s) in
  errorPatterns s = JSMap.empty /\
  exists s2,
    analyzeError "timeout after 50 ms" s1 = (Normal tt, s2) /\
    logged (world s2) =
      logged (world s1) ++ [recurring_entry "timeout after NUMBER ms" 5 1700000001000].
Proof.
  intros events s s1. split; [reflexivity|].
  destruct (recurring_alert_from_fifth events s "timeout after 50 ms" 1700000005000 eq_refl)
    as (s2 & Run & _ & Many).
  exists s2. split; [exact Run|].
  destruct Many as (first & First & Log); [vm_compute; lia|].
  rewrite Log. vm_compute in First. injection First as <-. reflexivity.
Defined.

(** ** Summaries: [getErrorPatterns] and [getHealingHistory] *)

Section SortByKey.

Context {A : Type} (key : A -> Z).

Lemma insert_descending_perm x l :
  Permutation (x :: l) (insert_sorted (descending key) x l).
Proof.
  induction l as [|y l IH]; cbn [insert_sorted]; [reflexivity|].
  destruct (descending key x y <=? 0); [reflexivity|].
  rewrite perm_swap. now apply perm_skip.
Qed.

Lemma sort_descending_perm l : Permutation l (sort (descending key) l).
Proof.
  induction l as [|x l IH]; cbn [sort fold_right]; [reflexivity|].
  rewrite <- insert_descending_perm. now apply perm_skip.
Qed.

Lemma insert_descending_sorted x l :
  StronglySorted (fun a b => key b <= key a) l ->
  StronglySorted (fun a b => key b <= key a) (insert_sorted (descending key) x l).
Proof.
  induction 1 as [|y l Sl IH Hy]; cbn [insert_sorted].
  - repeat constructor.
  - unfold descending at 1. destruct (key y - key x <=? 0) eqn:E.
    + apply Z.leb_le in E. constructor; [now constructor|].
      constructor; [lia|]. rewrite Forall_forall in Hy |- *.
      intros z I. specialize (Hy z I). simpl in Hy. lia.
    + apply Z.leb_gt in E. constructor; [exact IH|].
      rewrite Forall_forall in Hy |- *. intros z I.
      apply (Permutation_in _ (Permutation_sym (insert_descending_perm x l))) in I.
      destruct I as [<-|I]; [lia | now apply Hy].
Qed.

Lemma sort_descending_sorted l :
  StronglySorted (fun a b => key b <= key a) (sort (descending key) l).
Proof.
  induction l as [|x l IH]; cbn [sort fold_right]; [constructor|].
  now apply insert_descending_sorted.
Qed.

(** The sort is stable: the elements of one key keep their order. *)
Lemma insert_descending_stable k x l :
  filter (fun a => key a =? k) (insert_sorted (descending key) x l) =
  filter (fun a => key a =? k) (x :: l).
Proof.
  induction l as [|y l IH]; cbn [insert_sorted]; [reflexivity|].
  unfold descending at 1. destruct (key y - key x <=? 0) eqn:E; [reflexivity|].
  apply Z.leb_gt in E. cbn [filter] in IH |- *. rewrite IH.
  destruct (key x =? k) eqn:Kx; [|reflexivity].
  apply Z.eqb_eq in Kx.
  destruct (key y =? k) eqn:Ky; [|reflexivity].
  apply Z.eqb_eq in Ky. lia.
Qed.

Lemma sort_descending_stable k l :
  filter (fun a => key a =? k) (sort (descending key) l)
  = filter (fun a => key a =? k) l.
Proof.
  induction l as [|x l IH]; cbn [sort fold_right]; [reflexivity|].
  rewrite insert_descending_stable. cbn [filter].
  fold (sort (descending key) l). now rewrite IH.
Qed.

End SortByKey.

(** X17. [getErrorPatterns] returns normally and does not change the system.
    Its result holds one summary per entry of the table, in order of
    decreasing count; entries of equal count keep the order of the table
    (first seen first); every summary holds at most 3 recent messages. *)
Theorem getErrorPatterns_sorted_by_count (s : Sys) :
  exists patterns,
    getErrorPatterns s = (Normal patterns, s) /\
    Permutation patterns (map summary_of (JSMap.entries (errorPatterns s))) /\
    StronglySorted (fun a b => pattern_count b <= pattern_count a) patterns /\
    (forall n, filter (fun a => pattern_count a =? n) patterns =
               filter (fun a => pattern_count a =? n)
                      (map summary_of (JSMap.entries (errorPatterns s)))) /\
    Forall (fun a => (List.length (recent_messages a) <= 3)%nat) patterns.
Proof.
  unfold getErrorPatterns. run_monad.
  assert (E : map (fun '(key, data) =>
                     {| pattern := key;
                        pattern_count := count data;
                        pattern_first_seen := first_seen data;
                        pattern_last_seen := last_seen data;
                        recent_messages := JSArray.slice (-3) (messages data) |})
                  (JSMap.entries (errorPatterns s))
              = map summary_of (JSMap.entries (errorPatterns s))).
  { apply map_ext. intros [k d]. reflexivity. }
  rewrite E. eexists. split; [reflexivity|].
  split; [apply Permutation_sym, (sort_descending_perm pattern_count)|].
  split; [apply (sort_descending_sorted pattern_count)|].
  split; [intros n; apply (sort_descending_stable pattern_count)|].
  rewrite Forall_forall. intros a I.
  apply (Permutation_in _ (Permutation_sym (sort_descending_perm pattern_count _))) in I.
  apply in_map_iff in I. destruct I as ([k d] & <- & _). cbn [recent_messages summary_of snd].
  pose proof (JSArrayFacts.slice_length (-3) (messages d)) as Len.
  cbn [Z.ltb Z.compare] in Len. lia.
Qed.

(** X18. [getHealingHistory] returns normally and does not change the system.
    Its result holds one entry per recorded repair, the latest attempt
    first, with the recorded time stamp and a [cooldown_remaining] that is
    never negative.  For a registered repair with a name, the description
    is that name, and, for a time stamp other than 0, [cooldown_remaining]
    is positive exactly when [triggerHealing] would skip the repair now
    because of its cooldown. *)
Theorem getHealingHistory_agrees_with_cooldown (s : Sys) :
  JSMap.wf (healingAttempts s) ->
  exists history,
    getHealingHistory s = (Normal history, s) /\
    Permutation (map repair_name history) (JSMap.keys (healingAttempts s)) /\
    StronglySorted (fun a b => last_attempt b <= last_attempt a) history /\
    forall h, In h history ->
      JSMap.get (repair_name h) (healingAttempts s) = Some (last_attempt h) /\
      0 <= cooldown_remaining h /\
      forall r, JSMap.get (repair_name h) (autoRepairs s) = Some r ->
        (repair_label r <> "" -> repair_description h = repair_label r) /\
        cooldown_remaining h
        = Z.max 0 (last_attempt h + cooldown r - now (world s)) /\
        (last_attempt h <> 0 ->
         (0 < cooldown_remaining h <->
          in_cooldown (JSMap.get (repair_name h) (healingAttempts s))
                      (now (world s)) (cooldown r) = true)).
Proof.
  intros W. unfold getHealingHistory. run_monad.
  set (entry := fun '(repairName, stamp) =>
         {| repair_name := repairName;
            repair_description :=
              description_of (JSMap.get repairName (autoRepairs s)) repairName;
            last_attempt := stamp;
            cooldown_remaining :=
              Z.max 0 (stamp + cooldown_of (JSMap.get repairName (autoRepairs s))
                       - now (world s)) |}).
  eexists. split; [reflexivity|].
  pose proof (sort_descending_perm last_attempt
                (map entry (JSMap.entries (healingAttempts s)))) as P.
  split; [|split].
  - rewrite <- P. unfold JSMap.keys, JSMap.entries. rewrite map_map.
    erewrite map_ext; [reflexivity|]. intros [k t]. reflexivity.
  - apply (sort_descending_sorted last_attempt).
  - intros h I. apply (Permutation_in _ (Permutation_sym P)) in I.
    apply in_map_iff in I. destruct I as ([k t] & <- & I).
    apply (JSMapFacts.In_get _ _ _ W) in I.
    cbn [entry repair_name repair_description last_attempt cooldown_remaining].
    split; [exact I|]. split; [lia|].
    intros r G. rewrite G, I. cbn [cooldown_of description_of]. split.
    { intros Named. destruct (String.eqb (repair_label r) "") eqn:E; [|reflexivity].
      apply String.eqb_eq in E. contradiction. }
    split; [reflexivity|].
    intros Nz. unfold in_cooldown.
    replace (t =? 0) with false by (symmetry; now apply Z.eqb_neq).
    cbn [negb andb]. rewrite Z.ltb_lt. lia.
Qed.

Lemma getHealingHistory_agrees_with_cooldown_after_memory_cleanup :
  JSMap.wf (healingAttempts after_memory_cleanup) /\
  exists history,
    getHealingHistory after_memory_cleanup = (Normal history, after_memory_cleanup) /\
    Permutation (map repair_name history)
                (JSMap.keys (healingAttempts after_memory_cleanup)) /\
    StronglySorted (fun a b => last_attempt b <= last_attempt a) history /\
    forall h, In h history ->
      JSMap.get (repair_name h) (healingAttempts after_memory_cleanup)
      = Some (last_attempt h) /\
      0 <= cooldown_remaining h /\
      forall r, JSMap.get (repair_name h) (autoRepairs after_memory_cleanup) = Some r ->
        (repair_label r <> "" -> repair_description h = repair_label r) /\
        cooldown_remaining h
        = Z.max 0 (last_attempt h + cooldown r - now (world after_memory_cleanup)) /\
        (last_attempt h <> 0 ->
         (0 < cooldown_remaining h <->
          in_cooldown (JSMap.get (repair_name h) (healingAttempts after_memory_cleanup))
                      (now (world after_memory_cleanup)) (cooldown r) = true)).
Proof.
  assert (W : JSMap.wf (healingAttempts after_memory_cleanup)).
  { unfold JSMap.wf. vm_compute. repeat constructor. intros []. }
  split; [exact W|].
  exact (getHealingHistory_agrees_with_cooldown after_memory_cleanup W).
Defined.

(** ** The error rate check and [recordMetric] *)

Lemma error_rate_exact_50 : error_rate_exact_upto 50 = true.
Proof. vm_compute. reflexivity. Qed.

Lemma error_rate_exact_upto_spec (bound errorCount total : nat) :
  error_rate_exact_upto bound = true ->
  (0 < total <= bound)%nat -> (errorCount <= total)%nat ->
  error_rate_below_10 (Z.of_nat errorCount) (Z.of_nat total)
  = (10 * Z.of_nat errorCount <? Z.of_nat total).
Proof.
  intros T Ht He.
  unfold error_rate_exact_upto in T. rewrite forallb_forall in T.
  specialize (T total). rewrite forallb_forall in T.
  apply eqb_prop, T; apply in_seq; lia.
Qed.

Lemma error_rate_below_10_spec (errorCount total : nat) :
  (0 < total <= 50)%nat -> (errorCount <= total)%nat ->
  error_rate_below_10 (Z.of_nat errorCount) (Z.of_nat total)
  = (10 * Z.of_nat errorCount <? Z.of_nat total).
Proof. apply error_rate_exact_upto_spec. exact error_rate_exact_50. Qed.

(** The error rate check on a given world. *)
Lemma error_rate_check_reading (w : World) :
  exists reading,
    check error_rate_check w = Normal reading /\
    (healthy reading = false <->
     recentSamples w <> [] /\
     (List.length (recentSamples w) <= 10 * List.length (filter is_error (recentSamples w)))%nat).
Proof.
  cbn [check error_rate_check].
  fold (recentSamples w).
  change (fun metric : Metric => 400 <=? statusCode metric) with is_error.
  assert (Len : (List.length (recentSamples w) <= 50)%nat).
  { unfold recentSamples.
    pose proof (JSArrayFacts.slice_length (-50) (performanceMetrics w)) as L.
    cbn [Z.ltb Z.compare] in L. lia. }
  pose proof (filter_length_le is_error (recentSamples w)) as Le.
  destruct (List.length (recentSamples w) =? 0)%nat eqn:Z0.
  - apply Nat.eqb_eq in Z0. eexists. split; [reflexivity|]. cbn [healthy].
    split; [discriminate|]. intros [N _].
    destruct (recentSamples w); [congruence | discriminate Z0].
  - apply Nat.eqb_neq in Z0. eexists. split; [reflexivity|]. cbn [healthy].
    pose proof (error_rate_below_10_spec (List.length (filter is_error (recentSamples w)))
                  (List.length (recentSamples w)) ltac:(lia) Le) as S.
    unfold error_rate_below_10 in S. rewrite S.
    rewrite Z.ltb_ge. split.
    + intros H. split; [|lia]. intros E. rewrite E in Z0. contradiction.
    + intros [_ H]. lia.
Qed.

(** X19. The error rate check returns normally; its reading is unhealthy
    exactly when there is at least one sample and at least 10 % of the
    last 50 samples (of all, if fewer) have a status of 400 or more.  With
    no sample it is healthy.  The comparison [(errors / total) * 100 < 10]
    in binary64 agrees with the exact one for all counts up to 50. *)
Theorem error_rate_check_threshold (w : World) :
  let recent := recentSamples w in
  let errors := filter is_error recent in
  exists reading,
    check error_rate_check w = Normal reading /\
    (healthy reading = false <->
     recent <> [] /\ (List.length recent <= 10 * List.length errors)%nat).
Proof. exact (error_rate_check_reading w). Qed.

(** [recordMetric] appends one sample, stamped with the time of the call. *)
Lemma record_all_samples (requests : list (string * Float64.t * Z)) : forall s,
  performanceMetrics (world (record_all requests s)) =
  performanceMetrics (world s) ++
  map (fun '(e, rt, code) =>
         {| endpoint := e; responseTime := rt; statusCode := code;
            timestamp := now (world s) |}) requests.
Proof.
  induction requests as [|[[e rt] code] requests IH]; intros s.
  - cbn. now rewrite app_nil_r.
  - cbn [record_all fold_left]. fold (record_all requests).
    rewrite IH. unfold recordMetric. run_monad.
    cbn [world set_world performanceMetrics set_performanceMetrics now map].
    now rewrite <- app_assoc.
Qed.

(** X20. Once at least 50 requests have been recorded with [recordMetric], the
    error rate check depends on the last 50 recorded only: it is unhealthy
    exactly when at least 5 of them have a status of 400 or more, whatever
    was stored before. *)
Theorem error_rate_follows_last_50_requests (requests : list (string * Float64.t * Z))
  (s : Sys) :
  (50 <= List.length requests)%nat ->
  let last50 := skipn (List.length requests - 50) requests in
  exists reading,
    check error_rate_check (world (record_all requests s)) = Normal reading /\
    (healthy reading = false <->
     (5 <= List.length (filter (fun r => (400 <=? snd r)%Z) last50))%nat).
Proof.
  intros Many last50.
  destruct (error_rate_check_reading (world (record_all requests s)))
    as (reading & Run & Iff).
  exists reading. split; [exact Run|]. rewrite Iff. clear Run Iff.
  set (stamp := fun '(e, rt, code) =>
         {| endpoint := e; responseTime := rt; statusCode := code;
            timestamp := now (world s) |}).
  assert (R : recentSamples (world (record_all requests s)) = map stamp last50).
  { unfold recentSamples. rewrite record_all_samples. fold stamp.
    unfold JSArray.slice. cbn [Z.ltb Z.compare].
    rewrite length_app, length_map.
    replace (Z.to_nat (Z.max (Z.of_nat (List.length (performanceMetrics (world s))
                                         + List.length requests) + -50) 0))
      with (List.length (performanceMetrics (world s)) + (List.length requests - 50))%nat
      by lia.
    rewrite skipn_app.
    replace (List.length (performanceMetrics (world s)) + (List.length requests - 50)
             - List.length (performanceMetrics (world s)))%nat
      with (List.length requests - 50)%nat by lia.
    rewrite skipn_all2 by lia. cbn [app]. unfold last50. now rewrite skipn_map. }
  rewrite R.
  assert (F : List.length (filter is_error (map stamp last50)) =
              List.length (filter (fun r => 400 <=? snd r) last50)).
  { clear. induction last50 as [|[[e rt] code] l IH]; [reflexivity|].
    cbn [map filter]. unfold is_error at 1. cbn [statusCode stamp snd].
    destruct (400 <=? code); cbn [List.length]; now rewrite IH. }
  rewrite F, length_map.
  assert (L : List.length last50 = 50%nat) by (unfold last50; rewrite length_skipn; lia).
  rewrite L. split.
  - intros [_ H]. lia.
  - intros H. split; [|lia]. destruct last50; [discriminate L | discriminate].
Qed.

Lemma error_rate_follows_last_50_requests_five_failures :
  let requests := repeat ("/api/x", Float64.of_Z 12, 200) 10 ++
                  repeat ("/api/y", Float64.of_Z 12, 500) 5 ++
                  repeat ("/api/x", Float64.of_Z 12, 200) 45 in
  let s := construct quiet_world in
  (50 <= List.length requests)%nat /\
  exists reading,
    check error_rate_check (world (record_all requests s)) = Normal reading /\
    (healthy reading = false <->
     (5 <= List.length (filter (fun r => (400 <=? snd r)%Z)
                               (skipn (List.length requests - 50) requests)))%nat).
Proof.
  intros requests s.
  assert (Many : (50 <= List.length requests)%nat) by (vm_compute; lia).
  split; [exact Many|].
  exact (error_rate_follows_last_50_requests requests s Many).
Defined.

(** ** Pattern keys *)

Module RegExpFacts.

Import RegExp.

Lemma leading_drop input :
  List.length input = (leading_digits input + List.length (drop_digits input))%nat.
Proof.
  induction input as [|c rest IH]; [reflexivity|].
  cbn [leading_digits drop_digits]. destruct (digit c); cbn [List.length]; lia.
Qed.

(** The greedy loop of [\d+] takes all the digits there are. *)
Lemma star_digits input : forall prev,
  star digit prev input (fun _ rest => Some rest) = Some (drop_digits input).
Proof.
  induction input as [|c rest IH]; intros prev; [reflexivity|].
  cbn [star drop_digits]. destruct (digit c) eqn:D; [|reflexivity].
  now rewrite IH.
Qed.

Lemma match_number prev c rest :
  match_here re_number prev (c :: rest) =
  if digit c then Some (drop_digits rest) else None.
Proof.
  unfold match_here, re_number. cbn [run].
  destruct (digit c); [apply star_digits | reflexivity].
Qed.

(** [replace(/\d+/g, by)] replaces every maximal run of digits. *)
Lemma replace_number by_ input :
  (forall prev, replace_from re_number by_ prev input 0 = mask_numbers by_ false input) /\
  (forall prev, replace_from re_number by_ prev input (leading_digits input)
                = mask_numbers by_ true input).
Proof.
  induction input as [|c rest [IH0 IH1]].
  - split; intros prev; reflexivity.
  - assert (Zero : forall prev,
              replace_from re_number by_ prev (c :: rest) 0
              = mask_numbers by_ false (c :: rest)).
    { intros prev. cbn [replace_from mask_numbers]. rewrite match_number.
      destruct (digit c) eqn:D.
      - replace (List.length (c :: rest) - List.length (drop_digits rest))%nat
          with (S (leading_digits rest))
          by (cbn [List.length]; rewrite (leading_drop rest); lia).
        now rewrite IH1.
      - now rewrite IH0. }
    split; [exact Zero|].
    intros prev. cbn [leading_digits].
    destruct (digit c) eqn:D.
    + cbn [replace_from mask_numbers]. rewrite D. cbn [app]. apply IH1.
    + rewrite Zero. cbn [mask_numbers]. now rewrite D.
Qed.

Lemma mask_numbers_no_digit by_ input : forall in_number,
  Forall (fun c => digit c = false) by_ ->
  Forall (fun c => digit c = false) (mask_numbers by_ in_number input).
Proof.
  induction input as [|c rest IH]; intros in_number Hby; cbn [mask_numbers].
  - constructor.
  - destruct (digit c) eqn:D.
    + apply Forall_app. split; [destruct in_number; [constructor | exact Hby]|].
      now apply IH.
    + constructor; [exact D | now apply IH].
Qed.

(** Whatever the expression, the result of a replacement is made of
    characters of the input and of the replacement. *)
Lemma replace_from_chars (P : ascii -> Prop) r by_ input : forall prev skip,
  Forall P by_ -> Forall P input ->
  Forall P (replace_from r by_ prev input skip).
Proof.
  induction input as [|c rest IH]; intros prev skip Hby Hin; cbn [replace_from].
  - destruct skip; [|constructor].
    destruct (match_here r prev []); [exact Hby | constructor].
  - inversion Hin as [|? ? Hc Hrest]; subst.
    destruct skip as [|skip']; [|now apply IH].
    destruct (match_here r prev (c :: rest)) as [remaining|].
    + destruct (List.length (c :: rest) - List.length remaining)%nat.
      * apply Forall_app. split; [exact Hby|]. constructor; [exact Hc|]. now apply IH.
      * apply Forall_app. split; [exact Hby|]. now apply IH.
    + constructor; [exact Hc | now apply IH].
Qed.

(** Where the expression matches nowhere, the replacement changes nothing. *)
Lemma replace_from_no_match (Q : list ascii -> Prop) r by_ input : forall prev,
  (forall c rest, Q (c :: rest) -> Q rest) ->
  (forall prev' input', Q input' -> match_here r prev' input' = None) ->
  Q input ->
  replace_from r by_ prev input 0 = input.
Proof.
  intros prev Tail Miss. revert prev.
  induction input as [|c rest IH]; intros prev Hq; cbn [replace_from].
  - now rewrite Miss.
  - rewrite Miss by exact Hq. f_equal. apply IH. eapply Tail, Hq.
Qed.

Lemma times_miss (Q : list ascii -> Prop) n p k : forall prev input,
  (forall c rest, Q (c :: rest) -> Q rest) ->
  (forall prev' input', Q input' -> k prev' input' = None) ->
  Q input ->
  times n p prev input k = None.
Proof.
  induction n as [|n IH]; intros prev input Tail Miss Hq; cbn [times].
  - now apply Miss.
  - destruct input as [|c rest]; [reflexivity|].
    destruct (p c); [|reflexivity]. apply IH; auto. eapply Tail, Hq.
Qed.

Lemma star_miss (Q : list ascii -> Prop) p k input : forall prev,
  (forall c rest, Q (c :: rest) -> Q rest) ->
  (forall prev' input', Q input' -> k prev' input' = None) ->
  Q input ->
  star p prev input k = None.
Proof.
  induction input as [|c rest IH]; intros prev Tail Miss Hq; cbn [star].
  - now apply Miss.
  - destruct (p c); [|now apply Miss].
    rewrite IH; auto. eapply Tail, Hq.
Qed.

Lemma chr_miss (Q : list ascii -> Prop) c k prev input :
  (forall x rest, Q (x :: rest) -> Ascii.eqb x c = false) ->
  Q input ->
  run (Chr c) prev input k = None.
Proof.
  intros Not Hq. cbn [run]. destruct input as [|x rest]; [reflexivity|].
  now rewrite (Not x rest Hq).
Qed.

Lemma all_plain_tail c rest : all_plain (c :: rest) -> all_plain rest.
Proof. intros H. now inversion H. Qed.

Lemma all_plain_head c rest :
  all_plain (c :: rest) ->
  digit c = false /\ Ascii.eqb c "/" = false /\ Ascii.eqb c "-" = false /\
  Ascii.eqb c "@" = false.
Proof.
  intros H. inversion H as [|? ? Hc _]; subst. unfold plain in Hc.
  repeat (apply andb_true_iff in Hc; destruct Hc as [Hc ?]).
  repeat split; now apply negb_true_iff.
Qed.

(** None of the four expressions matches inside a plain text. *)
Lemma number_miss prev input : all_plain input -> match_here re_number prev input = None.
Proof.
  intros H. unfold match_here, re_number. cbn [run].
  destruct input as [|c rest]; [reflexivity|].
  now rewrite (proj1 (all_plain_head c rest H)).
Qed.

Lemma path_miss prev input : all_plain input -> match_here re_path prev input = None.
Proof.
  intros H. unfold match_here, re_path. cbn [seq_of fold_right run].
  destruct input as [|c rest]; [reflexivity|].
  destruct (all_plain_head c rest H) as (_ & -> & _). reflexivity.
Qed.

Lemma uuid_miss prev input : all_plain input -> match_here re_uuid prev input = None.
Proof.
  intros H. unfold match_here, re_uuid. cbn [seq_of fold_right]. cbn [run].
  apply (times_miss all_plain); [exact all_plain_tail | | exact H].
  intros prev' input' H'. destruct input' as [|c rest]; [reflexivity|].
  destruct (all_plain_head c rest H') as (_ & _ & -> & _). reflexivity.
Qed.

Lemma email_miss prev input : all_plain input -> match_here re_email prev input = None.
Proof.
  intros H. unfold match_here, re_email. cbn [seq_of fold_right]. cbn [run].
  destruct (xorb (is_word prev) (is_word (hd_error input))); [|reflexivity].
  destruct input as [|c rest]; [reflexivity|].
  destruct (word c); [|reflexivity].
  apply (star_miss all_plain); [exact all_plain_tail | | exact (all_plain_tail _ _ H)].
  intros prev' input' H'. destruct input' as [|x rest']; [reflexivity|].
  destruct (all_plain_head x rest' H') as (_ & _ & _ & ->). reflexivity.
Qed.

Lemma replace_all_plain r by_ input :
  (forall prev l, all_plain l -> match_here r prev l = None) ->
  all_plain (chars input) ->
  replace_all r by_ input = input.
Proof.
  intros Miss H. unfold replace_all.
  rewrite (replace_from_no_match all_plain); auto.
  - apply string_of_list_ascii_of_string.
  - exact all_plain_tail.
Qed.

Lemma mask_digits by_ d l :
  Forall (fun c => digit c = true) d ->
  mask_numbers by_ true (d ++ l) = mask_numbers by_ true l /\
  (d <> [] -> mask_numbers by_ false (d ++ l) = by_ ++ mask_numbers by_ true l).
Proof.
  intros Hd. induction Hd as [|c d Hc Hd [IH _]].
  - split; [reflexivity | congruence].
  - cbn [app mask_numbers]. rewrite Hc, IH. split; [reflexivity | intros _; reflexivity].
Qed.

Lemma mask_same_but_numbers by_ l1 l2 :
  same_but_numbers l1 l2 ->
  forall in_number, mask_numbers by_ in_number l1 = mask_numbers by_ in_number l2.
Proof.
  induction 1 as [|c l1 l2 Hc _ IH|d1 d2 l1 l2 N1 N2 D1 D2 _ IH]; intros in_number.
  - reflexivity.
  - cbn [mask_numbers]. rewrite Hc. now rewrite IH.
  - destruct (mask_digits by_ d1 l1 D1) as [T1 F1].
    destruct (mask_digits by_ d2 l2 D2) as [T2 F2].
    destruct in_number.
    + now rewrite T1, T2, IH.
    + now rewrite (F1 N1), (F2 N2), IH.
Qed.

Lemma replace_all_number by_ input :
  replace_all re_number by_ input
  = string_of_list_ascii (mask_numbers (chars by_) false (chars input)).
Proof.
  unfold replace_all. now rewrite (proj1 (replace_number _ _)).
Qed.

Lemma length_substring_le s : forall n m,
  (String.length (String.substring n m s) <= m)%nat.
Proof.
  induction s as [|c s IH]; intros n m.
  - destruct n, m; cbn; lia.
  - destruct n as [|n]; [destruct m as [|m]|]; cbn [String.substring String.length].
    + lia.
    + specialize (IH 0%nat m). lia.
    + apply IH.
Qed.

Lemma substring_chars (P : ascii -> Prop) s : forall n m,
  Forall P (chars s) -> Forall P (chars (String.substring n m s)).
Proof.
  unfold chars. induction s as [|c s IH]; intros n m H.
  - destruct n, m; constructor.
  - cbn [list_ascii_of_string] in H. inversion H as [|? ? Hc Hs]; subst.
    destruct n as [|n]; [destruct m as [|m]|]; cbn [String.substring list_ascii_of_string].
    + constructor.
    + constructor; [exact Hc | now apply IH].
    + now apply IH.
Qed.

Lemma substring_whole s :
  (String.length s <= 200)%nat -> String.substring 0 200 s = s.
Proof.
  generalize 200%nat as m. induction s as [|c s IH]; intros m H.
  - destruct m; reflexivity.
  - destruct m as [|m]; [cbn in H; lia|].
    cbn [String.substring]. f_equal. apply IH. cbn in H. lia.
Qed.

End RegExpFacts.

(** X21. The key [extractErrorPattern] returns is at most 200 characters long
    and contains no decimal digit. *)
Theorem pattern_is_short_and_digit_free (errorMessage : string) :
  (String.length (extractErrorPattern errorMessage) <= 200)%nat /\
  Forall (fun c => RegExp.digit c = false) (chars (extractErrorPattern errorMessage)).
Proof.
  unfold extractErrorPattern. split; [apply RegExpFacts.length_substring_le|].
  apply RegExpFacts.substring_chars.
  unfold RegExp.replace_all at 1 2 3, chars.
  rewrite !list_ascii_of_string_of_list_ascii.
  repeat (apply RegExpFacts.replace_from_chars;
          [repeat constructor|]).
  rewrite RegExpFacts.replace_all_number, list_ascii_of_string_of_list_ascii.
  apply RegExpFacts.mask_numbers_no_digit. repeat constructor.
Qed.

(** X22. Two messages that differ only in the digits of their numbers (each run
    of digits of one stands where a run of digits stands in the other, of
    any length) have the same pattern key. *)
Theorem numbers_do_not_change_the_pattern (m1 m2 : string) :
  same_but_numbers (chars m1) (chars m2) ->
  extractErrorPattern m1 = extractErrorPattern m2.
Proof.
  intros H. unfold extractErrorPattern.
  rewrite !RegExpFacts.replace_all_number.
  now rewrite (RegExpFacts.mask_same_but_numbers _ _ _ H).
Qed.

Lemma numbers_do_not_change_the_pattern_timeouts :
  same_but_numbers (chars "timeout after 30 ms") (chars "timeout after 4500 ms") /\
  extractErrorPattern "timeout after 30 ms" = extractErrorPattern "timeout after 4500 ms".
Proof.
  assert (H : same_but_numbers (chars "timeout after 30 ms")
                               (chars "timeout after 4500 ms")).
  { cbn. do 14 (apply sbn_char; [reflexivity|]).
    apply (sbn_number ["3"; "0"]%char ["4"; "5"; "0"; "0"]%char);
      [discriminate | discriminate | repeat constructor | repeat constructor |].
    do 3 (apply sbn_char; [reflexivity|]). apply sbn_end. }
  split; [exact H | exact (numbers_do_not_change_the_pattern _ _ H)].
Defined.

(** X23. A message without digits and without the characters [/], [-] and [@]
    is left alone by the four replacements: its key is the message cut to
    200 characters, and the message itself if it is no longer than that. *)
Theorem plain_message_is_its_own_pattern (errorMessage : string) :
  all_plain (chars errorMessage) ->
  extractErrorPattern errorMessage = String.substring 0 200 errorMessage /\
  ((String.length errorMessage <= 200)%nat ->
   extractErrorPattern errorMessage = errorMessage).
Proof.
  intros H.
  assert (E : extractErrorPattern errorMessage = String.substring 0 200 errorMessage).
  { unfold extractErrorPattern.
    rewrite (RegExpFacts.replace_all_plain re_number)
      by (auto using RegExpFacts.number_miss).
    rewrite (RegExpFacts.replace_all_plain re_path)
      by (auto using RegExpFacts.path_miss).
    rewrite (RegExpFacts.replace_all_plain re_uuid)
      by (auto using RegExpFacts.uuid_miss).
    rewrite (RegExpFacts.replace_all_plain re_email)
      by (auto using RegExpFacts.email_miss).
    reflexivity. }
  split; [exact E|]. intros Short. rewrite E. now apply RegExpFacts.substring_whole.
Qed.

Lemma plain_message_is_its_own_pattern_disk_full :
  all_plain (chars "disk full") /\
  extractErrorPattern "disk full" = String.substring 0 200 "disk full" /\
  ((String.length "disk full" <= 200)%nat -> extractErrorPattern "disk full" = "disk full").
Proof.
  assert (H : all_plain (chars "disk full")) by (repeat constructor).
  split; [exact H | exact (plain_message_is_its_own_pattern "disk full" H)].
Defined.

(** ** The optimizer: the percentage against 75 *)

Section Optimizer.

Lemma m75_spec : 4 * m75 = 3 * 2 ^ 53.
Proof. reflexivity. Qed.

Lemma of_Z_75 : Float64.of_Z 75 = S754_finite false m75f (-46).
Proof. reflexivity. Qed.

Lemma gtb_finite (M1 M2 : positive) (E1 E2 : Z) :
  Float64.gtb (S754_finite false M1 E1) (S754_finite false M2 E2) = true <->
  E2 < E1 \/ (E2 = E1 /\ Zpos M2 < Zpos M1).
Proof. unfold Float64.gtb. apply (ltb_finite M2 M1 E2 E1). Qed.

(** A ratio above 0.75, for sizes below [2^48]: the quotient is at least
    eight units above the double 0.75. *)
Lemma div_above_75 (hu ht : Z) :
  0 < hu < 2 ^ 53 -> 0 < ht < 2 ^ 48 -> 3 * ht < 4 * hu ->
  exists (M : positive) (E : Z),
    Float64.div (Float64.of_Z hu) (Float64.of_Z ht) = S754_finite false M E /\
    2 ^ 52 <= Zpos M < 2 ^ 53 /\ -106 <= E <= 2 /\
    (-53 < E \/ (E = -53 /\ m75 + 8 <= Zpos M)).
Proof.
  intros Hu Ht Hratio.
  destruct (div_of_Z hu ht Hu ltac:(lia)) as (M & E & Hres & HM & Hn & Hs & Hq & Hc).
  set (s := 53 + Zdigits2 ht - Zdigits2 hu) in *.
  set (q := hu * 2 ^ s / ht) in *.
  set (n := Zdigits2 q - 53) in *.
  exists M, E. split; [exact Hres|]. split; [exact HM|]. split; [lia|].
  assert (P2 : 0 < 2 ^ n) by (apply Z.pow_pos_nonneg; lia).
  pose proof m75_spec as H75.
  destruct (Z_lt_ge_dec (n - s) (-53)) as [Small|Big].
  - exfalso.
    assert (Hlt : hu * 2 ^ s < 2 ^ (53 + n) * ht).
    { apply Z.lt_le_trans with ((q + 1) * ht).
      - unfold q. pose proof (Z.mul_succ_div_gt (hu * 2 ^ s) ht ltac:(lia)). lia.
      - apply Z.mul_le_mono_nonneg_r; lia. }
    assert (Hge : 2 ^ (54 + n) <= 2 ^ s) by (apply Z.pow_le_mono_r; lia).
    replace (54 + n) with (Z.succ (53 + n)) in Hge by lia.
    rewrite Z.pow_succ_r in Hge by lia.
    assert (0 < 2 ^ (53 + n)) by (apply Z.pow_pos_nonneg; lia).
    nia.
  - destruct (Z.eq_dec (n - s) (-53)) as [Eq|Ne]; [|destruct Hc as [(-> & _)|(-> & _)]; lia].
    destruct Hc as [(-> & Hcases & _) | (-> & _)]; [|lia].
    right. split; [exact Eq|].
    assert (Hm1 : m75 + 8 <= q / 2 ^ n).
    { apply Z.div_le_lower_bound; [lia|].
      unfold q. apply Z.div_le_lower_bound; [lia|].
      replace s with (53 + n) by lia. rewrite Z.pow_add_r by lia.
      assert (2 ^ 51 = 2251799813685248) by reflexivity.
      assert (2 ^ 53 = 4 * 2 ^ 51) by reflexivity.
      assert (2 ^ 48 = 281474976710656) by reflexivity.
      nia. }
    lia.
Qed.

(** The ratio 3/4 is a double: the quotient is exact. *)
Lemma div_exact_75 (hu ht : Z) :
  0 < hu < 2 ^ 53 -> 0 < ht < 2 ^ 53 -> 4 * hu = 3 * ht ->
  Float64.div (Float64.of_Z hu) (Float64.of_Z ht)
  = S754_finite false 6755399441055744 (-53).
Proof.
  intros Hu Ht Hratio.
  destruct (div_of_Z hu ht Hu Ht) as (M & E & Hres & HM & Hn & Hs & Hq & Hc).
  set (s := 53 + Zdigits2 ht - Zdigits2 hu) in *.
  set (q := hu * 2 ^ s / ht) in *.
  set (n := Zdigits2 q - 53) in *.
  assert (P2 : 0 < 2 ^ n) by (apply Z.pow_pos_nonneg; lia).
  (* the quotient is 3 * 2^(s - 2) *)
  assert (S2 : 2 <= s).
  { destruct (Z_le_gt_dec 2 s) as [L|G]; [exact L|]. exfalso.
    assert (s = 1) by lia. subst s.
    assert (q <= 2 * hu / ht).
    { unfold q. replace (Zdigits2 ht) with (Zdigits2 hu - 52) in * by lia.
      replace (53 + (Zdigits2 hu - 52) - Zdigits2 hu) with 1 by lia.
      rewrite Z.pow_1_r. replace (hu * 2) with (2 * hu) by lia. lia. }
    assert (2 * hu / ht < 2) by (apply Z.div_lt_upper_bound; lia).
    assert (2 ^ 52 <= 2 ^ (52 + n)) by (apply Z.pow_le_mono_r; lia).
    assert (0 < 2 ^ 52) by reflexivity. lia. }
  assert (Q : q = 3 * 2 ^ (s - 2)).
  { unfold q. replace s with (2 + (s - 2)) at 1 by lia.
    rewrite Z.pow_add_r by lia. change (2 ^ 2) with 4.
    replace (hu * (4 * 2 ^ (s - 2))) with (3 * 2 ^ (s - 2) * ht) by lia.
    apply Z.div_mul. lia. }
  assert (Es : s - 2 = 51 + n).
  { destruct Hq as [Lo Hi]. rewrite Q in Lo, Hi.
    destruct (Z.lt_trichotomy (s - 2) (51 + n)) as [L|[Eq|G]]; [|exact Eq|]; exfalso.
    - assert (2 ^ (s - 2) <= 2 ^ (50 + n)) by (apply Z.pow_le_mono_r; lia).
      replace (52 + n) with (2 + (50 + n)) in Lo by lia.
      rewrite Z.pow_add_r in Lo by lia. change (2 ^ 2) with 4 in Lo.
      assert (0 < 2 ^ (50 + n)) by (apply Z.pow_pos_nonneg; lia). lia.
    - assert (2 ^ (52 + n) <= 2 ^ (s - 2)) by (apply Z.pow_le_mono_r; lia).
      replace (53 + n) with (1 + (52 + n)) in Hi by lia.
      rewrite Z.pow_add_r in Hi by lia. change (2 ^ 1) with 2 in Hi.
      assert (0 < 2 ^ (52 + n)) by (apply Z.pow_pos_nonneg; lia). lia. }
  assert (Qn : q / 2 ^ n = m75).
  { rewrite Q, Es. rewrite Z.pow_add_r by lia.
    replace (3 * (2 ^ 51 * 2 ^ n)) with (3 * 2 ^ 51 * 2 ^ n) by lia.
    rewrite Z.div_mul by lia. reflexivity. }
  assert (Exact : (hu * 2 ^ s) mod (ht * 2 ^ n) = 0).
  { replace s with (2 + (51 + n)) by lia.
    rewrite !Z.pow_add_r by lia. change (2 ^ 2) with 4.
    replace (hu * (4 * (2 ^ 51 * 2 ^ n))) with (3 * 2 ^ 51 * (ht * 2 ^ n)) by lia.
    apply Z.mod_mul. lia. }
  rewrite Hres.
  destruct Hc as [(-> & _ & Hex) | (_ & _ & _ & Hne)]; [|contradiction].
  specialize (Hex Exact). rewrite Qn in Hex. unfold m75 in Hex.
  injection Hex as ->. f_equal. lia.
Qed.

(** A ratio below 0.75, for sizes below [2^48]: the quotient is at least
    eight units below the double 0.75. *)
Lemma div_below_75 (hu ht : Z) :
  0 < hu -> 0 < ht < 2 ^ 48 -> 4 * hu < 3 * ht ->
  exists (M : positive) (E : Z),
    Float64.div (Float64.of_Z hu) (Float64.of_Z ht) = S754_finite false M E /\
    2 ^ 52 <= Zpos M < 2 ^ 53 /\ -106 <= E <= 2 /\
    (E < -53 \/ (E = -53 /\ Zpos M <= m75 - 8)).
Proof.
  intros Hu Ht Hratio.
  assert (Hu53 : 0 < hu < 2 ^ 53) by lia.
  assert (Ht53 : 0 < ht < 2 ^ 53) by lia.
  destruct (div_of_Z hu ht Hu53 Ht53) as (M & E & Hres & HM & Hn & Hs & Hq & Hc).
  set (s := 53 + Zdigits2 ht - Zdigits2 hu) in *.
  set (q := hu * 2 ^ s / ht) in *.
  set (n := Zdigits2 q - 53) in *.
  exists M, E. split; [exact Hres|]. split; [exact HM|]. split; [lia|].
  assert (P2 : 0 < 2 ^ n) by (apply Z.pow_pos_nonneg; lia).
  pose proof m75_spec as H75.
  destruct (Z_lt_ge_dec (-53) (n - s)) as [Big|Small].
  - exfalso.
    assert (Hge : 2 ^ (52 + n) * ht <= hu * 2 ^ s).
    { apply Z.le_trans with (q * ht).
      - apply Z.mul_le_mono_nonneg_r; lia.
      - unfold q. pose proof (Z.mul_div_le (hu * 2 ^ s) ht ltac:(lia)). lia. }
    assert (Hle : 2 ^ s <= 2 ^ (52 + n)) by (apply Z.pow_le_mono_r; lia).
    assert (0 < 2 ^ (52 + n)) by (apply Z.pow_pos_nonneg; lia).
    nia.
  - destruct (Z.eq_dec (n - s) (-53)) as [Eq|Ne].
    + assert (Es : s = 53 + n) by lia.
      assert (Hq1 : q / 2 ^ n = hu * 2 ^ 53 / ht).
      { unfold q. rewrite Z.div_div by lia. rewrite Es, Z.pow_add_r by lia.
        rewrite Z.mul_assoc. apply Z.div_mul_cancel_r; lia. }
      assert (Hm1 : q / 2 ^ n <= m75 - 9).
      { rewrite Hq1. apply Z.lt_succ_r. apply Z.div_lt_upper_bound; [lia|].
        assert (2 ^ 53 = 4 * 2 ^ 51) by reflexivity.
        assert (2 ^ 51 = 2251799813685248) by reflexivity.
        assert (2 ^ 48 = 281474976710656) by reflexivity.
        nia. }
      destruct Hc as [(-> & Hcases & _) | (-> & _ & Hcarry & _)].
      * right. split; [exact Eq|]. lia.
      * exfalso. unfold m75 in Hm1. lia.
    + destruct Hc as [(-> & _) | (-> & HMc & _)]; [lia|].
      destruct (Z.eq_dec (n - s + 1) (-53)) as [Eq1|Ne1]; [|lia].
      right. split; [exact Eq1|]. rewrite HMc. unfold m75. lia.
Qed.

(** Eight units above the double 0.75, the percentage is above 75. *)
Lemma mul100_above_75 (M : positive) (E : Z) :
  2 ^ 52 <= Zpos M < 2 ^ 53 -> -106 <= E <= 2 ->
  -53 < E \/ (E = -53 /\ m75 + 8 <= Zpos M) ->
  Float64.gtb (Float64.mul (S754_finite false M E) (Float64.of_Z 100)) (Float64.of_Z 75)
  = true.
Proof.
  intros HM HE Habove.
  destruct (mul100_spec M E HM ltac:(lia)) as (M' & E' & Hres & HM' & Hn & Hp & Hc).
  set (p := Zpos M * Zpos m100) in *. set (n := Zdigits2 p - 53) in *.
  rewrite Hres, of_Z_75. apply gtb_finite.
  destruct (Z.eq_dec E (-53)) as [E53|NE53].
  - assert (HMge : m75 + 8 <= Zpos M) by lia.
    assert (Hn53 : n = 53).
    { destruct (Z.eq_dec n 52) as [N52|]; [|lia]. exfalso.
      rewrite N52 in Hp. unfold p, m100, m75 in *. simpl in Hp. lia. }
    rewrite Hn53 in Hc.
    assert (Hfloor : Zpos m75f + 6 <= p / 2 ^ 53).
    { apply Z.div_le_lower_bound; [lia|]. unfold p, m100, m75f, m75 in *. lia. }
    destruct Hc as [(-> & Hcases) | (-> & _)]; lia.
  - assert (HEge : -52 <= E) by lia.
    destruct (Z.eq_dec n 52) as [N52|N53].
    + rewrite N52 in Hc.
      assert (Hfloor : Zpos m75f < p / 2 ^ 52).
      { apply Z.lt_le_trans with (Zpos m100); [reflexivity|].
        apply Z.div_le_lower_bound; [lia|]. unfold p. nia. }
      destruct Hc as [(-> & Hcases) | (-> & _)]; lia.
    + destruct Hc as [(-> & _) | (-> & _)]; lia.
Qed.

(** Eight units below the double 0.75, the percentage is not above 75. *)
Lemma mul100_below_75 (M : positive) (E : Z) :
  2 ^ 52 <= Zpos M < 2 ^ 53 -> -106 <= E <= 2 ->
  E < -53 \/ (E = -53 /\ Zpos M <= m75 - 8) ->
  Float64.gtb (Float64.mul (S754_finite false M E) (Float64.of_Z 100)) (Float64.of_Z 75)
  = false.
Proof.
  intros HM HE Hbelow. apply not_true_is_false. intros Hgt.
  destruct (mul100_spec M E HM ltac:(lia)) as (M' & E' & Hres & HM' & Hn & Hp & Hc).
  set (p := Zpos M * Zpos m100) in *. set (n := Zdigits2 p - 53) in *.
  rewrite Hres, of_Z_75 in Hgt. apply gtb_finite in Hgt.
  destruct (Z.eq_dec E (-53)) as [E53|NE53].
  - assert (HMle : Zpos M <= m75 - 8) by lia.
    destruct (Z.eq_dec n 52) as [N52|N53].
    + rewrite N52 in Hc.
      destruct Hc as [(-> & _) | (-> & HMc & _)]; [lia|].
      rewrite HMc in Hgt. unfold m75f in Hgt. lia.
    + assert (Hn53 : n = 53) by lia. rewrite Hn53 in Hc.
      assert (Hfloor : p / 2 ^ 53 <= Zpos m75f - 7).
      { apply Z.lt_succ_r. apply Z.div_lt_upper_bound; [lia|].
        unfold p, m100, m75f, m75 in *. lia. }
      destruct Hc as [(-> & Hcases) | (-> & _ & Hcarry)].
      * lia.
      * unfold m75f in Hfloor. lia.
  - assert (HEle : E <= -54) by lia.
    destruct Hc as [(-> & _) | (-> & HMc & _)]; [lia|].
    rewrite HMc in Hgt. unfold m75f in Hgt. lia.
Qed.

End Optimizer.

(** The comparison of the percentage with 75 agrees with the exact
    comparison of the ratio with 3/4, for sizes below [2^48]. *)
Lemma percent_above_75 (hu ht : Z) :
  0 <= hu < 2 ^ 48 -> 0 < ht < 2 ^ 48 ->
  Float64.gtb
    (Float64.mul (Float64.div (Float64.of_Z hu) (Float64.of_Z ht)) (Float64.of_Z 100))
    (Float64.of_Z 75) = true
  <-> 3 * ht < 4 * hu.
Proof.
  intros Hu Ht.
  destruct (Z.eq_dec hu 0) as [->|Nz].
  - destruct (of_Z_exact ht ltac:(lia)) as (b & Eb & _).
    rewrite Eb.
    match goal with |- ?x = true <-> _ => change x with false end.
    split; [discriminate | lia].
  - destruct (Z.lt_trichotomy (3 * ht) (4 * hu)) as [Above|[Equal|Below]].
    + destruct (div_above_75 hu ht ltac:(lia) Ht Above)
        as (M & E & -> & HM & HE & Hcmp).
      rewrite (mul100_above_75 M E HM HE Hcmp). tauto.
    + rewrite (div_exact_75 hu ht) by lia.
      match goal with |- ?x = true <-> _ => replace x with false by (vm_compute; reflexivity) end.
      split; [discriminate | lia].
    + destruct (div_below_75 hu ht ltac:(lia) Ht Below)
        as (M & E & -> & HM & HE & Hcmp).
      rewrite (mul100_below_75 M E HM HE Hcmp). split; [discriminate | lia].
Qed.

(** X24. For a positive heap total and sizes below [2^48] bytes,
    [shouldOptimizeMemory] answers true exactly when the ratio of
    [heapUsed] to [heapTotal], as an exact rational number, is above 0.75
    (at 0.75 it answers false).  A firing of the optimizer timer returns
    normally; it calls [global.gc] once and logs one debug line when the
    answer is true, and changes nothing when it is false. *)
Theorem shouldOptimizeMemory_threshold (s : Sys) :
  let used := heapUsed (memoryUsage (world s)) in
  let total := heapTotal (memoryUsage (world s)) in
  0 <= used < 2 ^ 48 ->
  0 < total < 2 ^ 48 ->
  (shouldOptimizeMemory (world s) = true <->
   ((75 # 100) < inject_Z used / inject_Z total)%Q) /\
  exists s',
    fire OptimizeMemory s = (Normal tt, s') /\
    (shouldOptimizeMemory (world s) = true ->
     gcRuns (world s') = S (gcRuns (world s)) /\
     map level (skipn (List.length (logged (world s))) (logged (world s'))) = [debug]) /\
    (shouldOptimizeMemory (world s) = false -> s' = s).
Proof.
  intros used total Hu Ht. split.
  - unfold shouldOptimizeMemory, heapUsedPercent. fold used total.
    rewrite percent_above_75 by assumption.
    destruct total as [|p|p]; try lia.
    unfold Qlt, Qdiv, Qmult, Qinv, inject_Z. simpl Qnum. simpl Qden. lia.
  - unfold fire. run_monad.
    destruct (shouldOptimizeMemory (world s)); run_monad;
      eexists; (split; [reflexivity|]); (split; [|intros H]); try discriminate;
      try reflexivity.
    intros _. cbn [world set_world logger emit global_gc gcRuns logged].
    split; [reflexivity|].
    rewrite skipn_app, Nat.sub_diag, skipn_all. reflexivity.
Qed.

Lemma shouldOptimizeMemory_threshold_hot_system :
  let used := heapUsed (memoryUsage (world hot_system)) in
  let total := heapTotal (memoryUsage (world hot_system)) in
  0 <= used < 2 ^ 48 /\
  0 < total < 2 ^ 48 /\
  (shouldOptimizeMemory (world hot_system) = true <->
   ((75 # 100) < inject_Z used / inject_Z total)%Q) /\
  exists s',
    fire OptimizeMemory hot_system = (Normal tt, s') /\
    (shouldOptimizeMemory (world hot_system) = true ->
     gcRuns (world s') = S (gcRuns (world hot_system)) /\
     map level (skipn (List.length (logged (world hot_system))) (logged (world s')))
     = [debug]) /\
    (shouldOptimizeMemory (world hot_system) = false -> s' = hot_system).
Proof.
  intros used total.
  assert (Hu : 0 <= used < 2 ^ 48) by (cbn; lia).
  assert (Ht : 0 < total < 2 ^ 48) by (cbn; lia).
  split; [exact Hu|]. split; [exact Ht|].
  exact (shouldOptimizeMemory_threshold hot_system Hu Ht).
Defined.

Example shouldOptimizeMemory_at_threshold :
  map (fun ut => shouldOptimizeMemory (with_heap (fst ut) (snd ut)))
      [(75, 100); (3, 4); (75000001, 100000000); (74999999, 100000000); (0, 100)]
  = [false; false; true; false; false].
Proof. vm_compute. reflexivity. Qed.

(** ** The V8 check: the percentage against 90 *)

Section RoundUp.

Lemma loc_of_shr_record_of_loc m l : loc_of_shr_record (shr_record_of_loc m l) = l.
Proof. destruct l as [|[]]; reflexivity. Qed.

(** The first shift of [binary_round_aux] on a mantissa of 53 or 54 digits:
    where more than half a unit is cut off, the location says so. *)
Lemma shr_fexp_above_half (m e : Z) (l : location) :
  0 < m -> -1074 <= Zdigits2 m + e - 53 ->
  let n := Zdigits2 m - 53 in
  above_half n m l ->
  exists mrs,
    shr_fexp Float64.prec Float64.emax m e l = (mrs, e + n) /\
    shr_m mrs = m / 2 ^ n /\
    loc_of_shr_record mrs = loc_Inexact Gt.
Proof.
  intros Pm Hr n Up. unfold shr_fexp. rewrite fexp_normal by lia.
  replace (Zdigits2 m + e - 53 - e) with n by (unfold n; lia).
  destruct Up as [(N0 & ->) | (N1 & Odd & Inexact)].
  - rewrite N0. cbn [shr]. eexists. split; [f_equal; lia|].
    rewrite Z.pow_0_r, Z.div_1_r. split; reflexivity.
  - rewrite N1. cbn [shr iter_pos]. eexists. split; [reflexivity|].
    rewrite Z.pow_1_r.
    destruct m as [|[p|p|]|p]; try lia; try discriminate Odd.
    + destruct l as [|[]]; try contradiction; cbn; split; try reflexivity;
        change (Zpos p~1) with (2 * Zpos p + 1);
        apply Z.div_unique with (r := 1); lia.
    + destruct l as [|[]]; try contradiction; cbn; split; reflexivity.
Qed.

(** [binary_round_aux] rounds up where more than half a unit is cut off. *)
Lemma binary_round_aux_up (m e : Z) (l : location) :
  0 < m -> 53 <= Zdigits2 m ->
  -1074 <= Zdigits2 m + e - 53 -> Zdigits2 m + e - 53 < 971 ->
  let n := Zdigits2 m - 53 in
  above_half n m l ->
  exists (M : positive) (E : Z),
    binary_round_aux Float64.prec Float64.emax false m e l = S754_finite false M E /\
    ((E = e + n /\ Zpos M = m / 2 ^ n + 1) \/
     (E = e + n + 1 /\ Zpos M = 2 ^ 52 /\ m / 2 ^ n + 1 = 2 ^ 53)).
Proof.
  intros Pm Hd Hlo Hhi n Up.
  destruct (shr_fexp_above_half m e l Pm Hlo Up) as (mrs & Hshr & Hm & Hloc).
  fold n in Hshr, Hm.
  assert (Hn : 0 <= n <= 1) by (destruct Up as [(? & _)|(? & _)]; lia).
  assert (Hm1 : 2 ^ 52 <= m / 2 ^ n < 2 ^ 53).
  { pose proof (Zdigits2_bounds m Pm) as [Lo Hi].
    assert (Pn : 0 < 2 ^ n) by (apply Z.pow_pos_nonneg; lia).
    replace (Zdigits2 m - 1) with (52 + n) in Lo by (unfold n; lia).
    replace (Zdigits2 m) with (53 + n) in Hi by (unfold n; lia).
    rewrite Z.pow_add_r in Lo, Hi by lia.
    split.
    - apply Z.div_le_lower_bound; lia.
    - apply Z.div_lt_upper_bound; lia. }
  unfold binary_round_aux. rewrite Hshr, Hloc, Hm. cbn [round_nearest_even].
  set (m2 := m / 2 ^ n + 1).
  assert (Hm2 : (2 ^ 52 <= m2 < 2 ^ 53) \/ m2 = 2 ^ 53) by (unfold m2; lia).
  destruct Hm2 as [In53 | Carry].
  - assert (D2 : Zdigits2 m2 = 53) by (apply Zdigits2_unique; [lia | exact In53]).
    destruct (shr_fexp_spec m2 (e + n) loc_Exact) as (mrs2 & Hshr2 & Hm2 & _);
      [lia | lia | unfold n; lia |].
    rewrite Hshr2, Hm2, D2. replace (53 - 53) with 0 by lia.
    rewrite Z.pow_0_r, Z.div_1_r.
    destruct m2 as [|M|M] eqn:EM; try lia.
    exists M, (e + n + 0).
    replace (e + n + 0 <=? Float64.emax - Float64.prec) with true
      by (symmetry; apply Z.leb_le; unfold Float64.emax, Float64.prec, n; lia).
    split; [reflexivity|]. left. split; [lia | reflexivity].
  - assert (D2 : Zdigits2 m2 = 54).
    { apply Zdigits2_unique; [lia|]. rewrite Carry. simpl. lia. }
    destruct (shr_fexp_spec m2 (e + n) loc_Exact) as (mrs2 & Hshr2 & Hm2 & _);
      [lia | lia | unfold n; lia |].
    rewrite Hshr2, Hm2, D2, Carry. replace (54 - 53) with 1 by lia.
    change (2 ^ 53 / 2 ^ 1) with (2 ^ 52).
    exists (4503599627370496%positive), (e + n + 1).
    replace (e + n + 1 <=? Float64.emax - Float64.prec) with true
      by (symmetry; apply Z.leb_le; unfold Float64.emax, Float64.prec, n; lia).
    split; [reflexivity|]. right.
    split; [reflexivity|]. split; reflexivity.
Qed.

(** The location of a remainder [r] of a division by [b]. *)
Lemma new_location_above (b r : Z) :
  0 < b -> b < 2 * r -> new_location b r = loc_Inexact Gt.
Proof.
  intros Pb Hr. unfold new_location, new_location_even, new_location_odd.
  assert (Nz : (r =? 0) = false) by (apply Z.eqb_neq; lia).
  destruct (Z.even b); rewrite Nz.
  - replace (2 * r ?= b) with Gt by (symmetry; apply Z.compare_gt_iff; lia).
    reflexivity.
  - replace (2 * r + 1 ?= b) with Gt by (symmetry; apply Z.compare_gt_iff; lia).
    reflexivity.
Qed.

Lemma new_location_inexact_nonzero (b r : Z) :
  r <> 0 -> new_location b r <> loc_Exact.
Proof.
  intros Nz H. apply new_location_inexact in H. contradiction.
Qed.

(** The quotient of two doubles with full mantissas is rounded up where
    the remainder is more than half the divisor. *)
Lemma div_spec_up (a b : positive) (ea eb : Z) :
  2 ^ 52 <= Zpos a < 2 ^ 53 -> 2 ^ 52 <= Zpos b < 2 ^ 53 ->
  -900 <= ea - eb <= 900 ->
  let q := Zpos a * 2 ^ 53 / Zpos b in
  let n := Zdigits2 q - 53 in
  Zpos b * 2 ^ n < 2 * ((Zpos a * 2 ^ 53) mod (Zpos b * 2 ^ n)) ->
  exists (M : positive) (E : Z),
    Float64.div (S754_finite false a ea) (S754_finite false b eb)
    = S754_finite false M E /\
    ((E = ea - eb - 53 + n /\ Zpos M = q / 2 ^ n + 1) \/
     (E = ea - eb - 53 + n + 1 /\ Zpos M = 2 ^ 52 /\ q / 2 ^ n + 1 = 2 ^ 53)).
Proof.
  intros Ha Hb He q n Hrem.
  assert (Da : Zdigits2 (Zpos a) = 53) by (apply Zdigits2_unique; lia).
  assert (Db : Zdigits2 (Zpos b) = 53) by (apply Zdigits2_unique; lia).
  assert (Hq : 2 ^ 52 <= q < 2 ^ 54).
  { unfold q. split.
    - apply Z.div_le_lower_bound; [lia|]. nia.
    - apply Z.div_lt_upper_bound; [lia|]. nia. }
  assert (Pq : 0 < q) by lia.
  assert (Hn : 0 <= n <= 1).
  { unfold n. destruct (Z_lt_ge_dec q (2 ^ 53)) as [L|G].
    - rewrite (Zdigits2_unique q 53) by lia. lia.
    - rewrite (Zdigits2_unique q 54) by lia. lia. }
  unfold Float64.div, SFdiv, SFdiv_core_binary.
  rewrite Da, Db.
  replace (53 + ea - (53 + eb)) with (ea - eb) by lia.
  rewrite fexp_normal by lia.
  replace (Z.min (ea - eb - 53) (ea - eb)) with (ea - eb - 53) by lia.
  replace (ea - eb - (ea - eb - 53)) with 53 by lia.
  rewrite Z.shiftl_mul_pow2 by lia.
  rewrite div_eucl_div_mod. cbv beta iota zeta. fold q.
  set (r0 := (Zpos a * 2 ^ 53) mod Zpos b).
  change (xorb false false) with false.
  pose proof (Z.mod_pos_bound (Zpos a * 2 ^ 53) (Zpos b) ltac:(lia)) as Hr0.
  fold r0 in Hr0.
  pose proof (Z.div_mod (Zpos a * 2 ^ 53) (Zpos b) ltac:(lia)) as Hdm.
  fold q in Hdm. fold r0 in Hdm.
  assert (Up : above_half n q (new_location (Zpos b) r0)).
  { destruct (Z.eq_dec n 0) as [N0|N1].
    - left. split; [exact N0|]. apply new_location_above; [lia|].
      rewrite N0, Z.pow_0_r, Z.mul_1_r in Hrem. fold r0 in Hrem. exact Hrem.
    - right. assert (N : n = 1) by lia. split; [exact N|].
      rewrite N, Z.pow_1_r in Hrem.
      rewrite Z.rem_mul_r in Hrem by lia. fold q in Hrem. fold r0 in Hrem.
      pose proof (Z.mod_pos_bound q 2 ltac:(lia)) as Hq2.
      assert (Q1 : q mod 2 = 1) by nia.
      split.
      + rewrite Zodd_mod, Q1. reflexivity.
      + apply new_location_inexact_nonzero. nia. }
  destruct (binary_round_aux_up q (ea - eb - 53) (new_location (Zpos b) r0))
    as (M & E & Hres & Hc); [lia | fold n; lia | fold n; lia | fold n; lia | exact Up |].
  fold n in Hc. exists M, E. split; [exact Hres | exact Hc].
Qed.

End RoundUp.

Section Ninety.

(** The quotient of two integers below [2^53], rounded up. *)
Lemma div_of_Z_up (hu ht : Z) :
  0 < hu < 2 ^ 53 -> 0 < ht < 2 ^ 53 ->
  let s := 53 + Zdigits2 ht - Zdigits2 hu in
  let q := hu * 2 ^ s / ht in
  let n := Zdigits2 q - 53 in
  ht * 2 ^ n < 2 * ((hu * 2 ^ s) mod (ht * 2 ^ n)) ->
  exists (M : positive) (E : Z),
    Float64.div (Float64.of_Z hu) (Float64.of_Z ht) = S754_finite false M E /\
    ((E = n - s /\ Zpos M = q / 2 ^ n + 1) \/
     (E = n - s + 1 /\ Zpos M = 2 ^ 52 /\ q / 2 ^ n + 1 = 2 ^ 53)).
Proof.
  intros Hu Ht s q n Hrem.
  assert (Hn : 0 <= n <= 1).
  { destruct (div_of_Z hu ht Hu Ht) as (_ & _ & _ & _ & Hn & _). exact Hn. }
  destruct (of_Z_exact hu Hu) as (a & Ea & Va & Ba).
  destruct (of_Z_exact ht Ht) as (b & Eb & Vb & Bb).
  pose proof (Zdigits2_le_53 hu Hu) as Dh.
  pose proof (Zdigits2_le_53 ht Ht) as Dt.
  set (dh := Zdigits2 hu) in *. set (dt := Zdigits2 ht) in *.
  set (K := 2 ^ (53 - dt)) in *.
  assert (PK : 0 < K) by (apply Z.pow_pos_nonneg; lia).
  assert (Num : Zpos a * 2 ^ 53 = hu * 2 ^ s * K).
  { rewrite Va. unfold K, s. rewrite <- !Z.mul_assoc, <- !Z.pow_add_r by lia.
    f_equal. f_equal. lia. }
  assert (Quot : Zpos a * 2 ^ 53 / Zpos b = q).
  { rewrite Num, Vb. unfold q. apply Z.div_mul_cancel_r; lia. }
  assert (Pn : 0 < 2 ^ n) by (apply Z.pow_pos_nonneg; lia).
  rewrite Ea, Eb.
  destruct (div_spec_up a b (dh - 53) (dt - 53) Ba Bb ltac:(lia))
    as (M & E & Hres & Hc).
  - rewrite Quot. fold n. rewrite Num, Vb.
    replace (ht * K * 2 ^ n) with (ht * 2 ^ n * K) by lia.
    rewrite Z.mul_mod_distr_r by lia. nia.
  - rewrite Quot in Hc. fold n in Hc.
    exists M, E. split; [exact Hres|].
    destruct Hc as [(HE & HM) | (HE & HM & Hcarry)].
    + left. split; [unfold s; lia | exact HM].
    + right. split; [unfold s; lia|]. split; assumption.
Qed.

Lemma m90_spec : 10 * m90 + 8 = 9 * 2 ^ 53.
Proof. reflexivity. Qed.

Lemma of_Z_90 : Float64.of_Z 90 = S754_finite false m90f (-46).
Proof. reflexivity. Qed.

(** A ratio of at least 0.9 is rounded to the double of 0.9 at least. *)
Lemma div_above_90 (hu ht : Z) :
  0 < hu < 2 ^ 53 -> 0 < ht < 2 ^ 53 -> 9 * ht <= 10 * hu ->
  exists (M : positive) (E : Z),
    Float64.div (Float64.of_Z hu) (Float64.of_Z ht) = S754_finite false M E /\
    2 ^ 52 <= Zpos M < 2 ^ 53 /\ -106 <= E <= 2 /\
    (-53 < E \/ (E = -53 /\ m90 + 1 <= Zpos M)).
Proof.
  intros Hu Ht Hratio.
  destruct (div_of_Z hu ht Hu Ht) as (M & E & Hres & HM & Hn & Hs & Hq & Hc).
  pose proof (div_of_Z_up hu ht Hu Ht) as Up.
  set (s := 53 + Zdigits2 ht - Zdigits2 hu) in *.
  set (q := hu * 2 ^ s / ht) in *.
  set (n := Zdigits2 q - 53) in *.
  cbv zeta in Up. fold q in Up. fold n in Up.
  exists M, E. split; [exact Hres|]. split; [exact HM|]. split; [lia|].
  assert (P2 : 0 < 2 ^ n) by (apply Z.pow_pos_nonneg; lia).
  pose proof m90_spec as H90.
  destruct (Z_lt_ge_dec (n - s) (-53)) as [Small|Big].
  - exfalso.
    assert (Hlt : hu * 2 ^ s < 2 ^ (53 + n) * ht).
    { apply Z.lt_le_trans with ((q + 1) * ht).
      - unfold q. pose proof (Z.mul_succ_div_gt (hu * 2 ^ s) ht ltac:(lia)). lia.
      - apply Z.mul_le_mono_nonneg_r; lia. }
    assert (Hge : 2 ^ (54 + n) <= 2 ^ s) by (apply Z.pow_le_mono_r; lia).
    replace (54 + n) with (Z.succ (53 + n)) in Hge by lia.
    rewrite Z.pow_succ_r in Hge by lia.
    assert (0 < 2 ^ (53 + n)) by (apply Z.pow_pos_nonneg; lia).
    nia.
  - destruct (Z.eq_dec (n - s) (-53)) as [Eq|Ne]; [|destruct Hc as [(-> & _)|(-> & _)]; lia].
    destruct Hc as [(-> & Hcases & _) | (-> & _)]; [|lia].
    right. split; [exact Eq|].
    assert (Es : s = 53 + n) by lia.
    assert (Hq1 : q / 2 ^ n = hu * 2 ^ 53 / ht).
    { unfold q. rewrite Z.div_div by lia. rewrite Es, Z.pow_add_r by lia.
      rewrite Z.mul_assoc. apply Z.div_mul_cancel_r; lia. }
    assert (Hm1 : m90 <= q / 2 ^ n).
    { rewrite Hq1. apply Z.div_le_lower_bound; lia. }
    destruct (Z.eq_dec (q / 2 ^ n) m90) as [Floor|NotFloor]; [|lia].
    (* the remainder is at least eight tenths: the quotient is rounded up *)
    destruct Up as (M1 & E1 & Hres1 & Hc1).
    + pose proof (Z.div_mod (hu * 2 ^ 53) ht ltac:(lia)) as Hdm.
      rewrite <- Hq1, Floor in Hdm.
      pose proof (Z.mod_pos_bound (hu * 2 ^ 53) ht ltac:(lia)) as Hrb.
      assert (Hmod : (hu * 2 ^ s) mod (ht * 2 ^ n) = (hu * 2 ^ 53) mod ht * 2 ^ n).
      { rewrite Es, Z.pow_add_r, Z.mul_assoc by lia.
        apply Z.mul_mod_distr_r; lia. }
      rewrite Hmod. nia.
    + rewrite Hres in Hres1. injection Hres1 as <- <-.
      destruct Hc1 as [(_ & HM1) | (HE1 & _)]; lia.
Qed.

(** A ratio below 0.9, for sizes below [2^48], is rounded to a double at
    least three units below that of 0.9. *)
Lemma div_below_90 (hu ht : Z) :
  0 < hu -> 0 < ht < 2 ^ 48 -> 10 * hu < 9 * ht ->
  exists (M : positive) (E : Z),
    Float64.div (Float64.of_Z hu) (Float64.of_Z ht) = S754_finite false M E /\
    2 ^ 52 <= Zpos M < 2 ^ 53 /\ -106 <= E <= 2 /\
    (E < -53 \/ (E = -53 /\ Zpos M <= m90 - 2)).
Proof.
  intros Hu Ht Hratio.
  assert (Hu53 : 0 < hu < 2 ^ 53) by lia.
  assert (Ht53 : 0 < ht < 2 ^ 53) by lia.
  destruct (div_of_Z hu ht Hu53 Ht53) as (M & E & Hres & HM & Hn & Hs & Hq & Hc).
  set (s := 53 + Zdigits2 ht - Zdigits2 hu) in *.
  set (q := hu * 2 ^ s / ht) in *.
  set (n := Zdigits2 q - 53) in *.
  exists M, E. split; [exact Hres|]. split; [exact HM|]. split; [lia|].
  assert (P2 : 0 < 2 ^ n) by (apply Z.pow_pos_nonneg; lia).
  pose proof m90_spec as H90.
  destruct (Z_lt_ge_dec (-53) (n - s)) as [Big|Small].
  - exfalso.
    assert (Hge : 2 ^ (52 + n) * ht <= hu * 2 ^ s).
    { apply Z.le_trans with (q * ht).
      - apply Z.mul_le_mono_nonneg_r; lia.
      - unfold q. pose proof (Z.mul_div_le (hu * 2 ^ s) ht ltac:(lia)). lia. }
    assert (Hle : 2 ^ s <= 2 ^ (52 + n)) by (apply Z.pow_le_mono_r; lia).
    assert (0 < 2 ^ (52 + n)) by (apply Z.pow_pos_nonneg; lia).
    nia.
  - destruct (Z.eq_dec (n - s) (-53)) as [Eq|Ne].
    + assert (Es : s = 53 + n) by lia.
      assert (Hq1 : q / 2 ^ n = hu * 2 ^ 53 / ht).
      { unfold q. rewrite Z.div_div by lia. rewrite Es, Z.pow_add_r by lia.
        rewrite Z.mul_assoc. apply Z.div_mul_cancel_r; lia. }
      assert (Hm1 : q / 2 ^ n <= m90 - 3).
      { rewrite Hq1. apply Z.lt_succ_r. apply Z.div_lt_upper_bound; [lia|].
        assert (2 ^ 53 = 9007199254740992) by reflexivity.
        assert (2 ^ 48 = 281474976710656) by reflexivity.
        nia. }
      destruct Hc as [(-> & Hcases & _) | (-> & _ & Hcarry & _)].
      * right. split; [exact Eq|]. lia.
      * exfalso. unfold m90 in Hm1. lia.
    + destruct Hc as [(-> & _) | (-> & HMc & _)]; [lia|].
      destruct (Z.eq_dec (n - s + 1) (-53)) as [Eq1|Ne1]; [|lia].
      right. split; [exact Eq1|]. rewrite HMc. unfold m90. lia.
Qed.

(** From the double of 0.9 on, the percentage is not below 90. *)
Lemma mul100_above_90 (M : positive) (E : Z) :
  2 ^ 52 <= Zpos M < 2 ^ 53 -> -106 <= E <= 2 ->
  -53 < E \/ (E = -53 /\ m90 + 1 <= Zpos M) ->
  Float64.ltb (Float64.mul (S754_finite false M E) (Float64.of_Z 100)) (Float64.of_Z 90)
  = false.
Proof.
  intros HM HE Habove. apply not_true_is_false. intros Hlt.
  destruct (mul100_spec M E HM ltac:(lia)) as (M' & E' & Hres & HM' & Hn & Hp & Hc).
  set (p := Zpos M * Zpos m100) in *. set (n := Zdigits2 p - 53) in *.
  rewrite Hres, of_Z_90 in Hlt. apply ltb_finite in Hlt.
  destruct (Z.eq_dec E (-53)) as [E53|NE53].
  - assert (HMge : m90 + 1 <= Zpos M) by lia.
    assert (Hn53 : n = 53).
    { destruct (Z.eq_dec n 52) as [N52|]; [|lia]. exfalso.
      rewrite N52 in Hp. unfold p, m100, m90 in *. simpl in Hp. lia. }
    rewrite Hn53 in Hc.
    assert (Hfloor : Zpos m90f <= p / 2 ^ 53).
    { apply Z.div_le_lower_bound; [lia|]. unfold p, m100, m90f, m90 in *. lia. }
    destruct Hc as [(-> & Hcases) | (-> & _)]; lia.
  - assert (HEge : -52 <= E) by lia.
    destruct (Z.eq_dec n 52) as [N52|N53].
    + rewrite N52 in Hc.
      assert (Hfloor : Zpos m90f <= p / 2 ^ 52).
      { apply Z.le_trans with (Zpos m100); [unfold m90f, m100; lia|].
        apply Z.div_le_lower_bound; [lia|]. unfold p. nia. }
      destruct Hc as [(-> & Hcases) | (-> & _)]; lia.
    + destruct Hc as [(-> & _) | (-> & _)]; lia.
Qed.

(** Two units below the double of 0.9, the percentage is below 90. *)
Lemma mul100_below_90 (M : positive) (E : Z) :
  2 ^ 52 <= Zpos M < 2 ^ 53 -> -106 <= E <= 2 ->
  E < -53 \/ (E = -53 /\ Zpos M <= m90 - 2) ->
  Float64.ltb (Float64.mul (S754_finite false M E) (Float64.of_Z 100)) (Float64.of_Z 90)
  = true.
Proof.
  intros HM HE Hbelow.
  destruct (mul100_spec M E HM ltac:(lia)) as (M' & E' & Hres & HM' & Hn & Hp & Hc).
  set (p := Zpos M * Zpos m100) in *. set (n := Zdigits2 p - 53) in *.
  rewrite Hres, of_Z_90. apply ltb_finite.
  destruct (Z.eq_dec E (-53)) as [E53|NE53].
  - assert (HMle : Zpos M <= m90 - 2) by lia.
    destruct (Z.eq_dec n 52) as [N52|N53].
    + rewrite N52 in Hc.
      destruct Hc as [(-> & _) | (-> & -> & _)]; [lia|].
      right. split; [lia|]. unfold m90f. lia.
    + assert (Hn53 : n = 53) by lia. rewrite Hn53 in Hc.
      assert (Hfloor : p / 2 ^ 53 <= Zpos m90f - 3).
      { apply Z.lt_succ_r. apply Z.div_lt_upper_bound; [lia|].
        unfold p, m100, m90f, m90 in *. lia. }
      destruct Hc as [(-> & Hcases) | (-> & _ & Hcarry)].
      * right. split; [lia|]. lia.
      * exfalso. unfold m90f in Hfloor. lia.
  - assert (HEle : E <= -54) by lia.
    destruct Hc as [(-> & _) | (-> & -> & _)]; [lia|].
    destruct (Z.eq_dec (E - 46 + n + 1) (-46)) as [Eq|Ne]; [|lia].
    right. split; [exact Eq|]. unfold m90f. lia.
Qed.

End Ninety.

(** The comparison of the percentage with 90 agrees with the exact
    comparison of the ratio with 9/10, for sizes below [2^48]. *)
Lemma percent_below_90 (hu ht : Z) :
  0 <= hu < 2 ^ 48 -> 0 < ht < 2 ^ 48 ->
  Float64.ltb
    (Float64.mul (Float64.div (Float64.of_Z hu) (Float64.of_Z ht)) (Float64.of_Z 100))
    (Float64.of_Z 90) = false
  <-> 9 * ht <= 10 * hu.
Proof.
  intros Hu Ht.
  destruct (Z.eq_dec hu 0) as [->|Nz].
  - destruct (of_Z_exact ht ltac:(lia)) as (b & Eb & _).
    rewrite Eb.
    match goal with |- ?x = false <-> _ => change x with true end.
    split; [discriminate | lia].
  - destruct (Z_le_gt_dec (9 * ht) (10 * hu)) as [Above|Below].
    + destruct (div_above_90 hu ht ltac:(lia) ltac:(lia) Above)
        as (M & E & -> & HM & HE & Hcmp).
      rewrite (mul100_above_90 M E HM HE Hcmp). tauto.
    + destruct (div_below_90 hu ht ltac:(lia) Ht ltac:(lia))
        as (M & E & -> & HM & HE & Hcmp).
      rewrite (mul100_below_90 M E HM HE Hcmp). split; [discriminate | lia].
Qed.

(** X25. For a positive heap total and sizes below [2^48] bytes, the V8 check
    returns a reading whose [healthy] flag is false exactly when the ratio
    of [heapUsed] to [heapTotal], as an exact rational number, is at least
    0.9. *)
Theorem v8_performance_check_threshold (w : World) :
  0 <= heapUsed (memoryUsage w) < 2 ^ 48 ->
  0 < heapTotal (memoryUsage w) < 2 ^ 48 ->
  exists reading,
    check v8_performance_check w = Normal reading /\
    (healthy reading = false <->
     ((90 # 100) <= inject_Z (heapUsed (memoryUsage w))
                    / inject_Z (heapTotal (memoryUsage w)))%Q).
Proof.
  intros Hu Ht. eexists. split; [reflexivity|].
  cbn [healthy]. unfold heapUsedPercent.
  rewrite percent_below_90 by assumption.
  destruct (heapTotal (memoryUsage w)) as [|p|p]; try lia.
  unfold Qle, Qdiv, Qmult, Qinv, inject_Z. simpl Qnum. simpl Qden. lia.
Qed.

Lemma v8_performance_check_threshold_hot_world :
  0 <= heapUsed (memoryUsage hot_world) < 2 ^ 48 /\
  0 < heapTotal (memoryUsage hot_world) < 2 ^ 48 /\
  exists reading,
    check v8_performance_check hot_world = Normal reading /\
    (healthy reading = false <->
     ((90 # 100) <= inject_Z (heapUsed (memoryUsage hot_world))
                    / inject_Z (heapTotal (memoryUsage hot_world)))%Q).
Proof.
  assert (Hu : 0 <= heapUsed (memoryUsage hot_world) < 2 ^ 48) by (simpl; lia).
  assert (Ht : 0 < heapTotal (memoryUsage hot_world) < 2 ^ 48) by (simpl; lia).
  split; [exact Hu|]. split; [exact Ht|].
  exact (v8_performance_check_threshold hot_world Hu Ht).
Defined.

Example v8_performance_check_at_threshold :
  map (fun ut => match check v8_performance_check (with_heap (fst ut) (snd ut)) with
                 | Normal reading => Some (healthy reading)
                 | Throw _ => None
                 end)
      [(90, 100); (9, 10); (89999999, 100000000); (90000001, 100000000); (0, 100)]
  = [Some false; Some false; Some true; Some false; Some true].
Proof. vm_compute. reflexivity. Qed.

(** ** The response time check: the mean against 2000 *)

Section Sums.

(** An integer below [2^53], given with [k] more binary places, is
    normalized to the double of that integer. *)
Lemma normalize_scaled (z k : Z) :
  0 < z < 2 ^ 53 -> 0 <= k <= 60 ->
  binary_normalize Float64.prec Float64.emax (z * 2 ^ k) (- k) false = Float64.of_Z z.
Proof.
  intros Hz Hk.
  destruct (of_Z_exact z Hz) as (M0 & E0 & V0 & B0). rewrite E0.
  pose proof (Zdigits2_le_53 z Hz) as Dz.
  set (d := Zdigits2 z) in *.
  assert (Pk : 0 < 2 ^ k) by (apply Z.pow_pos_nonneg; lia).
  pose proof (Zdigits2_bounds z ltac:(lia)) as [Lo Hi]. fold d in Lo, Hi.
  assert (Dm : Zdigits2 (z * 2 ^ k) = d + k).
  { apply Zdigits2_unique; [lia|].
    replace (d + k - 1) with (d - 1 + k) by lia. rewrite !Z.pow_add_r by lia. nia. }
  destruct (z * 2 ^ k) as [|mp|mp] eqn:Em; try lia.
  unfold binary_normalize, binary_round.
  change (Zpos (digits2_pos mp)) with (Zdigits2 (Zpos mp)). rewrite Dm.
  replace (d + k + - k) with d by lia.
  rewrite fexp_normal by lia.
  unfold shl_align.
  destruct (d - 53 - - k) as [|sh|sh] eqn:Esh.
  - (* the mantissa has 53 digits *)
    destruct (binary_round_aux_spec (Zpos mp) (- k) loc_Exact) as (M & E & Hr & HM & Hc);
      [lia | rewrite Dm; lia | rewrite Dm; lia | rewrite Dm; lia |].
    rewrite Dm in Hc. replace (d + k - 53) with 0 in Hc by lia.
    rewrite Z.pow_0_r, Z.div_1_r, Z.mod_1_r in Hc. rewrite Hr.
    destruct Hc as [(-> & _ & Hex) | (_ & _ & _ & Hne)];
      [|exfalso; apply Hne; split; reflexivity].
    specialize (Hex eq_refl eq_refl).
    assert (Zpos M = Zpos M0).
    { rewrite Hex, V0, <- Em. f_equal. f_equal. lia. }
    f_equal; lia.
  - (* more than 53 digits: the places below are zeros *)
    destruct (binary_round_aux_spec (Zpos mp) (- k) loc_Exact) as (M & E & Hr & HM & Hc);
      [lia | rewrite Dm; lia | rewrite Dm; lia | rewrite Dm; lia |].
    rewrite Dm in Hc. rewrite Hr.
    set (n := d + k - 53) in *.
    assert (Pn : 0 < 2 ^ n) by (apply Z.pow_pos_nonneg; lia).
    assert (Split : Zpos mp = z * 2 ^ (53 - d) * 2 ^ n).
    { rewrite <- Em, <- Z.mul_assoc, <- Z.pow_add_r by lia. f_equal. f_equal. lia. }
    assert (Mod : Zpos mp mod 2 ^ n = 0) by (rewrite Split; apply Z.mod_mul; lia).
    assert (Quo : Zpos mp / 2 ^ n = Zpos M0).
    { rewrite Split, Z.div_mul by lia. symmetry. exact V0. }
    destruct Hc as [(-> & _ & Hex) | (_ & _ & _ & Hne)];
      [|exfalso; apply Hne; split; [reflexivity | exact Mod]].
    specialize (Hex eq_refl Mod). rewrite Quo in Hex.
    f_equal; lia.
  - (* fewer than 53 digits: the mantissa is moved up *)
    pose proof (Pos_iter_xO mp sh) as Sh.
    set (mz := Pos.iter xO mp sh) in *.
    assert (Vz : Zpos mz = Zpos M0).
    { rewrite Sh, <- Em, V0, <- Z.mul_assoc, <- Z.pow_add_r by lia.
      f_equal. f_equal. lia. }
    assert (Dz' : Zdigits2 (Zpos mz) = 53).
    { apply Zdigits2_unique; [lia|]. rewrite Vz. exact B0. }
    destruct (binary_round_aux_spec (Zpos mz) (d - 53) loc_Exact) as (M & E & Hr & HM & Hc);
      [lia | lia | lia | lia |].
    rewrite Dz' in Hc. replace (53 - 53) with 0 in Hc by lia.
    rewrite Z.pow_0_r, Z.div_1_r, Z.mod_1_r in Hc. rewrite Hr.
    destruct Hc as [(-> & _ & Hex) | (_ & _ & _ & Hne)];
      [|exfalso; apply Hne; split; reflexivity].
    specialize (Hex eq_refl eq_refl). f_equal; lia.
Qed.

(** The mantissa of a double of a positive integer, moved to a lower
    exponent. *)
Lemma shl_align_of_Z (M : positive) (z d k : Z) :
  Zpos M = z * 2 ^ (53 - d) -> 0 < z -> 53 - d <= k ->
  Zpos (fst (shl_align M (d - 53) (- k))) = z * 2 ^ k.
Proof.
  intros V Pz Hk. unfold shl_align.
  destruct (- k - (d - 53)) as [|sh|sh] eqn:Esh; try lia; cbn [fst].
  - rewrite V. f_equal. f_equal. lia.
  - rewrite Pos_iter_xO, V, <- Z.mul_assoc.
    rewrite <- Z.pow_add_r; [f_equal; f_equal; lia | | lia].
    destruct (Z_le_gt_dec 0 (53 - d)) as [L|G]; [exact L|].
    exfalso. rewrite Z.pow_neg_r in V by lia. lia.
Qed.

(** The sum of two integers is exact as long as it stays below [2^53]. *)
Lemma add_of_Z (a b : Z) :
  0 <= a -> 0 <= b -> a + b < 2 ^ 53 ->
  Float64.add (Float64.of_Z a) (Float64.of_Z b) = Float64.of_Z (a + b).
Proof.
  intros Ha Hb Hsum.
  destruct (Z.eq_dec a 0) as [->|Na].
  { destruct (Z.eq_dec b 0) as [->|Nb]; [reflexivity|].
    rewrite Z.add_0_l. destruct (of_Z_exact b ltac:(lia)) as (M & -> & _). reflexivity. }
  destruct (Z.eq_dec b 0) as [->|Nb].
  { rewrite Z.add_0_r. destruct (of_Z_exact a ltac:(lia)) as (M & -> & _). reflexivity. }
  destruct (of_Z_exact a ltac:(lia)) as (Ma & Ea & Va & Ba).
  destruct (of_Z_exact b ltac:(lia)) as (Mb & Eb & Vb & Bb).
  pose proof (Zdigits2_le_53 a ltac:(lia)) as Da.
  pose proof (Zdigits2_le_53 b ltac:(lia)) as Db.
  rewrite Ea, Eb. unfold Float64.add, SFadd. cbv zeta. cbn [cond_Zopp].
  set (k := 53 - Z.min (Zdigits2 a) (Zdigits2 b)).
  replace (Z.min (Zdigits2 a - 53) (Zdigits2 b - 53)) with (- k) by (unfold k; lia).
  rewrite (shl_align_of_Z Ma a (Zdigits2 a) k Va) by (unfold k; lia).
  rewrite (shl_align_of_Z Mb b (Zdigits2 b) k Vb) by (unfold k; lia).
  replace (a * 2 ^ k + b * 2 ^ k) with ((a + b) * 2 ^ k) by lia.
  apply normalize_scaled; unfold k; lia.
Qed.

(** The sum the check computes, for response times that are integers. *)
Lemma sum_of_Z (times : list Z) : forall acc,
  0 <= acc -> Forall (fun z => 0 <= z) times -> acc + sum_of times < 2 ^ 53 ->
  fold_left (fun sum x => Float64.add sum x) (map Float64.of_Z times) (Float64.of_Z acc)
  = Float64.of_Z (acc + sum_of times).
Proof.
  induction times as [|z times IH]; intros acc Hacc Hpos Hsum; cbn [map fold_left sum_of fold_right].
  - f_equal. lia.
  - inversion Hpos as [|? ? Hz Hrest]; subst.
    assert (Ht : 0 <= sum_of times).
    { clear -Hrest. induction Hrest; cbn; [lia|]. unfold sum_of in *. lia. }
    cbn [sum_of fold_right] in Hsum. fold (sum_of times) in Hsum |- *.
    rewrite add_of_Z by lia. rewrite IH by (try assumption; lia).
    f_equal. lia.
Qed.

End Sums.

Section Average.

Lemma of_Z_2000 : Float64.of_Z 2000 = S754_finite false m2000 (-42).
Proof. reflexivity. Qed.

(** The quotient of a sum by a count, compared with 2000: the comparison
    is the exact one. *)
Lemma average_below_2000 (sum n : Z) :
  0 <= sum < 2 ^ 53 -> 0 < n < 2 ^ 40 ->
  Float64.ltb (Float64.div (Float64.of_Z sum) (Float64.of_Z n)) (Float64.of_Z 2000) = true
  <-> sum < 2000 * n.
Proof.
  intros Hsum Hn.
  destruct (Z.eq_dec sum 0) as [->|Nz].
  - destruct (of_Z_exact n ltac:(lia)) as (b & Eb & _). rewrite Eb.
    match goal with |- ?x = true <-> _ => change x with true end.
    split; [lia | reflexivity].
  - destruct (div_of_Z sum n ltac:(lia) ltac:(lia))
      as (M & E & Hres & HM & Hd & Hs & Hq & Hc).
    set (s := 53 + Zdigits2 n - Zdigits2 sum) in *.
    set (q := sum * 2 ^ s / n) in *.
    set (d := Zdigits2 q - 53) in *.
    rewrite Hres, of_Z_2000, ltb_finite.
    assert (Pd : 0 < 2 ^ d) by (apply Z.pow_pos_nonneg; lia).
    set (t := s - d).
    assert (Ht : 0 <= t) by (unfold t; lia).
    assert (Pt : 0 < 2 ^ t) by (apply Z.pow_pos_nonneg; lia).
    (* the mantissa before rounding is the floor of [sum * 2^t / n] *)
    assert (Hf : q / 2 ^ d = sum * 2 ^ t / n).
    { unfold q. rewrite Z.div_div by lia.
      replace s with (t + d) by (unfold t; lia). rewrite Z.pow_add_r by lia.
      rewrite Z.mul_assoc. apply Z.div_mul_cancel_r; lia. }
    assert (Hfb : 2 ^ 52 <= q / 2 ^ d < 2 ^ 53).
    { destruct Hq as [Lo Hi]. rewrite Z.pow_add_r in Lo, Hi by lia. split.
      - apply Z.div_le_lower_bound; lia.
      - apply Z.div_lt_upper_bound; lia. }
    set (f := q / 2 ^ d) in *.
    assert (Hlo : f * n <= sum * 2 ^ t).
    { rewrite Hf. rewrite Z.mul_comm. apply Z.mul_div_le. lia. }
    assert (Hhi : sum * 2 ^ t < (f + 1) * n).
    { rewrite Hf. pose proof (Z.mul_succ_div_gt (sum * 2 ^ t) n ltac:(lia)). lia. }
    assert (P42 : 2 ^ 42 = 4398046511104) by reflexivity.
    assert (P52 : 2 ^ 52 = 4503599627370496) by reflexivity.
    assert (P53 : 2 ^ 53 = 9007199254740992) by reflexivity.
    assert (P40 : 2 ^ 40 = 1099511627776) by reflexivity.
    destruct (Z_lt_ge_dec sum (2000 * n)) as [Below|Above].
    + (* below 2000: [t] is at least 42 *)
      assert (T42 : 42 <= t).
      { destruct (Z_le_gt_dec 42 t) as [L|G]; [exact L|]. exfalso.
        assert (2 ^ t <= 2 ^ 41) by (apply Z.pow_le_mono_r; lia).
        assert (2 ^ 41 = 2199023255552) by reflexivity. nia. }
      split; [intros _; exact Below|]. intros _.
      destruct Hc as [(-> & Hcases & _) | (-> & HMc & Hcarry & _)].
      * destruct (Z.eq_dec t 42) as [T|T]; [|left; unfold t in *; lia].
        right. split; [unfold t in *; lia|].
        rewrite T in Hlo. unfold m2000. nia.
      * assert (T43 : 43 <= t).
        { destruct (Z.eq_dec t 42) as [T|T]; [|lia]. exfalso.
          rewrite T in Hlo. nia. }
        destruct (Z.eq_dec t 43) as [T|T]; [|left; unfold t in *; lia].
        right. split; [unfold t in *; lia|]. rewrite HMc. unfold m2000. lia.
    + (* 2000 or more: [t] is at most 42 *)
      assert (T42 : t <= 42).
      { destruct (Z_le_gt_dec t 42) as [L|G]; [exact L|]. exfalso.
        assert (2 ^ 43 <= 2 ^ t) by (apply Z.pow_le_mono_r; lia).
        assert (2 ^ 43 = 8796093022208) by reflexivity. nia. }
      split; [|intros C; lia]. intros Lt. exfalso.
      destruct Hc as [(-> & Hcases & _) | (-> & HMc & Hcarry & _)].
      * destruct Lt as [Lt | [Eq Lt]]; [unfold t in *; lia|].
        assert (T : t = 42) by (unfold t in *; lia).
        rewrite T in Hhi. unfold m2000 in Lt. nia.
      * destruct Lt as [Lt | [Eq Lt]]; unfold t in *; lia.
Qed.

End Average.

(** X26. When the response times of the last 10 samples (of all, if fewer) are
    whole numbers of milliseconds below [2^40], the response time check
    returns a reading that is unhealthy exactly when there is at least one
    sample and the mean of those response times is at least 2000; with no
    sample it is healthy. *)
Theorem response_time_check_threshold (w : World) (times : list Z) :
  map responseTime (JSArray.slice (-10) (performanceMetrics w)) = map Float64.of_Z times ->
  Forall (fun z => 0 <= z < 2 ^ 40) times ->
  exists reading,
    check response_time_check w = Normal reading /\
    (healthy reading = false <->
     times <> [] /\ 2000 * Z.of_nat (List.length times) <= sum_of times).
Proof.
  intros Htimes Hrange. cbn [check response_time_check].
  set (recent := JSArray.slice (-10) (performanceMetrics w)) in *.
  assert (Len : List.length recent = List.length times).
  { rewrite <- (length_map responseTime), Htimes. apply length_map. }
  assert (Short : (List.length recent <= 10)%nat).
  { unfold recent. pose proof (JSArrayFacts.slice_length (-10) (performanceMetrics w)) as L.
    cbn [Z.ltb Z.compare] in L. lia. }
  destruct (List.length recent =? 0)%nat eqn:Z0.
  - apply Nat.eqb_eq in Z0. eexists. split; [reflexivity|]. cbn [healthy].
    split; [discriminate|]. intros [N _]. destruct times; [congruence | cbn in Len; lia].
  - apply Nat.eqb_neq in Z0. eexists. split; [reflexivity|]. cbn [healthy].
    assert (Sum : fold_left (fun sum metric => Float64.add sum (responseTime metric))
                            recent (Float64.of_Z 0)
                  = Float64.of_Z (sum_of times)).
    { assert (Bound : forall l, Forall (fun z => 0 <= z < 2 ^ 40) l ->
                        0 <= sum_of l <= Z.of_nat (List.length l) * 2 ^ 40).
      { clear. intros l H. induction H as [|z l Hz _ IH]; cbn [sum_of fold_right List.length].
        - lia.
        - fold (sum_of l). rewrite Nat2Z.inj_succ. lia. }
      specialize (Bound times Hrange).
      transitivity (fold_left (fun sum x => Float64.add sum x)
                              (map responseTime recent) (Float64.of_Z 0)).
      { clear. generalize (Float64.of_Z 0).
        induction recent as [|m l IH]; intros acc; [reflexivity | apply IH]. }
      rewrite Htimes, sum_of_Z; [reflexivity | lia | |].
      - eapply Forall_impl; [|exact Hrange]. cbv beta. intros; lia.
      - assert (2 ^ 40 = 1099511627776) by reflexivity.
        assert (2 ^ 53 = 9007199254740992) by reflexivity. lia. }
    rewrite Sum, Len.
    assert (Bound : 0 <= sum_of times < 2 ^ 53).
    { assert (B : forall l, Forall (fun z => 0 <= z < 2 ^ 40) l ->
                    0 <= sum_of l <= Z.of_nat (List.length l) * 2 ^ 40).
      { clear. intros l H. induction H as [|z l Hz _ IH]; cbn [sum_of fold_right List.length].
        - lia.
        - fold (sum_of l). rewrite Nat2Z.inj_succ. lia. }
      specialize (B times Hrange).
      assert (2 ^ 40 = 1099511627776) by reflexivity.
      assert (2 ^ 53 = 9007199254740992) by reflexivity. lia. }
    pose proof (average_below_2000 (sum_of times) (Z.of_nat (List.length times)) Bound) as A.
    assert (2 ^ 40 = 1099511627776) by reflexivity.
    specialize (A ltac:(lia)).
    destruct (Float64.ltb _ (Float64.of_Z 2000)) eqn:L.
    + split; [discriminate|]. intros [_ C]. destruct A as [A _]. specialize (A eq_refl). lia.
    + split; [|reflexivity]. intros _. split.
      * intros ->. cbn in Len. lia.
      * destruct (Z_lt_ge_dec (sum_of times) (2000 * Z.of_nat (List.length times)))
          as [Lt|Ge]; [|lia].
        apply A in Lt. discriminate Lt.
Qed.

Lemma response_time_check_threshold_slow_world :
  let times := [9000; 1900; 2100; 2000] in
  map responseTime (JSArray.slice (-10) (performanceMetrics slow_world))
  = map Float64.of_Z times /\
  Forall (fun z => 0 <= z < 2 ^ 40) times /\
  exists reading,
    check response_time_check slow_world = Normal reading /\
    (healthy reading = false <->
     times <> [] /\ 2000 * Z.of_nat (List.length times) <= sum_of times).
Proof.
  intros times.
  assert (H1 : map responseTime (JSArray.slice (-10) (performanceMetrics slow_world))
               = map Float64.of_Z times) by reflexivity.
  assert (H2 : Forall (fun z => 0 <= z < 2 ^ 40) times)
    by (repeat constructor; cbn; lia).
  split; [exact H1|]. split; [exact H2|].
  exact (response_time_check_threshold slow_world times H1 H2).
Defined.

Example response_time_check_at_threshold :
  map (fun times =>
         match check response_time_check
                 (set_performanceMetrics (map (timed "/api/a") times) quiet_world) with
         | Normal reading => Some (healthy reading)
         | Throw _ => None
         end)
      [[]; [1999]; [2000]; [1999; 2001]; [1999; 2000]; [0; 0; 6001]; [0; 0; 5999]]
  = [Some true; Some true; Some false; Some false; Some true; Some false; Some true].
Proof. vm_compute. reflexivity. Qed.

(** ** A heap total of zero *)

(** X27. With a heap total of 0 the percentage is a division by zero, and
    nothing throws: the memory check and the V8 check both report
    unhealthy (the percentage is Infinity, or NaN when [heapUsed] is 0 as
    well), and [shouldOptimizeMemory] answers true exactly when [heapUsed]
    is positive. *)
Theorem empty_heap_is_unhealthy (w : World) :
  heapTotal (memoryUsage w) = 0 ->
  0 <= heapUsed (memoryUsage w) < 2 ^ 53 ->
  exists memory v8,
    check memory_check w = Normal memory /\
    check v8_performance_check w = Normal v8 /\
    healthy memory = false /\
    healthy v8 = false /\
    (shouldOptimizeMemory w = true <-> 0 < heapUsed (memoryUsage w)).
Proof.
  intros Htotal Hused. do 2 eexists. split; [reflexivity|]. split; [reflexivity|].
  cbn [healthy]. unfold shouldOptimizeMemory, heapUsedPercent. rewrite Htotal.
  destruct (Z.eq_dec (heapUsed (memoryUsage w)) 0) as [->|Nz].
  - repeat split; try reflexivity; [discriminate | lia].
  - destruct (of_Z_exact (heapUsed (memoryUsage w)) ltac:(lia)) as (M & -> & _).
    repeat split; try reflexivity. lia.
Qed.

Lemma empty_heap_is_unhealthy_no_heap :
  let w := with_heap 0 0 in
  heapTotal (memoryUsage w) = 0 /\
  0 <= heapUsed (memoryUsage w) < 2 ^ 53 /\
  exists memory v8,
    check memory_check w = Normal memory /\
    check v8_performance_check w = Normal v8 /\
    healthy memory = false /\
    healthy v8 = false /\
    (shouldOptimizeMemory w = true <-> 0 < heapUsed (memoryUsage w)).
Proof.
  intros w.
  assert (Ht : heapTotal (memoryUsage w) = 0) by reflexivity.
  assert (Hu : 0 <= heapUsed (memoryUsage w) < 2 ^ 53) by (cbn; lia).
  split; [exact Ht|]. split; [exact Hu|].
  exact (empty_heap_is_unhealthy w Ht Hu).
Defined.
